(** * Reserva-tu-cancha backend: booking, availability, admin gate, prices

    A shallow embedding of the Express/PostgreSQL service (the variant with
    the admin gate and the price table), followed by the properties of the
    handlers.

    - JavaScript values as they arrive in a JSON body or a query string,
      with [!v] truthiness, [===] and [Number.prototype.toString];
    - [req.body], [req.query], [req.headers], [req.params] and
      [process.env] as finite maps from names to values;
    - the two tables as lists of rows, each with the counter of its SERIAL
      column; the texts a row holds are free of the character U+0000, which
      the server refuses in every text parameter;
    - the set of live admin tokens as a finite set of strings;
    - every handler as a function from the pieces of the world it reads
      (environment, clock, store, token set, request) to the response, the
      new store or token set and the outside effects it caused. *)

From Stdlib Require Import ZArith String Ascii List Bool Lia.
From stdpp Require Import base option gmap strings list pretty.
Import ListNotations.

(** ** JavaScript values and the methods the handlers call *)

Module JS.

(** A value found in a parsed JSON body or query string.  [Str] carries a
    string as its UTF-8 bytes, whatever they are; [Num n] is the number the
    integer literal [n] denotes, that is the double nearest to [n];
    [Other txt] stands for every remaining value (object, array,
    non-integral number): it is truthy, it is [===] to no string, and [txt]
    is the text node-postgres sends for it as a query parameter. *)
Inductive value :=
| Undefined
| Null
| Bool (b : bool)
| Num (n : Z)
| Str (s : string)
| Other (txt : string).

Definition is_empty (s : string) : bool :=
  match s with EmptyString => true | String _ _ => false end.

(** ToBoolean. *)
Definition truthy (v : value) : bool :=
  match v with
  | Undefined | Null => false
  | Bool b => b
  | Num n => negb (n =? 0)%Z
  | Str s => negb (is_empty s)
  | Other _ => true
  end.

(** [!v] *)
Definition not (v : value) : bool := negb (truthy v).

(** [v === undefined] *)
Definition is_undefined (v : value) : bool :=
  match v with Undefined => true | _ => false end.

(** [v === s] for a string [s]. *)
Definition eq_string (v : value) (s : string) : bool :=
  match v with Str t => String.eqb t s | _ => false end.

(** [o.k] on an object: a missing property reads as [undefined]. *)
Definition get (k : string) (o : gmap string value) : value :=
  default Undefined (o !! k).

(** [s || d] where [s] is a string or [undefined]. *)
Definition or_default (s : option string) (d : string) : string :=
  match s with
  | Some t => if is_empty t then d else t
  | None => d
  end.

Fixpoint drop (n : nat) (s : string) : string :=
  match n, s with
  | O, _ => s
  | S n', String _ s' => drop n' s'
  | S _, EmptyString => EmptyString
  end.

(** [s.replace(pat, rep)] with a string pattern: the leftmost occurrence
    of [pat] is replaced, wherever it starts ([rep] has no [$] pattern
    in this program). *)
Fixpoint replace (pat rep s : string) : string :=
  if String.prefix pat s then rep +:+ drop (String.length pat) s
  else match s with
       | EmptyString => EmptyString
       | String c s' => String c (replace pat rep s')
       end.

(** White space and line terminators among the Latin-1 characters a
    header value is made of: TAB, LF, VT, FF, CR, SP, NBSP. *)
Definition is_white_space (c : ascii) : bool :=
  match N_of_ascii c with
  | 9%N | 10%N | 11%N | 12%N | 13%N | 32%N | 160%N => true
  | _ => false
  end.

Fixpoint trimStart_chars (l : list ascii) : list ascii :=
  match l with
  | c :: l' => if is_white_space c then trimStart_chars l' else l
  | [] => []
  end.

(** [s.trim()] *)
Definition trim (s : string) : string :=
  string_of_list_ascii
    (rev (trimStart_chars (rev (trimStart_chars (list_ascii_of_string s))))).

(** *** Numbers as text

    A number is a double.  The double nearest to the positive integer [m]
    (ties go to the even significand), or [None] beyond the largest double,
    where the number is [Infinity]. *)
Definition nearest_double (m : Z) : option Z :=
  let e := Z.log2 m in
  if (e <? 53)%Z then Some m
  else
    let u := (2 ^ (e - 52))%Z in
    let q := (m / u)%Z in
    let r := (m mod u)%Z in
    let q' := if (2 * r <? u)%Z then q
              else if (u <? 2 * r)%Z then (q + 1)%Z
              else if Z.even q then q else (q + 1)%Z in
    if (q' * u <? 2 ^ 1024)%Z then Some (q' * u)%Z else None.

(** The decimal [v] denotes the double [x]. *)
Definition reads_as (x v : Z) : bool :=
  match nearest_double v with
  | Some y => (y =? x)%Z
  | None => false
  end.

(** The decimal with the fewest significant digits that denotes the double
    [x], and among those the one nearest to [x]: the multiples of [p]
    around [x] are tried for [p] a power of ten, from the largest down. *)
Fixpoint shortest_decimal (fuel : nat) (x p : Z) : Z :=
  match fuel with
  | O => x
  | S fuel' =>
      let lo := (x / p * p)%Z in
      let hi := (lo + p)%Z in
      match reads_as x lo, reads_as x hi with
      | true, true => if (x - lo <=? hi - x)%Z then lo else hi
      | true, false => lo
      | false, true => hi
      | false, false => shortest_decimal fuel' x (p / 10)%Z
      end
  end.

Fixpoint strip_zeros (l : list ascii) : list ascii :=
  match l with
  | "0"%char :: l' => strip_zeros l'
  | _ => l
  end.

(** [d.ddde+n] for the digits [ds] of an integer. *)
Definition exponent_form (ds : string) : string :=
  let significant :=
    string_of_list_ascii (rev (strip_zeros (rev (list_ascii_of_string ds)))) in
  match significant with
  | String c rest =>
      String c (if is_empty rest then "" else "." +:+ rest)
      +:+ "e+" +:+ pretty (Z.of_nat (String.length ds) - 1)%Z
  | EmptyString => ds
  end.

Definition toString_positive (m : Z) : string :=
  match nearest_double m with
  | None => "Infinity"
  | Some x =>
      let digits := String.length (pretty x) in
      let ds := pretty (shortest_decimal digits x (10 ^ (Z.of_nat digits - 1))) in
      if (String.length ds <=? 21)%nat then ds else exponent_form ds
  end.

(** [n.toString()] for the number the integer literal [n] denotes: the
    shortest decimal that denotes the same double, written out in full up
    to 21 digits and in exponent form beyond. *)
Definition Number_toString (n : Z) : string :=
  if (n <? 0)%Z then "-" +:+ toString_positive (- n) else toString_positive n.

End JS.

(** ** Requests, responses, effects *)

(** What a handler reads of [req]; header names are in lower case, as Node
    delivers them. *)
Record Request := {
  headers : gmap string string;
  body    : gmap string JS.value;
  query   : gmap string JS.value;
  params  : gmap string string
}.

(** ** The admin token set *)

Definition hex_digit (n : N) : ascii :=
  match n with
  | 0 => "0" | 1 => "1" | 2 => "2" | 3 => "3" | 4 => "4" | 5 => "5"
  | 6 => "6" | 7 => "7" | 8 => "8" | 9 => "9" | 10 => "a" | 11 => "b"
  | 12 => "c" | 13 => "d" | 14 => "e" | _ => "f"
  end%char%N.

(** [buf.toString('hex')] *)
Fixpoint to_hex (buf : list Byte.byte) : string :=
  match buf with
  | [] => EmptyString
  | b :: buf' =>
      let n := Byte.to_N b in
      String (hex_digit (n / 16)) (String (hex_digit (n mod 16)) (to_hex buf'))
  end.

(** [generarToken]: [crypto.randomBytes(32).toString('hex')]; the 32 bytes
    the generator returned are the argument. *)
Definition generarToken (randomBytes : list Byte.byte) : string :=
  to_hex randomBytes.

(** The bearer token of a request, as [validarToken] and the logout
    handler compute it. *)
Definition bearer_token (req : Request) : string :=
  let auth := JS.or_default (headers req !! "authorization") "" in
  JS.trim (JS.replace "Bearer " "" auth).

Definition validarToken (tokens : gset string) (req : Request) : bool :=
  bool_decide (bearer_token req ∈ tokens).

(** ** The store

    Strings are UTF-8 byte strings; a row is a record; a table is the list
    of its rows. *)

Module SQL.

(** *** Texts

    The server refuses, when a statement is bound, every text parameter
    that contains the character U+0000 (the byte 0); the statement then
    fails.  So no text of the store contains it. *)

Fixpoint has_nul (s : string) : bool :=
  match s with
  | EmptyString => false
  | String c s' => Ascii.eqb c "000" || has_nul s'
  end.

Record text := mk_text {
  text_val : string;
  text_ok : has_nul text_val = false
}.

(** Reading a string as a text; [None] when it is refused. *)
Definition textin (s : string) : option text :=
  match decide (has_nul s = false) with
  | left ok => Some (mk_text s ok)
  | right _ => None
  end.

Definition empty_text : text := mk_text "" eq_refl.

(** The text of a string literal. *)
Definition txt (s : string) : text := default empty_text (textin s).

(** *** Column types *)

Definition is_continuation (c : ascii) : bool :=
  let n := N_of_ascii c in ((128 <=? n) && (n <? 192))%N.

(** Number of characters of a UTF-8 string. *)
Fixpoint char_length (s : string) : nat :=
  match s with
  | EmptyString => O
  | String c s' =>
      if is_continuation c then char_length s' else S (char_length s')
  end.

(** The first [n] characters. *)
Fixpoint left (n : nat) (s : string) : string :=
  match s with
  | EmptyString => EmptyString
  | String c s' =>
      if is_continuation c then String c (left n s')
      else match n with
           | O => EmptyString
           | S n' => String c (left n' s')
           end
  end.

Fixpoint all_spaces (s : string) : bool :=
  match s with
  | EmptyString => true
  | String c s' => Ascii.eqb c " " && all_spaces s'
  end.

(** Storing a text into a VARCHAR(n) column: a longer text is an error
    unless the excess is spaces only, which are cut off. *)
Definition varchar (n : nat) (t : text) : option text :=
  let s := text_val t in
  if (char_length s <=? n)%nat then Some t
  else
    let kept := left n s in
    if all_spaces (JS.drop (String.length kept) s) then textin kept else None.

Definition is_space (c : ascii) : bool :=
  match N_of_ascii c with
  | 9%N | 10%N | 11%N | 12%N | 13%N | 32%N => true
  | _ => false
  end.

Fixpoint skip_spaces (l : list ascii) : list ascii :=
  match l with
  | c :: l' => if is_space c then skip_spaces l' else l
  | [] => []
  end.

Definition digit (c : ascii) : option Z :=
  let n := N_of_ascii c in
  if ((48 <=? n) && (n <=? 57))%N then Some (Z.of_N n - 48)%Z else None.

Fixpoint digits (acc : Z) (l : list ascii) : option Z :=
  match l with
  | [] => Some acc
  | c :: l' => d ← digit c; digits (10 * acc + d)%Z l'
  end.

Definition in_int4 (n : Z) : bool :=
  ((-2147483648 <=? n) && (n <=? 2147483647))%Z.

(** Reading a text as an INTEGER: blanks, an optional sign, decimal
    digits, blanks; a value outside 32 bits is an error, and so is every
    other character, U+0000 included.  (The non-decimal and underscore
    forms of recent servers are not covered.) *)
Definition int4in (s : string) : option Z :=
  let l := rev (skip_spaces (rev (skip_spaces (list_ascii_of_string s)))) in
  let '(neg, ds) :=
    match l with
    | "-"%char :: ds => (true, ds)
    | "+"%char :: ds => (false, ds)
    | _ => (false, l)
    end in
  match ds with
  | [] => None
  | _ :: _ =>
      n ← digits 0 ds;
      let v := if neg : bool then (- n)%Z else n in
      if in_int4 v then Some v else None
  end.

(** *** Query parameters

    node-postgres sends every parameter as text, or as NULL ([None]) for
    [undefined] and [null]; a number is sent as its [toString()]. *)
Definition prepareValue (v : JS.value) : option string :=
  match v with
  | JS.Undefined | JS.Null => None
  | JS.Bool b => Some (if b then "true" else "false")
  | JS.Num n => Some (JS.Number_toString n)
  | JS.Str s => Some s
  | JS.Other txt => Some txt
  end.

(** A parameter compared with, or assigned to, a text column: [None] when
    the server refuses it, [Some None] is NULL. *)
Definition text_param (v : JS.value) : option (option text) :=
  match prepareValue v with
  | None => Some None
  | Some s => Some <$> textin s
  end.

(** A parameter assigned to a VARCHAR(n) column. *)
Definition varchar_param (n : nat) (v : JS.value) : option (option text) :=
  p ← text_param v;
  match p with
  | None => Some None
  | Some t => Some <$> varchar n t
  end.

(** A parameter assigned to an INTEGER column. *)
Definition int4_param (v : JS.value) : option (option Z) :=
  match prepareValue v with
  | None => Some None
  | Some s => Some <$> int4in s
  end.

(** [col = $n] on a text column; a NULL parameter matches no row. *)
Definition text_eq (col : string) (p : option text) : bool :=
  match p with
  | Some t => String.eqb col (text_val t)
  | None => false
  end.

(** The server accepts the value as a text parameter. *)
Definition bindable (v : JS.value) : bool :=
  match prepareValue v with
  | Some s => negb (has_nul s)
  | None => true
  end.

End SQL.

(** *** Tables

    [reservas]: every column but [estado] and [fecha_creacion] is NOT NULL
    without a default; [estado] is only ever written by its default
    ['confirmada'] and by the cancellation, so a row always carries a
    string there.  The text columns hold texts; [nombre], [cancha] and the
    like read them as strings. *)

Module Reserva.
Record t := mk {
  id : Z;
  nombre_text : SQL.text;
  apellido_text : SQL.text;
  whatsapp_text : SQL.text;
  deporte_text : SQL.text;
  cancha_text : SQL.text;
  fecha_text : SQL.text;
  horario_text : SQL.text;
  precio : Z;
  estado : string;
  fecha_creacion : Z
}.

Definition nombre (r : t) : string := SQL.text_val (nombre_text r).
Definition apellido (r : t) : string := SQL.text_val (apellido_text r).
Definition whatsapp (r : t) : string := SQL.text_val (whatsapp_text r).
Definition deporte (r : t) : string := SQL.text_val (deporte_text r).
Definition cancha (r : t) : string := SQL.text_val (cancha_text r).
Definition fecha (r : t) : string := SQL.text_val (fecha_text r).
Definition horario (r : t) : string := SQL.text_val (horario_text r).

Definition set_estado (e : string) (r : t) : t :=
  mk (id r) (nombre_text r) (apellido_text r) (whatsapp_text r)
     (deporte_text r) (cancha_text r) (fecha_text r) (horario_text r)
     (precio r) e (fecha_creacion r).

(** A row written out with string literals. *)
Definition make (id : Z)
    (nombre apellido whatsapp deporte cancha fecha horario : string)
    (precio : Z) (estado : string) (fecha_creacion : Z) : t :=
  mk id (SQL.txt nombre) (SQL.txt apellido) (SQL.txt whatsapp)
     (SQL.txt deporte) (SQL.txt cancha) (SQL.txt fecha) (SQL.txt horario)
     precio estado fecha_creacion.
End Reserva.

Module Precio.
Record t := mk {
  id : Z;
  cancha_text : SQL.text;
  precio : Z;
  actualizado : Z
}.

Definition cancha (r : t) : string := SQL.text_val (cancha_text r).

Definition set_precio (p now : Z) (r : t) : t :=
  mk (id r) (cancha_text r) p now.

Definition make (id : Z) (cancha : string) (precio actualizado : Z) : t :=
  mk id (SQL.txt cancha) precio actualizado.
End Precio.

(** The database behind [pool].  [reservas] lists its rows in the order
    the server retrieves them when no ORDER BY is given; [precios] is only
    ever read sorted by id, and lists its rows in the order they were
    inserted.  A SERIAL counter holds the last value handed out; it is not
    given back when a statement fails later.  The ids of [reservas] come
    from its counter alone, so the primary key never rejects a row
    ([ids_in_sequence] below) and is not checked here. *)
Record DB := {
  reservas : list Reserva.t;
  reservas_id_seq : Z;
  precios : list Precio.t;
  precios_id_seq : Z
}.

Definition with_reservas (rows : list Reserva.t) (seq : Z) (d : DB) : DB :=
  {| reservas := rows; reservas_id_seq := seq;
     precios := precios d; precios_id_seq := precios_id_seq d |}.

Definition with_precios (rows : list Precio.t) (seq : Z) (d : DB) : DB :=
  {| reservas := reservas d; reservas_id_seq := reservas_id_seq d;
     precios := rows; precios_id_seq := seq |}.

Definition empty_db : DB :=
  {| reservas := []; reservas_id_seq := 0; precios := []; precios_id_seq := 0 |}.

(** *** The statements the handlers send through [pool.query]

    A statement that the server refuses, at bind time or later, makes
    [pool.query] throw: such a result is [None]. *)

Module Pool.

(** [estado != 'cancelada'] *)
Definition activa (r : Reserva.t) : bool :=
  negb (String.eqb (Reserva.estado r) "cancelada").

(** SELECT horario FROM reservas
    WHERE cancha = $1 AND fecha = $2 AND estado != 'cancelada' *)
Definition select_ocupados (d : DB) (cancha fecha : JS.value)
  : option (list Reserva.t) :=
  c ← SQL.text_param cancha;
  f ← SQL.text_param fecha;
  Some (List.filter
          (fun r => SQL.text_eq (Reserva.cancha r) c
                    && SQL.text_eq (Reserva.fecha r) f
                    && activa r)
          (reservas d)).

(** SELECT id FROM reservas
    WHERE cancha = $1 AND fecha = $2 AND horario = $3
      AND estado != 'cancelada' *)
Definition select_check (d : DB) (cancha fecha horario : JS.value)
  : option (list Reserva.t) :=
  c ← SQL.text_param cancha;
  f ← SQL.text_param fecha;
  h ← SQL.text_param horario;
  Some (List.filter
          (fun r => SQL.text_eq (Reserva.cancha r) c
                    && SQL.text_eq (Reserva.fecha r) f
                    && SQL.text_eq (Reserva.horario r) h
                    && activa r)
          (reservas d)).

(** The eight parameters of the INSERT, each converted to the type of
    its column; [None] when a conversion fails. *)
Record insert_columns := {
  c_nombre : option SQL.text;
  c_apellido : option SQL.text;
  c_whatsapp : option SQL.text;
  c_deporte : option SQL.text;
  c_cancha : option SQL.text;
  c_fecha : option SQL.text;
  c_horario : option SQL.text;
  c_precio : option Z
}.

Definition bind_insert
    (nombre apellido whatsapp deporte cancha fecha horario precio : JS.value)
  : option insert_columns :=
  n ← SQL.varchar_param 100 nombre;
  a ← SQL.varchar_param 100 apellido;
  w ← SQL.varchar_param 30 whatsapp;
  dp ← SQL.varchar_param 50 deporte;
  c ← SQL.varchar_param 100 cancha;
  f ← SQL.varchar_param 100 fecha;
  h ← SQL.varchar_param 10 horario;
  p ← SQL.int4_param precio;
  Some {| c_nombre := n; c_apellido := a; c_whatsapp := w; c_deporte := dp;
          c_cancha := c; c_fecha := f; c_horario := h; c_precio := p |}.

(** The row to store, once its id and creation time are known; [None]
    when a NOT NULL column would receive NULL. *)
Definition new_row (id now : Z) (c : insert_columns) : option Reserva.t :=
  n ← c_nombre c;
  a ← c_apellido c;
  w ← c_whatsapp c;
  dp ← c_deporte c;
  ca ← c_cancha c;
  f ← c_fecha c;
  h ← c_horario c;
  p ← c_precio c;
  Some (Reserva.mk id n a w dp ca f h p "confirmada" now).

(** INSERT INTO reservas (nombre, apellido, whatsapp, deporte, cancha,
    fecha, horario, precio) VALUES ($1, ..., $8) RETURNING id.
    The result is the store afterwards and the returned id, or [None]
    when the statement raised an error. *)
Definition insert_reserva (now : Z) (d : DB)
    (nombre apellido whatsapp deporte cancha fecha horario precio : JS.value)
  : DB * option Z :=
  match bind_insert nombre apellido whatsapp deporte
                    cancha fecha horario precio with
  | None => (d, None)
  | Some cols =>
      let id := (reservas_id_seq d + 1)%Z in
      match new_row id now cols with
      | None => (with_reservas (reservas d) id d, None)
      | Some row => (with_reservas (reservas d ++ [row]) id d, Some id)
      end
  end.

(** [id = $1] *)
Definition has_id (n : Z) (r : Reserva.t) : bool := (Reserva.id r =? n)%Z.

(** The rows after [SET estado = 'cancelada' WHERE id = n].  The server
    does not overwrite a row: it writes the new version elsewhere, and from
    then on retrieves the row from there.  The other rows keep their order;
    [place] of them come before the new version. *)
Definition cancelar_rows (place : nat) (n : Z) (rows : list Reserva.t)
  : list Reserva.t :=
  let others := List.filter (fun r => negb (has_id n r)) rows in
  let updated :=
    map (Reserva.set_estado "cancelada") (List.filter (has_id n) rows) in
  take place others ++ updated ++ drop place others.

(** UPDATE reservas SET estado = 'cancelada' WHERE id = $1.
    The parameter is the text of the route parameter, read as an
    INTEGER; a NULL parameter matches no row. *)
Definition update_cancelar (place : nat) (d : DB) (id : option string)
  : option DB :=
  match id with
  | None => Some d
  | Some s =>
      n ← SQL.int4in s;
      Some (with_reservas (cancelar_rows place n (reservas d))
                          (reservas_id_seq d) d)
  end.

(** UPDATE precios SET precio = $1, actualizado = NOW() WHERE cancha = $2 *)
Definition update_precio (now : Z) (d : DB) (precio cancha : JS.value)
  : option DB :=
  p ← SQL.int4_param precio;
  c ← SQL.text_param cancha;
  let hit r := SQL.text_eq (Precio.cancha r) c in
  match p with
  | Some n =>
      Some (with_precios
              (map (fun r => if hit r then Precio.set_precio n now r else r)
                   (precios d))
              (precios_id_seq d) d)
  | None => if existsb hit (precios d) then None else Some d
  end.

Fixpoint insert_desc (r : Reserva.t) (l : list Reserva.t) : list Reserva.t :=
  match l with
  | [] => [r]
  | x :: l' =>
      if (Reserva.fecha_creacion x <=? Reserva.fecha_creacion r)%Z
      then r :: l else x :: insert_desc r l'
  end.

(** SELECT * FROM reservas ORDER BY fecha_creacion DESC LIMIT 500.
    The query fixes no order among rows created at the same instant; they
    are taken in table order here. *)
Definition select_reservas (d : DB) : list Reserva.t :=
  take 500 (foldr insert_desc [] (reservas d)).

(** INSERT INTO precios (cancha, precio) VALUES ($1, 8000)
    ON CONFLICT (cancha) DO NOTHING *)
Definition insert_precio (now : Z) (d : DB) (cancha : SQL.text) : DB :=
  let id := (precios_id_seq d + 1)%Z in
  if existsb (fun r => String.eqb (Precio.cancha r) (SQL.text_val cancha))
             (precios d)
  then with_precios (precios d) id d
  else with_precios (precios d ++ [Precio.mk id cancha 8000 now]) id d.

End Pool.

Definition canchas : list string :=
  [ "Cancha 1 — F8"; "Cancha 2 — F8"; "Cancha 3 — F8";
    "C1 Lado A — F6"; "C1 Lado B — F6";
    "C2 Lado A — F6"; "C2 Lado B — F6";
    "C3 Lado A — F6"; "C3 Lado B — F6";
    "Pádel 1"; "Pádel 2"; "Pádel 3" ].

(** [initDB]: the tables exist in every [DB], so only the seeding of the
    prices is left of it.  Each seed is bound as a text parameter; the
    twelve literals are free of U+0000, so each of them is accepted. *)
Definition initDB (now : Z) (d : DB) : DB :=
  foldl (Pool.insert_precio now) d (omap SQL.textin canchas).

(** ** Responses and outside effects *)

Inductive Json :=
| json_error (error : string)            (* { error: '...' } *)
| json_ok                                (* { ok: true } *)
| json_ok_id (id : Z)                    (* { ok: true, id } *)
| json_ok_token (token : string)         (* { ok: true, token } *)
| json_ocupados (ocupados : list string) (* { ocupados: [...] } *)
| json_rows (rows : list Reserva.t).     (* result.rows *)

(** [res.status(status).json(json)]; [res.json] alone answers 200. *)
Record Response := { status : Z; json : Json }.

Inductive Effect :=
| console_error (what : string)
| fetch_post (url : string) (payload : list (string * JS.value))
| setTimeout_delete (token : string) (ms : Z).

(** What a handler leaves behind: the response, the state it owns (the
    store, or the token set) and the effects in the order they happened. *)
Record Outcome (S : Type) := {
  response : Response;
  state : S;
  effects : list Effect
}.
Arguments response {S} _.
Arguments state {S} _.
Arguments effects {S} _.

Definition answer {S} (code : Z) (j : Json) (s : S) (fx : list Effect)
  : Outcome S :=
  {| response := {| status := code; json := j |}; state := s; effects := fx |}.

Definition Handler : Type := DB -> Request -> Outcome DB.

(** ** The admin gate and the session routes *)

Definition requireAdmin (tokens : gset string) (next : Handler) : Handler :=
  fun d req =>
    if negb (validarToken tokens req)
    then answer 401 (json_error "No autorizado") d []
    else next d req.

(** POST /admin/login *)
Definition post_admin_login (env : gmap string string)
    (randomBytes : list Byte.byte) (tokens : gset string) (req : Request)
  : Outcome (gset string) :=
  let email := JS.get "email" (body req) in
  let password := JS.get "password" (body req) in
  let adminEmail := JS.or_default (env !! "ADMIN_EMAIL") "admin@picodeportes.com" in
  let adminPass := JS.or_default (env !! "ADMIN_PASS") "PicoAdmin2025" in
  if JS.eq_string email adminEmail && JS.eq_string password adminPass then
    let token := generarToken randomBytes in
    answer 200 (json_ok_token token) ({[ token ]} ∪ tokens)
           [setTimeout_delete token (8 * 60 * 60 * 1000)]
  else answer 401 (json_error "Credenciales incorrectas") tokens [].

(** POST /admin/logout *)
Definition post_admin_logout (tokens : gset string) (req : Request)
  : Outcome (gset string) :=
  answer 200 json_ok (tokens ∖ {[ bearer_token req ]}) [].

(** The callback of the login's [setTimeout]. *)
Definition timeout_fires (token : string) (tokens : gset string) : gset string :=
  tokens ∖ {[ token ]}.

(** The token sets the running server can hold: empty at start, changed
    only by the three pieces of code above. *)
Inductive live : gset string -> Prop :=
| live_start : live ∅
| live_login env randomBytes tokens req :
    live tokens -> length randomBytes = 32%nat ->
    live (state (post_admin_login env randomBytes tokens req))
| live_logout tokens req :
    live tokens -> live (state (post_admin_logout tokens req))
| live_timeout token tokens :
    live tokens -> live (timeout_fires token tokens).

(** ** The price and booking routes *)

(** POST /admin/precios, behind the gate. *)
Definition admin_precios_handler (now : Z) : Handler :=
  fun d req =>
    let cancha := JS.get "cancha" (body req) in
    let precio := JS.get "precio" (body req) in
    if JS.not cancha || JS.is_undefined precio
    then answer 400 (json_error "Faltan datos") d []
    else match Pool.update_precio now d precio cancha with
         | Some d' => answer 200 json_ok d' []
         | None =>
             answer 500 (json_error "Error al actualizar precio") d
                    [console_error "err"]
         end.

Definition post_admin_precios (tokens : gset string) (now : Z) : Handler :=
  requireAdmin tokens (admin_precios_handler now).

(** GET /disponibilidad *)
Definition get_disponibilidad : Handler :=
  fun d req =>
    let cancha := JS.get "cancha" (query req) in
    let fecha := JS.get "fecha" (query req) in
    if JS.not cancha || JS.not fecha
    then answer 400 (json_error "Faltan parámetros") d []
    else match Pool.select_ocupados d cancha fecha with
         | Some rows =>
             answer 200 (json_ocupados (map Reserva.horario rows)) d []
         | None =>
             answer 500 (json_error "Error al consultar disponibilidad") d
                    [console_error "err"]
         end.

(** The object the webhook receives, before [JSON.stringify]. *)
Definition webhook_payload (reservaId : Z) (b : gmap string JS.value)
  : list (string * JS.value) :=
  ("id", JS.Num reservaId)
  :: map (fun k => (k, JS.get k b))
         ["nombre"; "apellido"; "whatsapp"; "deporte";
          "cancha"; "fecha"; "horario"; "precio"].

(** The webhook step: nothing without a configured URL; otherwise one
    [fetch], and one logged line when its promise rejects. *)
Definition notify (env : gmap string string) (fetch_resolves : bool)
    (reservaId : Z) (b : gmap string JS.value) : list Effect :=
  match env !! "N8N_WEBHOOK_URL" with
  | Some url =>
      if JS.is_empty url then []
      else fetch_post url (webhook_payload reservaId b)
           :: (if fetch_resolves then [] else [console_error "Webhook error:"])
  | None => []
  end.

(** POST /reservar: the occupancy SELECT and the INSERT run in one [try],
    whose [catch] answers 500 for a failure of either. *)
Definition post_reservar (env : gmap string string) (fetch_resolves : bool)
    (now : Z) : Handler :=
  fun d req =>
    let nombre := JS.get "nombre" (body req) in
    let apellido := JS.get "apellido" (body req) in
    let whatsapp := JS.get "whatsapp" (body req) in
    let deporte := JS.get "deporte" (body req) in
    let cancha := JS.get "cancha" (body req) in
    let fecha := JS.get "fecha" (body req) in
    let horario := JS.get "horario" (body req) in
    let precio := JS.get "precio" (body req) in
    if JS.not nombre || JS.not apellido || JS.not whatsapp
       || JS.not cancha || JS.not fecha || JS.not horario
    then answer 400 (json_error "Faltan datos") d []
    else
      match Pool.select_check d cancha fecha horario with
      | None =>
          answer 500 (json_error "Error al guardar la reserva") d
                 [console_error "err"]
      | Some check =>
          if (0 <? length check)%nat
          then answer 409 (json_error "Ese horario ya está ocupado") d []
          else
            match Pool.insert_reserva now d nombre apellido whatsapp deporte
                                      cancha fecha horario precio with
            | (d', Some reservaId) =>
                answer 200 (json_ok_id reservaId) d'
                       (notify env fetch_resolves reservaId (body req))
            | (d', None) =>
                answer 500 (json_error "Error al guardar la reserva") d'
                       [console_error "err"]
            end
      end.

(** POST /cancelar/:id, behind the gate; [place] is where the server puts
    the new version of the cancelled row ([Pool.cancelar_rows]). *)
Definition cancelar_handler (place : nat) : Handler :=
  fun d req =>
    let id := params req !! "id" in
    match Pool.update_cancelar place d id with
    | Some d' => answer 200 json_ok d' []
    | None =>
        answer 500 (json_error "Error al cancelar") d [console_error "err"]
    end.

Definition post_cancelar (tokens : gset string) (place : nat) : Handler :=
  requireAdmin tokens (cancelar_handler place).

(** GET /reservas, behind the gate. *)
Definition reservas_handler : Handler :=
  fun d req => answer 200 (json_rows (Pool.select_reservas d)) d [].

Definition get_reservas (tokens : gset string) : Handler :=
  requireAdmin tokens reservas_handler.

(** ** Vocabulary of the properties *)

(** Lowercase hexadecimal digits, the alphabet of [toString('hex')]. *)
Definition hex_char (c : ascii) : bool :=
  let n := N_of_ascii c in
  (((48 <=? n) && (n <=? 57)) || ((97 <=? n) && (n <=? 102)))%N.

Definition all_hex (s : string) : bool :=
  forallb hex_char (list_ascii_of_string s).

Definition required_fields : list string :=
  ["nombre"; "apellido"; "whatsapp"; "cancha"; "fecha"; "horario"].

(** The six validated fields are all truthy. *)
Definition validated (b : gmap string JS.value) : bool :=
  forallb (fun k => JS.truthy (JS.get k b)) required_fields.

(** The stored reservation [r] holds the slot the body [b] asks for. *)
Definition holds_slot (r : Reserva.t) (b : gmap string JS.value) : Prop :=
  SQL.prepareValue (JS.get "cancha" b) = Some (Reserva.cancha r)
  ∧ SQL.prepareValue (JS.get "fecha" b) = Some (Reserva.fecha r)
  ∧ SQL.prepareValue (JS.get "horario" b) = Some (Reserva.horario r)
  ∧ Reserva.estado r ≠ "cancelada".

Definition slot_taken (d : DB) (b : gmap string JS.value) : Prop :=
  ∃ r, r ∈ reservas d ∧ holds_slot r b.

Definition slot_free (d : DB) (b : gmap string JS.value) : Prop :=
  ∀ r, r ∈ reservas d -> ¬ holds_slot r b.

(** The occupancy SELECT of the booking handler, on the fields of a body. *)
Definition check_body (d : DB) (b : gmap string JS.value)
  : option (list Reserva.t) :=
  Pool.select_check d (JS.get "cancha" b) (JS.get "fecha" b)
                    (JS.get "horario" b).

(** The INSERT of the booking handler, on the fields of a body. *)
Definition insert_body (now : Z) (d : DB) (b : gmap string JS.value)
  : DB * option Z :=
  Pool.insert_reserva now d
    (JS.get "nombre" b) (JS.get "apellido" b) (JS.get "whatsapp" b)
    (JS.get "deporte" b) (JS.get "cancha" b) (JS.get "fecha" b)
    (JS.get "horario" b) (JS.get "precio" b).


(** The price table has no row for the cancha a request names. *)
Definition no_precio_row (d : DB) (cancha : JS.value) : Prop :=
  ∀ r, r ∈ precios d -> SQL.prepareValue cancha ≠ Some (Precio.cancha r).

Definition is_fetch (e : Effect) : bool :=
  match e with fetch_post _ _ => true | _ => false end.

(** Every id in the table was handed out by the counter.  The handlers keep
    it so, which is why the primary key on [id] never rejects an INSERT. *)
Definition ids_in_sequence (d : DB) : Prop :=
  (0 ≤ reservas_id_seq d)%Z
  ∧ ∀ r, r ∈ reservas d -> (0 < Reserva.id r ≤ reservas_id_seq d)%Z.

(** [r'] has every column of [r] but, possibly, estado. *)
Definition same_but_estado (r r' : Reserva.t) : Prop :=
  Reserva.id r' = Reserva.id r
  ∧ Reserva.nombre r' = Reserva.nombre r
  ∧ Reserva.apellido r' = Reserva.apellido r
  ∧ Reserva.whatsapp r' = Reserva.whatsapp r
  ∧ Reserva.deporte r' = Reserva.deporte r
  ∧ Reserva.cancha r' = Reserva.cancha r
  ∧ Reserva.fecha r' = Reserva.fecha r
  ∧ Reserva.horario r' = Reserva.horario r
  ∧ Reserva.precio r' = Reserva.precio r
  ∧ Reserva.fecha_creacion r' = Reserva.fecha_creacion r.

(** The row [r] as the cancellation of id [n] leaves it. *)
Definition cancelled_row (n : Z) (r : Reserva.t) : Reserva.t :=
  if Pool.has_id n r then Reserva.set_estado "cancelada" r else r.

(** ** The wording of the specification, to compare the code with *)

(** The token of a request when the 'Bearer ' prefix is stripped (only when
    the header starts with it) and the rest is trimmed. *)
Definition strip_prefix (pre s : string) : string :=
  if String.prefix pre s then JS.drop (String.length pre) s else s.

Definition bearer_token_by_prefix (req : Request) : string :=
  let auth := JS.or_default (headers req !! "authorization") "" in
  JS.trim (strip_prefix "Bearer " auth).

(** The occupied slots: going through the stored reservations in retrieval
    order, the horario of each one that has this cancha and this fecha and
    whose estado is not 'cancelada'. *)
Fixpoint ocupados_spec (cancha fecha : string) (rows : list Reserva.t)
  : list string :=
  match rows with
  | [] => []
  | r :: rows' =>
      if decide (Reserva.cancha r = cancha ∧ Reserva.fecha r = fecha
                 ∧ Reserva.estado r ≠ "cancelada")
      then Reserva.horario r :: ocupados_spec cancha fecha rows'
      else ocupados_spec cancha fecha rows'
  end.

(** ** Sample requests and states *)

(** Thirty-two bytes as [crypto.randomBytes(32)] may return them. *)
Definition session_bytes : list Byte.byte :=
  concat (replicate 8 [Byte.x4f; Byte.xa2; Byte.x07; Byte.xc9]).

Definition login_request : Request :=
  {| headers := ∅;
     body := {[ "email" := JS.Str "admin@picodeportes.com";
                "password" := JS.Str "PicoAdmin2025" ]};
     query := ∅; params := ∅ |}.

(** The token set after one successful login. *)
Definition one_session : gset string :=
  state (post_admin_login ∅ session_bytes ∅ login_request).

Definition the_token : string := generarToken session_bytes.

Definition with_auth (h : string) (b : gmap string JS.value)
    (ps : gmap string string) : Request :=
  {| headers := {[ "authorization" := h ]}; body := b;
     query := ∅; params := ps |}.

(** A request carrying the live token in the usual form. *)
Definition admin_request (b : gmap string JS.value) (ps : gmap string string)
  : Request :=
  with_auth ("Bearer " +:+ the_token) b ps.

(** A header with 'Bearer ' after its first character: no prefix to strip,
    yet [replace] removes the word and leaves the live token. *)
Definition inner_bearer_request : Request :=
  with_auth ("4Bearer " +:+ JS.drop 1 the_token) ∅ {[ "id" := "1" ]}.

Definition unknown_token_request : Request :=
  with_auth "Bearer 1234" {[ "cancha" := JS.Str "Pádel 1"; "precio" := JS.Num 1 ]}
            {[ "id" := "1" ]}.

Definition free_price_request : Request :=
  admin_request {[ "cancha" := JS.Str "Pádel 1"; "precio" := JS.Num 0 ]} ∅.

Definition unknown_cancha_request : Request :=
  admin_request {[ "cancha" := JS.Str "Cancha 9"; "precio" := JS.Num 9000 ]} ∅.

Definition cancel_request (id : string) : Request :=
  admin_request ∅ {[ "id" := id ]}.

Definition availability_query (c f : string) : Request :=
  {| headers := ∅; body := ∅;
     query := {[ "cancha" := JS.Str c; "fecha" := JS.Str f ]}; params := ∅ |}.

Definition booking (fields : list (string * JS.value)) : Request :=
  {| headers := ∅; body := list_to_map fields; query := ∅; params := ∅ |}.

Definition full_booking : Request :=
  booking [ ("nombre", JS.Str "Ana"); ("apellido", JS.Str "Paz");
            ("whatsapp", JS.Str "1155550000"); ("deporte", JS.Str "padel");
            ("cancha", JS.Str "Pádel 1"); ("fecha", JS.Str "2025-06-01");
            ("horario", JS.Str "18:00"); ("precio", JS.Num 8000) ].

Definition no_nombre_booking : Request :=
  booking [ ("apellido", JS.Str "Paz"); ("whatsapp", JS.Str "1155550000");
            ("deporte", JS.Str "padel"); ("cancha", JS.Str "Pádel 1");
            ("fecha", JS.Str "2025-06-01"); ("horario", JS.Str "18:00");
            ("precio", JS.Num 8000) ].

Definition no_deporte_booking : Request :=
  booking [ ("nombre", JS.Str "Ana"); ("apellido", JS.Str "Paz");
            ("whatsapp", JS.Str "1155550000");
            ("cancha", JS.Str "Pádel 1"); ("fecha", JS.Str "2025-06-01");
            ("horario", JS.Str "18:00"); ("precio", JS.Num 8000) ].


(** Strings with the character U+0000 in them. *)
Definition A_nul_B : string := String "A" (String "000" "B").

Definition nul_x : string := String "000" "x".


Definition nul_cancha_booking : Request :=
  booking [ ("nombre", JS.Str "Ana"); ("apellido", JS.Str "Paz");
            ("whatsapp", JS.Str "1155550000"); ("deporte", JS.Str "padel");
            ("cancha", JS.Str nul_x); ("fecha", JS.Str "2025-06-01");
            ("horario", JS.Str "18:00"); ("precio", JS.Num 8000) ].


(** A booking whose horario is the number 1e21. *)
Definition number_horario_booking : Request :=
  booking [ ("nombre", JS.Str "Ana"); ("apellido", JS.Str "Paz");
            ("whatsapp", JS.Str "1155550000"); ("deporte", JS.Str "padel");
            ("cancha", JS.Str "Pádel 1"); ("fecha", JS.Str "2025-06-01");
            ("horario", JS.Num (10 ^ 21)); ("precio", JS.Num 8000) ].

Definition nul_cancha_price_request : Request :=
  admin_request {[ "cancha" := JS.Str nul_x; "precio" := JS.Num 9000 ]} ∅.

Definition webhook_env : gmap string string :=
  {[ "N8N_WEBHOOK_URL" := "https://n8n.example/webhook/reserva" ]}.

(** The store after start-up and one booking of Pádel 1. *)
Definition one_booking : DB :=
  state (post_reservar ∅ true 10 (initDB 0 empty_db) full_booking).

(** ** The public price list *)

Fixpoint insert_by_id (r : Precio.t) (l : list Precio.t) : list Precio.t :=
  match l with
  | [] => [r]
  | x :: l' =>
      if (Precio.id r <=? Precio.id x)%Z then r :: l else x :: insert_by_id r l'
  end.

(** SELECT cancha, precio FROM precios ORDER BY id *)
Definition select_precios (d : DB) : list Precio.t :=
  foldr insert_by_id [] (precios d).

(** [o[k] = v] for a number [v] on an object that started as [{}]: the key
    ["__proto__"] reaches the prototype setter, which ignores a number, so
    no property is created for it. *)
Definition set_number (o : gmap string Z) (k : string) (v : Z) : gmap string Z :=
  if String.eqb k "__proto__" then o else <[ k := v ]> o.

(** The answer of GET /precios: a status and the object
    [{ cancha: precio, ... }]. *)
Record PreciosResponse := {
  precios_status : Z;
  precios_json : gmap string Z
}.

(** GET /precios: [result.rows.forEach(r => { precios[r.cancha] = r.precio })]
    on the rows in id order. *)
Definition get_precios (d : DB) : PreciosResponse :=
  {| precios_status := 200;
     precios_json :=
       foldl (fun o r => set_number o (Precio.cancha r) (Precio.precio r))
             ∅ (select_precios d) |}.

(** ** More vocabulary *)

(** The configured credentials: [process.env.X || default]. *)
Definition adminEmail (env : gmap string string) : string :=
  JS.or_default (env !! "ADMIN_EMAIL") "admin@picodeportes.com".

Definition adminPass (env : gmap string string) : string :=
  JS.or_default (env !! "ADMIN_PASS") "PicoAdmin2025".

(** The price of the last row of [l] whose cancha is [k], if any. *)
Definition last_price (k : string) (l : list Precio.t) : option Z :=
  foldl (fun acc r => if String.eqb (Precio.cancha r) k
                      then Some (Precio.precio r) else acc)
        None l.

(** The price table has a row for the cancha [c]. *)
Definition has_cancha (c : string) (d : DB) : bool :=
  existsb (fun r => String.eqb (Precio.cancha r) c) (precios d).

(** No two rows of the price table name the same cancha. *)
Definition canchas_unique (d : DB) : Prop :=
  NoDup (map Precio.cancha (precios d)).

Definition same_slot (r1 r2 : Reserva.t) : Prop :=
  Reserva.cancha r1 = Reserva.cancha r2
  ∧ Reserva.fecha r1 = Reserva.fecha r2
  ∧ Reserva.horario r1 = Reserva.horario r2.

(** At most one reservation that is not cancelled per slot. *)
Definition no_double_booking (d : DB) : Prop :=
  ∀ i j r1 r2,
    reservas d !! i = Some r1 -> reservas d !! j = Some r2 ->
    same_slot r1 r2 ->
    Reserva.estado r1 ≠ "cancelada" -> Reserva.estado r2 ≠ "cancelada" ->
    i = j.

(** The same, going through the list: a row that is not cancelled shares
    its slot with no later row that is not cancelled. *)
Fixpoint one_per_slot (l : list Reserva.t) : Prop :=
  match l with
  | [] => True
  | r :: l' =>
      (∀ x, x ∈ l' -> same_slot r x -> Reserva.estado r ≠ "cancelada" ->
            Reserva.estado x ≠ "cancelada" -> False)
      ∧ one_per_slot l'
  end.

(** The texts of cancha, fecha and horario are no longer than their
    columns, so that they are stored as sent. *)
Definition slot_fits (b : gmap string JS.value) : Prop :=
  (∀ s, SQL.prepareValue (JS.get "cancha" b) = Some s ->
        (SQL.char_length s ≤ 100)%nat)
  ∧ (∀ s, SQL.prepareValue (JS.get "fecha" b) = Some s ->
          (SQL.char_length s ≤ 100)%nat)
  ∧ (∀ s, SQL.prepareValue (JS.get "horario" b) = Some s ->
          (SQL.char_length s ≤ 10)%nat).




(** Newest first. *)
Definition newest_first (l : list Reserva.t) : Prop :=
  ∀ i j r1 r2, (i < j)%nat -> l !! i = Some r1 -> l !! j = Some r2 ->
               (Reserva.fecha_creacion r2 ≤ Reserva.fecha_creacion r1)%Z.

(** ** More sample requests and states *)

Definition bearer_request (t : string) : Request :=
  with_auth ("Bearer " +:+ t) ∅ ∅.

Definition wrong_login_request : Request :=
  {| headers := ∅;
     body := {[ "email" := JS.Str "admin@picodeportes.com";
                "password" := JS.Str "picoadmin2025" ]};
     query := ∅; params := ∅ |}.

Definition price_request (c : string) (p : Z) : Request :=
  admin_request {[ "cancha" := JS.Str c; "precio" := JS.Num p ]} ∅.

Definition second_booking : Request :=
  booking [ ("nombre", JS.Str "Luis"); ("apellido", JS.Str "Rey");
            ("whatsapp", JS.Str "1144440000"); ("deporte", JS.Str "futbol");
            ("cancha", JS.Str "Cancha 1 — F8"); ("fecha", JS.Str "2025-06-01");
            ("horario", JS.Str "19:00"); ("precio", JS.Num 12000) ].

(** The store after a second booking, of another cancha, a little later. *)
Definition two_bookings : DB :=
  state (post_reservar ∅ true 15 one_booking second_booking).

(** * Properties *)

(** ** The model on small inputs *)

Example replace_bearer : JS.replace "Bearer " "" "Bearer abc" = "abc".
Proof. reflexivity. Qed.

Example replace_inner : JS.replace "Bearer " "" "xBearer abc" = "xabc".
Proof. reflexivity. Qed.

Example replace_once :
  JS.replace "Bearer " "" "Bearer Bearer abc" = "Bearer abc".
Proof. reflexivity. Qed.

Example trim_both : JS.trim "  abc " = "abc".
Proof. reflexivity. Qed.

Example toString_small : JS.Number_toString 8000 = "8000".
Proof. vm_compute. reflexivity. Qed.

Example toString_negative : JS.Number_toString (-12) = "-12".
Proof. vm_compute. reflexivity. Qed.

(** 2^53 + 1 is no double: the literal denotes 2^53. *)
Example toString_rounds :
  JS.Number_toString 9007199254740993 = "9007199254740992".
Proof. vm_compute. reflexivity. Qed.

(** 2^64 is written with the seventeen digits that identify it. *)
Example toString_shortest :
  JS.Number_toString (2 ^ 64) = "18446744073709552000".
Proof. vm_compute. reflexivity. Qed.

Example toString_21_digits :
  JS.Number_toString 123456789012345678901 = "123456789012345680000".
Proof. vm_compute. reflexivity. Qed.

Example toString_exponent : JS.Number_toString (10 ^ 21) = "1e+21".
Proof. vm_compute. reflexivity. Qed.

Example toString_exponent_digits :
  JS.Number_toString (2 ^ 70) = "1.1805916207174113e+21".
Proof. vm_compute. reflexivity. Qed.

Example toString_infinity : JS.Number_toString (10 ^ 309) = "Infinity".
Proof. vm_compute. reflexivity. Qed.

Example textin_plain : SQL.text_val <$> SQL.textin "Pádel 1" = Some "Pádel 1".
Proof. vm_compute. reflexivity. Qed.

Example textin_nul : SQL.textin A_nul_B = None.
Proof. vm_compute. reflexivity. Qed.

Example varchar_fits :
  SQL.text_val <$> SQL.varchar 10 (SQL.txt "18:00") = Some "18:00".
Proof. vm_compute. reflexivity. Qed.

Example varchar_too_long : SQL.varchar 10 (SQL.txt "18:00-19:00") = None.
Proof. vm_compute. reflexivity. Qed.

Example varchar_blank_excess :
  SQL.text_val <$> SQL.varchar 10 (SQL.txt "18:00       ") = Some "18:00     ".
Proof. vm_compute. reflexivity. Qed.

Example varchar_counts_characters :
  SQL.text_val <$> SQL.varchar 7 (SQL.txt "Pádel 1") = Some "Pádel 1".
Proof. vm_compute. reflexivity. Qed.

Example varchar_param_nul : SQL.varchar_param 100 (JS.Str A_nul_B) = None.
Proof. vm_compute. reflexivity. Qed.

Example varchar_param_number :
  SQL.varchar_param 10 (JS.Num (10 ^ 21)) = Some (Some (SQL.txt "1e+21")).
Proof. vm_compute. reflexivity. Qed.

Example int4in_plain : SQL.int4in "8000" = Some 8000%Z.
Proof. reflexivity. Qed.

Example int4in_signed : SQL.int4in " -12 " = Some (-12)%Z.
Proof. reflexivity. Qed.

Example int4in_word : SQL.int4in "abc" = None.
Proof. reflexivity. Qed.

Example int4in_range : SQL.int4in "2147483648" = None.
Proof. reflexivity. Qed.

Example int4in_nul : SQL.int4in (String "1" (String "000" "")) = None.
Proof. reflexivity. Qed.

Example int4_param_number : SQL.int4_param (JS.Num 0) = Some (Some 0%Z).
Proof. vm_compute. reflexivity. Qed.

Example int4_param_null : SQL.int4_param JS.Undefined = Some None.
Proof. reflexivity. Qed.

Example int4_param_bool : SQL.int4_param (JS.Bool true) = None.
Proof. reflexivity. Qed.

Example initDB_seeds_all :
  map Precio.cancha (precios (initDB 0 empty_db)) = canchas.
Proof. vm_compute. reflexivity. Qed.

Example initDB_again :
  precios (initDB 5 (initDB 0 empty_db)) = precios (initDB 0 empty_db).
Proof. vm_compute. reflexivity. Qed.

Example to_hex_bytes : to_hex [Byte.xff; Byte.x0a; Byte.x00] = "ff0a00".
Proof. reflexivity. Qed.

Example the_token_text :
  the_token
  = "4fa207c94fa207c94fa207c94fa207c94fa207c94fa207c94fa207c94fa207c9".
Proof. reflexivity. Qed.

Example inner_bearer_header :
  headers inner_bearer_request !! "authorization"
  = Some "4Bearer fa207c94fa207c94fa207c94fa207c94fa207c94fa207c94fa207c94fa207c9".
Proof. vm_compute. reflexivity. Qed.

Example inner_bearer_token : bearer_token inner_bearer_request = the_token.
Proof. vm_compute. reflexivity. Qed.

Example inner_bearer_by_prefix :
  bearer_token_by_prefix inner_bearer_request
  = "4Bearer fa207c94fa207c94fa207c94fa207c94fa207c94fa207c94fa207c94fa207c9".
Proof. vm_compute. reflexivity. Qed.

(** ** Reading fields *)

Lemma get_Some (k : string) (o : gmap string JS.value) (v : JS.value) :
  o !! k = Some v -> JS.get k o = v.
Proof. intros H. unfold JS.get. rewrite H. reflexivity. Qed.

Lemma get_None (k : string) (o : gmap string JS.value) :
  o !! k = None -> JS.get k o = JS.Undefined.
Proof. intros H. unfold JS.get. rewrite H. reflexivity. Qed.

(** ** Texts and text parameters *)

(** A text is its string. *)
Lemma text_ext (t1 t2 : SQL.text) :
  SQL.text_val t1 = SQL.text_val t2 -> t1 = t2.
Proof.
  destruct t1 as [s1 H1], t2 as [s2 H2]. cbn. intros ->.
  f_equal. apply proof_irrel.
Qed.

Lemma textin_val (t : SQL.text) : SQL.textin (SQL.text_val t) = Some t.
Proof.
  unfold SQL.textin. destruct (decide _) as [ok|no].
  - f_equal. apply text_ext. reflexivity.
  - destruct (no (SQL.text_ok t)).
Qed.

Lemma textin_Some s t : SQL.textin s = Some t -> SQL.text_val t = s.
Proof.
  unfold SQL.textin. destruct (decide _); [|discriminate].
  intros [= <-]. reflexivity.
Qed.

Lemma textin_None s : SQL.textin s = None ↔ SQL.has_nul s = true.
Proof.
  unfold SQL.textin. destruct (decide _) as [ok|no].
  - split; [discriminate|]. intros H. congruence.
  - split; [|reflexivity]. intros _. destruct (SQL.has_nul s); congruence.
Qed.

Lemma textin_clean s :
  SQL.has_nul s = false -> ∃ t, SQL.textin s = Some t ∧ SQL.text_val t = s.
Proof.
  intros H. destruct (SQL.textin s) as [t|] eqn:E.
  - exists t. split; [reflexivity | apply textin_Some, E].
  - apply textin_None in E. congruence.
Qed.

Lemma text_param_Some v t :
  SQL.text_param v = Some (Some t) ↔ SQL.prepareValue v = Some (SQL.text_val t).
Proof.
  unfold SQL.text_param. destruct (SQL.prepareValue v) as [s|].
  - split.
    + destruct (SQL.textin s) as [t'|] eqn:E; cbn; [|discriminate].
      intros [= <-]. f_equal. symmetry. apply textin_Some, E.
    + intros [= ->]. rewrite textin_val. reflexivity.
  - split; discriminate.
Qed.

Lemma text_param_None v : SQL.text_param v = None ↔ SQL.bindable v = false.
Proof.
  unfold SQL.text_param, SQL.bindable. destruct (SQL.prepareValue v) as [s|].
  - destruct (SQL.textin s) as [t|] eqn:E; cbn.
    + apply textin_Some in E. subst s. rewrite (SQL.text_ok t).
      split; discriminate.
    + apply textin_None in E. rewrite E. split; reflexivity.
  - split; discriminate.
Qed.

Lemma text_param_bindable v :
  SQL.bindable v = true -> ∃ p, SQL.text_param v = Some p.
Proof.
  intros H. destruct (SQL.text_param v) as [p|] eqn:E; [eauto|].
  apply text_param_None in E. congruence.
Qed.

Lemma text_param_Str s :
  SQL.has_nul s = false ->
  ∃ t, SQL.text_param (JS.Str s) = Some (Some t) ∧ SQL.text_val t = s.
Proof.
  intros H. destruct (textin_clean s H) as (t & E & Ht). exists t.
  split; [|exact Ht]. unfold SQL.text_param. cbn [SQL.prepareValue].
  rewrite E. reflexivity.
Qed.

Lemma varchar_param_bind n v p :
  SQL.varchar_param n v = Some p -> ∃ q, SQL.text_param v = Some q.
Proof.
  unfold SQL.varchar_param. destruct (SQL.text_param v) as [q|]; [eauto|].
  discriminate.
Qed.

Lemma varchar_short n t :
  (SQL.char_length (SQL.text_val t) ≤ n)%nat -> SQL.varchar n t = Some t.
Proof.
  intros H. unfold SQL.varchar. apply Nat.leb_le in H. rewrite H. reflexivity.
Qed.

Lemma text_eq_iff col p :
  SQL.text_eq col p = true ↔ ∃ t, p = Some t ∧ SQL.text_val t = col.
Proof.
  destruct p as [t|]; cbn.
  - rewrite String.eqb_eq. split.
    + intros ->. eauto.
    + intros (t' & [= <-] & H). congruence.
  - split; [discriminate|]. intros (t & H & _). discriminate H.
Qed.

(** ** Tokens are hexadecimal strings *)

Lemma hex_digit_hex n : hex_char (hex_digit n) = true.
Proof.
  destruct n as [|p]; [reflexivity|].
  do 5 (try destruct p as [p|p|]; try reflexivity).
Qed.

Lemma to_hex_all_hex buf : all_hex (to_hex buf) = true.
Proof.
  induction buf as [|b buf IH]; [reflexivity|].
  unfold all_hex in *. cbn [to_hex list_ascii_of_string forallb].
  rewrite !hex_digit_hex, IH. reflexivity.
Qed.

Lemma hex_not_white_space c : hex_char c = true -> JS.is_white_space c = false.
Proof.
  destruct c as [[] [] [] [] [] [] [] []]; vm_compute; congruence.
Qed.

Lemma hex_not_B c : hex_char c = true -> Ascii.eqb "B" c = false.
Proof.
  destruct c as [[] [] [] [] [] [] [] []]; vm_compute; congruence.
Qed.

Lemma forallb_rev_eq {A} (f : A -> bool) (l : list A) :
  forallb f (rev l) = forallb f l.
Proof.
  induction l as [|x l IH]; [reflexivity|].
  cbn [rev forallb]. rewrite forallb_app, IH. cbn [forallb].
  rewrite andb_true_r. apply andb_comm.
Qed.

Lemma trimStart_hex l :
  forallb hex_char l = true -> JS.trimStart_chars l = l.
Proof.
  destruct l as [|c l]; [reflexivity|]. cbn [forallb JS.trimStart_chars].
  intros [Hc _]%andb_prop. rewrite (hex_not_white_space _ Hc). reflexivity.
Qed.

Lemma trim_hex s : all_hex s = true -> JS.trim s = s.
Proof.
  unfold all_hex, JS.trim. intros H.
  rewrite (trimStart_hex _ H), trimStart_hex.
  - rewrite rev_involutive. apply string_of_list_ascii_of_string.
  - rewrite forallb_rev_eq. exact H.
Qed.

Lemma replace_bearer_hex s :
  all_hex s = true -> JS.replace "Bearer " "" s = s.
Proof.
  unfold all_hex. induction s as [|c s IH]; [reflexivity|].
  cbn [list_ascii_of_string forallb]. intros [Hc Hs]%andb_prop.
  cbn [JS.replace String.prefix].
  destruct (Ascii.ascii_dec "B" c) as [<-|Hne]; [discriminate Hc|].
  rewrite (IH Hs). reflexivity.
Qed.

(** Every token of a live set came out of [generarToken]. *)
Lemma live_tokens_hex tokens :
  live tokens -> forall t, t ∈ tokens -> all_hex t = true.
Proof.
  induction 1 as [|env rnd T req _ IH _|T req _ IH|tok T _ IH]; intros t Ht.
  - set_solver.
  - unfold post_admin_login in Ht.
    destruct (_ && _) in Ht; cbn in Ht; [|exact (IH t Ht)].
    apply elem_of_union in Ht. destruct Ht as [Ht|Ht]; [|exact (IH t Ht)].
    apply elem_of_singleton in Ht. subst t. apply to_hex_all_hex.
  - cbn in Ht. apply elem_of_difference in Ht. exact (IH t (proj1 Ht)).
  - unfold timeout_fires in Ht. apply elem_of_difference in Ht.
    exact (IH t (proj1 Ht)).
Qed.

(** ** The sample states *)

Lemma one_session_live : live one_session.
Proof. apply live_login; [apply live_start | reflexivity]. Qed.

Lemma the_token_in_session : the_token ∈ one_session.
Proof. apply (bool_decide_unpack _). vm_compute. exact I. Qed.

Example one_booking_row :
  reservas one_booking =
  [ Reserva.make 1 "Ana" "Paz" "1155550000" "padel" "Pádel 1" "2025-06-01"
                 "18:00" 8000 "confirmada" 10 ].
Proof. vm_compute. reflexivity. Qed.

Example two_bookings_ids : map Reserva.id (reservas two_bookings) = [1%Z; 2%Z].
Proof. vm_compute. reflexivity. Qed.

Example second_booking_conflicts :
  status (response (post_reservar ∅ true 11 one_booking full_booking)) = 409%Z.
Proof. vm_compute. reflexivity. Qed.

(** A number is booked under the text [toString()] makes of it. *)
Example number_horario_stored :
  let o := post_reservar ∅ true 10 (initDB 0 empty_db) number_horario_booking in
  status (response o) = 200%Z
  ∧ map Reserva.horario (reservas (state o)) = ["1e+21"].
Proof. vm_compute. split; reflexivity. Qed.

(** ** The admin gate *)

Lemma bearer_token_bare req t :
  headers req !! "authorization" = Some t -> all_hex t = true ->
  bearer_token req = t.
Proof.
  intros Hh Hx. unfold bearer_token. rewrite Hh.
  assert (JS.or_default (Some t) "" = t) as ->
    by (destruct t; reflexivity).
  rewrite (replace_bearer_hex _ Hx). apply trim_hex, Hx.
Qed.

Lemma gate_open (tokens : gset string) (next : Handler) (d : DB)
    (req : Request) :
  validarToken tokens req = true -> requireAdmin tokens next d req = next d req.
Proof. intros Hv. unfold requireAdmin. rewrite Hv. reflexivity. Qed.

(** C10.  A token of the live set, sent as the whole authorization header
    without the 'Bearer ' prefix, passes the gate: [validarToken] accepts
    it and [requireAdmin] hands the request to the guarded handler. *)
Theorem bare_token_passes_gate (tokens : gset string) (t : string)
    (req : Request) :
  live tokens -> t ∈ tokens -> headers req !! "authorization" = Some t ->
  validarToken tokens req = true
  ∧ ∀ (next : Handler) (d : DB), requireAdmin tokens next d req = next d req.
Proof.
  intros Hlive Ht Hh.
  assert (validarToken tokens req = true) as Hv.
  { unfold validarToken.
    rewrite (bearer_token_bare req t Hh (live_tokens_hex _ Hlive _ Ht)).
    apply bool_decide_eq_true_2, Ht. }
  split; [exact Hv|]. intros next d. apply gate_open, Hv.
Qed.

Lemma bare_token_passes_gate_witness :
  validarToken one_session (with_auth the_token ∅ ∅) = true
  ∧ ∀ (next : Handler) (d : DB),
      requireAdmin one_session next d (with_auth the_token ∅ ∅)
      = next d (with_auth the_token ∅ ∅).
Proof.
  apply (bare_token_passes_gate one_session the_token (with_auth the_token ∅ ∅)).
  - exact one_session_live.
  - exact the_token_in_session.
  - vm_compute. reflexivity.
Defined.

(** C5, as stated, fails: the prefix-stripped and trimmed header is not a
    live token, yet the cancellation runs and changes the store. *)
Lemma gate_prefix_counterexample :
  live one_session
  ∧ (bearer_token_by_prefix inner_bearer_request ∉ one_session)
  ∧ status (response (post_cancelar one_session 0 one_booking
                                    inner_bearer_request))
    = 200%Z
  ∧ (state (post_cancelar one_session 0 one_booking inner_bearer_request)
     ≠ one_booking).
Proof.
  split; [exact one_session_live|]. split; [|split].
  - apply (bool_decide_eq_false_1 _). vm_compute. reflexivity.
  - vm_compute. reflexivity.
  - vm_compute. discriminate.
Qed.

(** C5 (amended).  When the authorization header, after removing the
    leftmost occurrence of 'Bearer ' and trimming, is not a live token,
    every gated route (price update, cancellation, listing; any guarded
    handler) answers 401 and leaves the store as it was, with no effect. *)
Theorem gate_rejects_unknown_token (tokens : gset string) (now : Z)
    (place : nat) (d : DB) (req : Request) :
  bearer_token req ∉ tokens ->
  let unauthorized := answer 401 (json_error "No autorizado") d [] in
  post_admin_precios tokens now d req = unauthorized
  ∧ post_cancelar tokens place d req = unauthorized
  ∧ get_reservas tokens d req = unauthorized
  ∧ ∀ next : Handler, requireAdmin tokens next d req = unauthorized.
Proof.
  intros Hnot unauthorized.
  assert (∀ next : Handler, requireAdmin tokens next d req = unauthorized) as H.
  { intros next. unfold requireAdmin, validarToken.
    rewrite (bool_decide_eq_false_2 _ Hnot). reflexivity. }
  repeat split; try apply H.
Qed.

Lemma gate_rejects_unknown_token_witness :
  let unauthorized := answer 401 (json_error "No autorizado") one_booking [] in
  post_admin_precios one_session 20 one_booking unknown_token_request
  = unauthorized
  ∧ post_cancelar one_session 0 one_booking unknown_token_request
    = unauthorized
  ∧ get_reservas one_session one_booking unknown_token_request = unauthorized
  ∧ ∀ next : Handler,
      requireAdmin one_session next one_booking unknown_token_request
      = unauthorized.
Proof.
  apply (gate_rejects_unknown_token one_session 20 0 one_booking
                                    unknown_token_request).
  apply (bool_decide_eq_false_1 _). vm_compute. reflexivity.
Defined.

(** ** Price update *)

Lemma admin_request_valid b ps :
  validarToken one_session (admin_request b ps) = true.
Proof. vm_compute. reflexivity. Qed.

(** C6, as stated, fails, however "absent" is read.  With cancha present
    but empty and precio present, the update is rejected with 400, so 400
    is not confined to arguments that were not provided; with precio [null]
    (falsy) and a known cancha, the update is not rejected with 400, so 400
    does not cover every falsy argument either. *)
Lemma precios_empty_cancha_counterexample :
  let empty := admin_request {[ "cancha" := JS.Str ""; "precio" := JS.Num 100 ]} ∅ in
  let null := admin_request {[ "cancha" := JS.Str "Pádel 1"; "precio" := JS.Null ]} ∅ in
  (body empty !! "cancha" = Some (JS.Str "")
   ∧ body empty !! "precio" = Some (JS.Num 100)
   ∧ status (response (post_admin_precios one_session 20 one_booking empty))
     = 400%Z)
  ∧ (body null !! "cancha" = Some (JS.Str "Pádel 1")
     ∧ body null !! "precio" = Some JS.Null
     ∧ status (response (post_admin_precios one_session 20 one_booking null))
       = 500%Z).
Proof. vm_compute. repeat split; reflexivity. Qed.

(** C6 (amended).  The price update operation answers 400 exactly when
    cancha is falsy (absent, null, false, 0 or the empty string) or precio
    is absent ([undefined]); with a truthy cancha, precio 0 is not answered
    400.  The operation is what the route runs for every request the gate
    lets through. *)
Theorem precios_bad_request_iff (now : Z) (d : DB) (req : Request) :
  let cancha := JS.get "cancha" (body req) in
  let precio := JS.get "precio" (body req) in
  let code := status (response (admin_precios_handler now d req)) in
  (code = 400%Z ↔ JS.truthy cancha = false ∨ precio = JS.Undefined)
  ∧ (JS.truthy cancha = true -> precio = JS.Num 0 -> code ≠ 400%Z)
  ∧ ∀ tokens, validarToken tokens req = true ->
      post_admin_precios tokens now d req = admin_precios_handler now d req.
Proof.
  intros cancha precio code.
  assert (code = 400%Z ↔ JS.truthy cancha = false ∨ precio = JS.Undefined) as H.
  { subst code. unfold admin_precios_handler. fold cancha precio.
    unfold JS.not. generalize cancha precio. clear. intros cancha precio.
    destruct (JS.truthy cancha); cbn [negb orb].
    - destruct (JS.is_undefined precio) eqn:Eu.
      + cbn. split; [intros _; right|reflexivity].
        destruct precio; try discriminate Eu. reflexivity.
      + destruct (Pool.update_precio _ _ _ _); cbn;
          (split; [discriminate|]);
          (intros [Hf|Hu]; [discriminate Hf|]);
          rewrite Hu in Eu; discriminate Eu.
    - cbn. split; [auto | reflexivity]. }
  split; [exact H|]. split.
  - intros Hc Hp Hcode. apply H in Hcode as [Hf|Hu].
    + rewrite Hc in Hf. discriminate.
    + rewrite Hp in Hu. discriminate.
  - intros tokens Hv. apply gate_open, Hv.
Qed.

Lemma precios_bad_request_iff_witness :
  let cancha := JS.get "cancha" (body free_price_request) in
  let precio := JS.get "precio" (body free_price_request) in
  let code :=
    status (response (post_admin_precios one_session 20 one_booking
                                         free_price_request)) in
  (code = 400%Z ↔ JS.truthy cancha = false ∨ precio = JS.Undefined)
  ∧ code ≠ 400%Z.
Proof.
  destruct (precios_bad_request_iff 20 one_booking free_price_request)
    as (Hiff & Hzero & Hroute).
  cbv zeta. rewrite (Hroute one_session); [|vm_compute; reflexivity].
  split; [exact Hiff|]. apply Hzero; vm_compute; reflexivity.
Defined.

Example price_zero_is_stored :
  map Precio.precio
      (List.filter (fun r => String.eqb (Precio.cancha r) "Pádel 1")
         (precios (state (post_admin_precios one_session 20 one_booking
                                             free_price_request))))
  = [0%Z].
Proof. vm_compute. reflexivity. Qed.

Lemma no_precio_row_miss d cancha c :
  no_precio_row d cancha -> SQL.text_param cancha = Some c ->
  ∀ r, r ∈ precios d -> SQL.text_eq (Precio.cancha r) c = false.
Proof.
  intros Hno Hc r Hr. specialize (Hno r Hr).
  destruct (SQL.text_eq (Precio.cancha r) c) eqn:E; [|reflexivity].
  apply text_eq_iff in E. destruct E as (t & -> & Ht).
  apply text_param_Some in Hc. congruence.
Qed.

Lemma map_miss {A} (hit : A -> bool) (f : A -> A) (l : list A) :
  (∀ r, r ∈ l -> hit r = false) ->
  map (fun r => if hit r then f r else r) l = l.
Proof.
  induction l as [|x l IH]; intros H; [reflexivity|]. cbn [map].
  rewrite (H x) by apply list_elem_of_here.
  rewrite IH; [reflexivity|]. intros r Hr. apply H, list_elem_of_further, Hr.
Qed.

Lemma existsb_miss {A} (hit : A -> bool) (l : list A) :
  (∀ r, r ∈ l -> hit r = false) -> existsb hit l = false.
Proof.
  induction l as [|x l IH]; intros H; [reflexivity|]. cbn [existsb].
  rewrite (H x) by apply list_elem_of_here.
  apply IH. intros r Hr. apply H, list_elem_of_further, Hr.
Qed.

Lemma with_precios_same d : with_precios (precios d) (precios_id_seq d) d = d.
Proof. destruct d; reflexivity. Qed.

Lemma with_reservas_same d : with_reservas (reservas d) (reservas_id_seq d) d = d.
Proof. destruct d; reflexivity. Qed.

Lemma no_precio_row_absent d c :
  existsb (fun r => String.eqb (Precio.cancha r) c) (precios d) = false ->
  no_precio_row d (JS.Str c).
Proof.
  intros H r Hr [= E].
  assert (existsb (fun r => String.eqb (Precio.cancha r) c) (precios d) = true)
    as Habs; [|congruence].
  apply existsb_exists. exists r. split; [apply list_elem_of_In, Hr|].
  rewrite E. apply String.eqb_refl.
Qed.

(** No price row names a cancha with U+0000 in it. *)
Lemma no_precio_row_nul d s :
  SQL.has_nul s = true -> no_precio_row d (JS.Str s).
Proof.
  intros Hs r _ [= E]. unfold Precio.cancha in E.
  pose proof (SQL.text_ok (Precio.cancha_text r)) as Hok.
  rewrite <- E in Hok. congruence.
Qed.

(** C7, as stated, fails: an authorised update naming a cancha without a
    row is answered 400 when it carries no precio, 500 when its precio does
    not fit the INTEGER column, and 500 when the cancha contains the
    character U+0000, which the server refuses in a parameter. *)
Lemma unknown_cancha_counterexample :
  let no_price := admin_request {[ "cancha" := JS.Str "Cancha 9" ]} ∅ in
  let huge := admin_request {[ "cancha" := JS.Str "Cancha 9";
                               "precio" := JS.Num 3000000000 ]} ∅ in
  no_precio_row one_booking (JS.Str "Cancha 9")
  ∧ status (response (post_admin_precios one_session 20 one_booking no_price))
    = 400%Z
  ∧ status (response (post_admin_precios one_session 20 one_booking huge))
    = 500%Z
  ∧ no_precio_row one_booking (JS.Str nul_x)
  ∧ status (response (post_admin_precios one_session 20 one_booking
                                         nul_cancha_price_request))
    = 500%Z.
Proof.
  split; [|split; [|split; [|split]]]; try (vm_compute; reflexivity).
  - apply no_precio_row_absent. vm_compute. reflexivity.
  - apply no_precio_row_nul. reflexivity.
Qed.

(** C7 (amended).  An authorised price update with a truthy cancha that the
    server accepts as a text parameter (no U+0000 in it) and that has no row
    in the price table, and with a precio that is supplied (not
    [undefined]) and that the store reads as NULL or as a 32-bit integer, is
    answered 200 and leaves the price table, and the whole store, as it
    was. *)
Theorem unknown_cancha_noop (tokens : gset string) (now : Z) (d : DB)
    (req : Request) (p : option Z) :
  validarToken tokens req = true ->
  JS.truthy (JS.get "cancha" (body req)) = true ->
  SQL.bindable (JS.get "cancha" (body req)) = true ->
  JS.get "precio" (body req) ≠ JS.Undefined ->
  SQL.int4_param (JS.get "precio" (body req)) = Some p ->
  no_precio_row d (JS.get "cancha" (body req)) ->
  post_admin_precios tokens now d req = answer 200 json_ok d []
  ∧ precios (state (post_admin_precios tokens now d req)) = precios d.
Proof.
  intros Hv Hc Hbind Hp Hint Hno.
  assert (post_admin_precios tokens now d req = answer 200 json_ok d []) as ->;
    [|split; reflexivity].
  unfold post_admin_precios, requireAdmin. rewrite Hv. cbn [negb].
  unfold admin_precios_handler, JS.not. rewrite Hc. cbn [negb orb].
  assert (JS.is_undefined (JS.get "precio" (body req)) = false) as ->
    by (destruct (JS.get "precio" (body req)); [congruence|reflexivity..]).
  destruct (text_param_bindable _ Hbind) as [c Hcp].
  unfold Pool.update_precio. rewrite Hint, Hcp. cbn [mbind option_bind].
  pose proof (no_precio_row_miss _ _ _ Hno Hcp) as Hmiss.
  destruct p as [z|].
  - rewrite (map_miss _ _ _ Hmiss), with_precios_same. reflexivity.
  - rewrite (existsb_miss _ _ Hmiss). reflexivity.
Qed.

Lemma unknown_cancha_noop_witness :
  post_admin_precios one_session 20 one_booking unknown_cancha_request
  = answer 200 json_ok one_booking []
  ∧ precios (state (post_admin_precios one_session 20 one_booking
                                       unknown_cancha_request))
    = precios one_booking.
Proof.
  apply (unknown_cancha_noop one_session 20 one_booking unknown_cancha_request
                             (Some 9000%Z)).
  - vm_compute. reflexivity.
  - vm_compute. reflexivity.
  - vm_compute. reflexivity.
  - vm_compute. discriminate.
  - vm_compute. reflexivity.
  - apply no_precio_row_absent. vm_compute. reflexivity.
Defined.

(** ** Cancellation *)

Lemma filter_true {A} (f : A -> bool) (l : list A) :
  (∀ x, x ∈ l -> f x = true) -> List.filter f l = l.
Proof.
  induction l as [|x l IH]; intros H; [reflexivity|]. cbn [List.filter].
  rewrite (H x) by apply list_elem_of_here.
  rewrite IH; [reflexivity|]. intros y Hy. apply H, list_elem_of_further, Hy.
Qed.

Lemma filter_false {A} (f : A -> bool) (l : list A) :
  (∀ x, x ∈ l -> f x = false) -> List.filter f l = [].
Proof.
  induction l as [|x l IH]; intros H; [reflexivity|]. cbn [List.filter].
  rewrite (H x) by apply list_elem_of_here.
  apply IH. intros y Hy. apply H, list_elem_of_further, Hy.
Qed.

Lemma elem_of_filter_bool {A} (f : A -> bool) (l : list A) (x : A) :
  x ∈ List.filter f l ↔ x ∈ l ∧ f x = true.
Proof. rewrite !list_elem_of_In. apply filter_In. Qed.

Lemma has_id_iff n r : Pool.has_id n r = true ↔ Reserva.id r = n.
Proof. apply Z.eqb_eq. Qed.

Lemma has_id_set_estado n e r :
  Pool.has_id n (Reserva.set_estado e r) = Pool.has_id n r.
Proof. reflexivity. Qed.

Lemma same_but_estado_set e r : same_but_estado r (Reserva.set_estado e r).
Proof. repeat split. Qed.


(** The rows that are touched and those that are not, after the UPDATE. *)
Lemma cancelar_rows_updated place n rows :
  List.filter (Pool.has_id n) (Pool.cancelar_rows place n rows)
  = map (Reserva.set_estado "cancelada") (List.filter (Pool.has_id n) rows).
Proof.
  unfold Pool.cancelar_rows. rewrite !List.filter_app.
  rewrite (filter_false _ (take _ _)), (filter_false _ (drop _ _)).
  - rewrite app_nil_r. cbn [app]. apply filter_true.
    intros x Hx. apply list_elem_of_In, in_map_iff in Hx.
    destruct Hx as (r & <- & Hr). apply filter_In in Hr. apply Hr.
  - intros x Hx. apply subseteq_drop, elem_of_filter_bool in Hx.
    destruct Hx as [_ Hx]. apply negb_true_iff, Hx.
  - intros x Hx. apply subseteq_take, elem_of_filter_bool in Hx.
    destruct Hx as [_ Hx]. apply negb_true_iff, Hx.
Qed.

Lemma cancelar_rows_others place n rows :
  List.filter (fun r => negb (Pool.has_id n r)) (Pool.cancelar_rows place n rows)
  = List.filter (fun r => negb (Pool.has_id n r)) rows.
Proof.
  unfold Pool.cancelar_rows. rewrite !List.filter_app.
  rewrite (filter_true _ (take _ _)), (filter_true _ (drop _ _)).
  - rewrite (filter_false _ (map _ _)); [cbn [app]; apply take_drop|].
    intros x Hx. apply list_elem_of_In, in_map_iff in Hx.
    destruct Hx as (r & <- & Hr). apply filter_In in Hr.
    rewrite has_id_set_estado, (proj2 Hr). reflexivity.
  - intros x Hx. apply subseteq_drop, elem_of_filter_bool in Hx. apply Hx.
  - intros x Hx. apply subseteq_take, elem_of_filter_bool in Hx. apply Hx.
Qed.

Lemma partition_perm {A} (f : A -> bool) (g : A -> A) (l : list A) :
  map (fun x => if f x then g x else x) l
  ≡ₚ map g (List.filter f l) ++ List.filter (fun x => negb (f x)) l.
Proof.
  induction l as [|x l IH]; [reflexivity|]. cbn [map List.filter].
  destruct (f x); cbn [negb map app].
  - rewrite IH. reflexivity.
  - rewrite IH. apply Permutation_middle.
Qed.

Lemma cancelar_rows_perm place n rows :
  Pool.cancelar_rows place n rows ≡ₚ map (cancelled_row n) rows.
Proof.
  unfold Pool.cancelar_rows, cancelled_row.
  rewrite (partition_perm (Pool.has_id n) (Reserva.set_estado "cancelada")).
  rewrite <- (take_drop place (List.filter (fun r => negb (Pool.has_id n r)) rows))
    at 3.
  rewrite !(Permutation_app_comm (map _ _)), app_assoc. reflexivity.
Qed.

Lemma cancelar_rows_length place n rows :
  length (Pool.cancelar_rows place n rows) = length rows.
Proof. rewrite (cancelar_rows_perm place n rows). apply length_map. Qed.

Lemma elem_of_cancelar_rows place n rows r' :
  r' ∈ Pool.cancelar_rows place n rows
  ↔ (r' ∈ rows ∧ Pool.has_id n r' = false)
    ∨ ∃ r, r ∈ rows ∧ Pool.has_id n r = true
           ∧ r' = Reserva.set_estado "cancelada" r.
Proof.
  rewrite (cancelar_rows_perm place n rows). unfold cancelled_row.
  rewrite list_elem_of_In, in_map_iff. split.
  - intros (r & <- & Hr). apply list_elem_of_In in Hr.
    destruct (Pool.has_id n r) eqn:E; [right; eauto|left; auto].
  - intros [[Hr E]|(r & Hr & E & ->)].
    + exists r'. rewrite E. split; [reflexivity|apply list_elem_of_In, Hr].
    + exists r. rewrite E. split; [reflexivity|apply list_elem_of_In, Hr].
Qed.

Lemma cancelar_rows_miss place n rows :
  (∀ r, r ∈ rows -> Reserva.id r ≠ n) -> Pool.cancelar_rows place n rows = rows.
Proof.
  intros H. unfold Pool.cancelar_rows.
  rewrite (filter_false (Pool.has_id n)), filter_true.
  - cbn [map app]. apply take_drop.
  - intros x Hx. apply negb_true_iff, Z.eqb_neq, H, Hx.
  - intros x Hx. apply Z.eqb_neq, H, Hx.
Qed.

Lemma set_estado_twice e r :
  Reserva.set_estado e (Reserva.set_estado e r) = Reserva.set_estado e r.
Proof. reflexivity. Qed.

(** Cancelling again, with the new version put at the same place. *)
Lemma cancelar_rows_twice place n rows :
  Pool.cancelar_rows place n (Pool.cancelar_rows place n rows)
  = Pool.cancelar_rows place n rows.
Proof.
  unfold Pool.cancelar_rows at 1.
  rewrite cancelar_rows_updated, cancelar_rows_others, map_map.
  reflexivity.
Qed.

Lemma cancelar_rows_again place place' n rows :
  Pool.cancelar_rows place' n (Pool.cancelar_rows place n rows)
  ≡ₚ Pool.cancelar_rows place n rows.
Proof.
  rewrite <- (cancelar_rows_twice place n rows) at 2.
  rewrite !(cancelar_rows_perm _ n (Pool.cancelar_rows place n rows)).
  reflexivity.
Qed.

Lemma cancelar_handler_run place d req s n :
  params req !! "id" = Some s -> SQL.int4in s = Some n ->
  cancelar_handler place d req
  = answer 200 json_ok
      (with_reservas (Pool.cancelar_rows place n (reservas d))
                     (reservas_id_seq d) d) [].
Proof.
  intros Hid Hn. unfold cancelar_handler. rewrite Hid.
  unfold Pool.update_cancelar. rewrite Hn. reflexivity.
Qed.

(** C4, as stated, fails: the id of the route is bound as an INTEGER
    parameter, and a text that is no integer, or an integer beyond 32 bits,
    makes the UPDATE fail; the cancellation is answered 500. *)
Lemma cancelar_bad_id_counterexample :
  validarToken one_session (cancel_request "abc") = true
  ∧ post_cancelar one_session 0 one_booking (cancel_request "abc")
    = answer 500 (json_error "Error al cancelar") one_booking
             [console_error "err"]
  ∧ validarToken one_session (cancel_request "2147483648") = true
  ∧ status (response (post_cancelar one_session 0 one_booking
                                    (cancel_request "2147483648")))
    = 500%Z.
Proof. vm_compute. repeat split; reflexivity. Qed.

(** C4 (amended).  For a route parameter that the store reads as the
    32-bit integer [n], whatever rows the table holds and wherever the
    server puts the new version of a row, the admin cancellation answers
    200 [{ok: true}] and causes no effect; afterwards every row with id [n]
    has estado 'cancelada' and is, in every other column, a row that had id
    [n] before, and every row that had id [n] is there in that form; the
    other rows are the same, in the same order; counters and prices are as
    before; when no row has id [n] the store is unchanged; cancelling again
    gives the same answer and the same rows, counters and prices, and the
    very same store when the server places the row as before.  The
    operation is what the route runs for every request the gate lets
    through. *)
Theorem cancelar_any_id (place : nat) (d : DB) (req : Request) (s : string)
    (n : Z) :
  params req !! "id" = Some s ->
  SQL.int4in s = Some n ->
  let o := cancelar_handler place d req in
  response o = {| status := 200; json := json_ok |}
  ∧ effects o = []
  ∧ (∀ r', r' ∈ reservas (state o) -> Reserva.id r' = n ->
       Reserva.estado r' = "cancelada"
       ∧ ∃ r, r ∈ reservas d ∧ same_but_estado r r')
  ∧ (∀ r, r ∈ reservas d -> Reserva.id r = n ->
       ∃ r', r' ∈ reservas (state o) ∧ same_but_estado r r'
             ∧ Reserva.estado r' = "cancelada")
  ∧ List.filter (fun r => negb (Pool.has_id n r)) (reservas (state o))
    = List.filter (fun r => negb (Pool.has_id n r)) (reservas d)
  ∧ length (reservas (state o)) = length (reservas d)
  ∧ reservas_id_seq (state o) = reservas_id_seq d
  ∧ precios (state o) = precios d
  ∧ precios_id_seq (state o) = precios_id_seq d
  ∧ ((∀ r, r ∈ reservas d -> Reserva.id r ≠ n) -> state o = d)
  ∧ (∀ place',
       let o' := cancelar_handler place' (state o) req in
       response o' = response o
       ∧ effects o' = []
       ∧ reservas (state o') ≡ₚ reservas (state o)
       ∧ reservas_id_seq (state o') = reservas_id_seq (state o)
       ∧ precios (state o') = precios (state o)
       ∧ precios_id_seq (state o') = precios_id_seq (state o)
       ∧ (place' = place -> o' = o))
  ∧ ∀ tokens d0, validarToken tokens req = true ->
      post_cancelar tokens place d0 req = cancelar_handler place d0 req.
Proof.
  intros Hid Hn o. subst o.
  rewrite (cancelar_handler_run place d req s n Hid Hn).
  cbn [response state effects answer reservas reservas_id_seq precios
       precios_id_seq with_reservas].
  split; [reflexivity|]. split; [reflexivity|]. split.
  { intros r' Hr' Hn'. apply elem_of_cancelar_rows in Hr'.
    destruct Hr' as [[_ E]|(r & Hr & _ & ->)].
    - apply has_id_iff in Hn'. congruence.
    - split; [reflexivity|]. exists r. split; [exact Hr|].
      apply same_but_estado_set. }
  split.
  { intros r Hr Hrn. exists (Reserva.set_estado "cancelada" r).
    split; [|split; [apply same_but_estado_set|reflexivity]].
    apply elem_of_cancelar_rows. right. exists r.
    split; [exact Hr|]. split; [apply has_id_iff, Hrn|reflexivity]. }
  split; [apply cancelar_rows_others|].
  split; [apply cancelar_rows_length|].
  split; [reflexivity|]. split; [reflexivity|]. split; [reflexivity|].
  split.
  { intros Hnone. rewrite (cancelar_rows_miss _ _ _ Hnone).
    apply with_reservas_same. }
  split.
  { intros place'.
    rewrite (cancelar_handler_run place' _ req s n Hid Hn).
    cbn [response state effects answer reservas reservas_id_seq precios
         precios_id_seq with_reservas].
    split; [reflexivity|]. split; [reflexivity|].
    split; [apply cancelar_rows_again|].
    split; [reflexivity|]. split; [reflexivity|]. split; [reflexivity|].
    intros ->. unfold with_reservas. cbn. rewrite cancelar_rows_twice.
    reflexivity. }
  intros tokens d0 Hv. apply gate_open, Hv.
Qed.

Lemma cancelar_any_id_witness :
  let o := post_cancelar one_session 5 two_bookings (cancel_request "1") in
  response o = {| status := 200; json := json_ok |}
  ∧ (∀ r', r' ∈ reservas (state o) -> Reserva.id r' = 1%Z ->
       Reserva.estado r' = "cancelada"
       ∧ ∃ r, r ∈ reservas two_bookings ∧ same_but_estado r r')
  ∧ length (reservas (state o)) = length (reservas two_bookings)
  ∧ precios (state o) = precios two_bookings
  ∧ post_cancelar one_session 5 (state o) (cancel_request "1") = o.
Proof.
  destruct (cancelar_any_id 5 two_bookings (cancel_request "1") "1" 1)
    as (Hresp & _ & Hnew & _ & _ & Hlen & _ & Hprecios & _ & _ & Htwice
        & Hroute).
  - vm_compute. reflexivity.
  - vm_compute. reflexivity.
  - cbv zeta.
    rewrite !(Hroute one_session) by (vm_compute; reflexivity).
    split; [exact Hresp|]. split; [exact Hnew|]. split; [exact Hlen|].
    split; [exact Hprecios|]. apply (Htwice 5%nat). reflexivity.
Defined.

Example cancel_unknown_id :
  post_cancelar one_session 0 one_booking (cancel_request "77")
  = answer 200 json_ok one_booking [].
Proof. vm_compute. reflexivity. Qed.

(** The cancelled row is retrieved from where its new version was put. *)
Example cancelled_row_moves :
  let after place :=
    reservas (state (post_cancelar one_session place two_bookings
                                   (cancel_request "1"))) in
  map Reserva.id (after 1%nat) = [2%Z; 1%Z]
  ∧ map Reserva.estado (after 1%nat) = ["confirmada"; "cancelada"]
  ∧ map Reserva.id (after 0%nat) = [1%Z; 2%Z].
Proof. vm_compute. repeat split; reflexivity. Qed.

Example cancel_frees_the_slot :
  let d := state (post_cancelar one_session 0 one_booking (cancel_request "1")) in
  map Reserva.estado (reservas d) = ["cancelada"]
  ∧ status (response (post_reservar ∅ true 30 d full_booking)) = 200%Z.
Proof. vm_compute. split; reflexivity. Qed.

(** ** Availability *)

Lemma activa_iff r : Pool.activa r = true ↔ Reserva.estado r ≠ "cancelada".
Proof.
  unfold Pool.activa. rewrite negb_true_iff. apply String.eqb_neq.
Qed.

Lemma select_ocupados_spec d c f :
  SQL.has_nul c = false -> SQL.has_nul f = false ->
  ∃ rows, Pool.select_ocupados d (JS.Str c) (JS.Str f) = Some rows
          ∧ map Reserva.horario rows = ocupados_spec c f (reservas d).
Proof.
  intros Hc Hf.
  destruct (text_param_Str c Hc) as (tc & Ec & Htc).
  destruct (text_param_Str f Hf) as (tf & Ef & Htf).
  unfold Pool.select_ocupados. rewrite Ec, Ef. cbn [mbind option_bind].
  eexists. split; [reflexivity|]. cbn [SQL.text_eq]. rewrite Htc, Htf.
  induction (reservas d) as [|r rows IH]; [reflexivity|].
  cbn [List.filter ocupados_spec].
  destruct (String.eqb_spec (Reserva.cancha r) c) as [Hc'|Hc'];
    destruct (String.eqb_spec (Reserva.fecha r) f) as [Hf'|Hf'];
    destruct (Pool.activa r) eqn:Ha; cbn [andb];
    try apply activa_iff in Ha;
    case_decide as Hdec; cbn [map]; rewrite ?IH; try reflexivity;
    try (exfalso; tauto).
  exfalso. destruct Hdec as (_ & _ & He). apply activa_iff in He. congruence.
Qed.

Lemma select_ocupados_None d cancha fecha :
  Pool.select_ocupados d cancha fecha = None
  ↔ SQL.bindable cancha = false ∨ SQL.bindable fecha = false.
Proof.
  unfold Pool.select_ocupados. rewrite <- !text_param_None.
  destruct (SQL.text_param cancha) as [c|]; cbn.
  - destruct (SQL.text_param fecha) as [f|]; cbn.
    + split; [discriminate|]. intros [H|H]; discriminate H.
    + split; [auto|reflexivity].
  - split; [auto|reflexivity].
Qed.

Lemma get_disponibilidad_strings (d : DB) (req : Request) (c f : string) :
  query req !! "cancha" = Some (JS.Str c) ->
  query req !! "fecha" = Some (JS.Str f) ->
  c ≠ "" -> f ≠ "" ->
  SQL.has_nul c = false -> SQL.has_nul f = false ->
  get_disponibilidad d req
  = answer 200 (json_ocupados (ocupados_spec c f (reservas d))) d [].
Proof.
  intros Hc Hf Hc0 Hf0 Hcn Hfn. unfold get_disponibilidad.
  rewrite (get_Some _ _ _ Hc), (get_Some _ _ _ Hf).
  destruct (select_ocupados_spec d c f Hcn Hfn) as (rows & -> & <-).
  destruct c; [congruence|]. destruct f; [congruence|]. reflexivity.
Qed.

(** A parameter that the server refuses makes the query fail: the handler
    logs the error and answers 500. *)
Lemma get_disponibilidad_refused (d : DB) (req : Request) :
  JS.truthy (JS.get "cancha" (query req)) = true ->
  JS.truthy (JS.get "fecha" (query req)) = true ->
  SQL.bindable (JS.get "cancha" (query req)) = false
  ∨ SQL.bindable (JS.get "fecha" (query req)) = false ->
  get_disponibilidad d req
  = answer 500 (json_error "Error al consultar disponibilidad") d
           [console_error "err"].
Proof.
  intros Hc Hf Hnul. unfold get_disponibilidad, JS.not. rewrite Hc, Hf.
  cbn [negb orb]. rewrite (proj2 (select_ocupados_None d _ _) Hnul).
  reflexivity.
Qed.

(** C3, as stated, fails: a cancha that contains the character U+0000 is
    not empty, yet the server refuses it as a parameter, the query fails
    and the answer is 500, not a list. *)
Lemma disponibilidad_nul_counterexample :
  let q := availability_query nul_x "2025-06-01" in
  query q !! "cancha" = Some (JS.Str nul_x)
  ∧ query q !! "fecha" = Some (JS.Str "2025-06-01")
  ∧ nul_x ≠ ""
  ∧ get_disponibilidad one_booking q
    = answer 500 (json_error "Error al consultar disponibilidad") one_booking
             [console_error "err"].
Proof.
  split; [vm_compute; reflexivity|]. split; [vm_compute; reflexivity|].
  split; [discriminate|].
  apply get_disponibilidad_refused; [reflexivity..|]. left. reflexivity.
Qed.

(** C3 (amended).  For a non-empty cancha and fecha without the character
    U+0000, GET /disponibilidad answers 200 with exactly the horarios of
    the stored reservations that have this cancha and fecha and are not
    'cancelada', in retrieval order and one entry per row (no
    deduplication); the store is left as it was and nothing else
    happens. *)
Theorem disponibilidad_lists_active_rows (d : DB) (req : Request)
    (c f : string) :
  query req !! "cancha" = Some (JS.Str c) ->
  query req !! "fecha" = Some (JS.Str f) ->
  c ≠ "" -> f ≠ "" ->
  SQL.has_nul c = false -> SQL.has_nul f = false ->
  get_disponibilidad d req
  = answer 200 (json_ocupados (ocupados_spec c f (reservas d))) d [].
Proof.
  intros Hc Hf Hc0 Hf0 Hcn Hfn. apply get_disponibilidad_strings; assumption.
Qed.

Lemma disponibilidad_lists_active_rows_witness :
  get_disponibilidad one_booking (availability_query "Pádel 1" "2025-06-01")
  = answer 200
      (json_ocupados (ocupados_spec "Pádel 1" "2025-06-01" (reservas one_booking)))
      one_booking [].
Proof.
  apply (disponibilidad_lists_active_rows
           one_booking (availability_query "Pádel 1" "2025-06-01")
           "Pádel 1" "2025-06-01").
  - vm_compute. reflexivity.
  - vm_compute. reflexivity.
  - discriminate.
  - discriminate.
  - vm_compute. reflexivity.
  - vm_compute. reflexivity.
Defined.

Example availability_after_booking :
  json (response (get_disponibilidad one_booking
                    (availability_query "Pádel 1" "2025-06-01")))
  = json_ocupados ["18:00"].
Proof. vm_compute. reflexivity. Qed.

Example availability_keeps_duplicates :
  let r := Reserva.make 1 "Ana" "Paz" "1" "padel" "Pádel 1" "2025-06-01" "18:00"
                        8000 "confirmada" 10 in
  let x := Reserva.set_estado "cancelada" r in
  json (response (get_disponibilidad (with_reservas [r; x; r] 3 empty_db)
                    (availability_query "Pádel 1" "2025-06-01")))
  = json_ocupados ["18:00"; "18:00"].
Proof. vm_compute. reflexivity. Qed.

(** ** Booking *)

(** [col = $n] holds exactly when the text sent is the text of the
    column. *)
Lemma text_eq_param v p (col : SQL.text) :
  SQL.text_param v = Some p ->
  SQL.text_eq (SQL.text_val col) p = true
  ↔ SQL.prepareValue v = Some (SQL.text_val col).
Proof.
  intros Hp. rewrite text_eq_iff. split.
  - intros (t & -> & Ht). apply text_param_Some in Hp. congruence.
  - intros Hv. apply text_param_Some in Hv. exists col.
    split; [congruence|reflexivity].
Qed.

Lemma check_hit_iff r b c f h :
  SQL.text_param (JS.get "cancha" b) = Some c ->
  SQL.text_param (JS.get "fecha" b) = Some f ->
  SQL.text_param (JS.get "horario" b) = Some h ->
  SQL.text_eq (Reserva.cancha r) c && SQL.text_eq (Reserva.fecha r) f
  && SQL.text_eq (Reserva.horario r) h && Pool.activa r = true
  ↔ holds_slot r b.
Proof.
  intros Hc Hf Hh. unfold holds_slot, Reserva.cancha, Reserva.fecha,
    Reserva.horario.
  rewrite !andb_true_iff, (text_eq_param _ _ _ Hc), (text_eq_param _ _ _ Hf),
    (text_eq_param _ _ _ Hh), activa_iff.
  tauto.
Qed.

Lemma holds_slot_bound r b :
  holds_slot r b ->
  SQL.text_param (JS.get "cancha" b) = Some (Some (Reserva.cancha_text r))
  ∧ SQL.text_param (JS.get "fecha" b) = Some (Some (Reserva.fecha_text r))
  ∧ SQL.text_param (JS.get "horario" b) = Some (Some (Reserva.horario_text r)).
Proof.
  intros (Hc & Hf & Hh & _). rewrite !text_param_Some. auto.
Qed.

(** The three ways the occupancy SELECT ends. *)
Lemma check_body_cases d b :
  (check_body d b = None ∧ slot_free d b
   ∧ (SQL.text_param (JS.get "cancha" b) = None
      ∨ SQL.text_param (JS.get "fecha" b) = None
      ∨ SQL.text_param (JS.get "horario" b) = None))
  ∨ (∃ l, check_body d b = Some l ∧ (0 <? length l)%nat = true
          ∧ slot_taken d b)
  ∨ (check_body d b = Some [] ∧ slot_free d b).
Proof.
  unfold check_body, Pool.select_check.
  destruct (SQL.text_param (JS.get "cancha" b)) as [c|] eqn:Ec;
    [|left; split; [reflexivity|]; split; [|auto];
      intros r _ Hh; apply holds_slot_bound in Hh; destruct Hh as (H & _);
      congruence].
  destruct (SQL.text_param (JS.get "fecha" b)) as [f|] eqn:Ef;
    [|left; split; [reflexivity|]; split; [|auto];
      intros r _ Hh; apply holds_slot_bound in Hh; destruct Hh as (_ & H & _);
      congruence].
  destruct (SQL.text_param (JS.get "horario" b)) as [h|] eqn:Eh;
    [|left; split; [reflexivity|]; split; [|auto];
      intros r _ Hh; apply holds_slot_bound in Hh; destruct Hh as (_ & _ & H);
      congruence].
  right. cbn [mbind option_bind].
  destruct (List.filter _ (reservas d)) as [|x l] eqn:E.
  - right. split; [reflexivity|]. intros r Hr Hh.
    assert (In r []) as Hin; [|destruct Hin].
    rewrite <- E. apply filter_In. split; [apply list_elem_of_In, Hr|].
    apply (check_hit_iff r b c f h Ec Ef Eh), Hh.
  - left. eexists. split; [reflexivity|]. split; [reflexivity|]. exists x.
    assert (In x (x :: l)) as Hin by (left; reflexivity).
    rewrite <- E in Hin. apply filter_In in Hin. destruct Hin as [Hin Hhit].
    split; [apply list_elem_of_In, Hin|].
    apply (check_hit_iff x b c f h Ec Ef Eh), Hhit.
Qed.

Lemma taken_not_free d b : slot_taken d b -> slot_free d b -> False.
Proof. intros (r & Hr & Hh) Hfree. exact (Hfree r Hr Hh). Qed.

Lemma check_body_taken d b :
  slot_taken d b ->
  ∃ l, check_body d b = Some l ∧ (0 <? length l)%nat = true.
Proof.
  intros Ht.
  destruct (check_body_cases d b) as [(_ & Hf & _)|[(l & E & Hl & _)|[_ Hf]]].
  - destruct (taken_not_free _ _ Ht Hf).
  - eauto.
  - destruct (taken_not_free _ _ Ht Hf).
Qed.

Lemma validated_check b :
  validated b = true ->
  JS.not (JS.get "nombre" b) || JS.not (JS.get "apellido" b)
  || JS.not (JS.get "whatsapp" b) || JS.not (JS.get "cancha" b)
  || JS.not (JS.get "fecha" b) || JS.not (JS.get "horario" b) = false.
Proof.
  unfold validated, required_fields, JS.not. cbn [forallb].
  rewrite !andb_true_iff. intros (-> & -> & -> & -> & -> & -> & _).
  reflexivity.
Qed.

Lemma post_reservar_400 env fr now d req :
  validated (body req) = false ->
  post_reservar env fr now d req = answer 400 (json_error "Faltan datos") d [].
Proof.
  intros H. unfold post_reservar.
  assert (JS.not (JS.get "nombre" (body req))
          || JS.not (JS.get "apellido" (body req))
          || JS.not (JS.get "whatsapp" (body req))
          || JS.not (JS.get "cancha" (body req))
          || JS.not (JS.get "fecha" (body req))
          || JS.not (JS.get "horario" (body req)) = true) as ->;
    [|reflexivity].
  revert H. unfold validated, required_fields, JS.not. cbn [forallb].
  repeat (destruct (JS.truthy _); cbn; try reflexivity). discriminate.
Qed.

(** The handler past validation, in terms of its two statements. *)
Lemma post_reservar_validated env fr now d req :
  validated (body req) = true ->
  post_reservar env fr now d req
  = match check_body d (body req) with
    | None =>
        answer 500 (json_error "Error al guardar la reserva") d
               [console_error "err"]
    | Some check =>
        if (0 <? length check)%nat
        then answer 409 (json_error "Ese horario ya está ocupado") d []
        else
          match insert_body now d (body req) with
          | (d', Some reservaId) =>
              answer 200 (json_ok_id reservaId) d'
                     (notify env fr reservaId (body req))
          | (d', None) =>
              answer 500 (json_error "Error al guardar la reserva") d'
                     [console_error "err"]
          end
    end.
Proof.
  intros Hv. unfold post_reservar. rewrite (validated_check _ Hv).
  reflexivity.
Qed.

Lemma varchar_param_refused n v :
  SQL.text_param v = None -> SQL.varchar_param n v = None.
Proof. intros H. unfold SQL.varchar_param. rewrite H. reflexivity. Qed.

(** A text that the SELECT cannot bind, the INSERT cannot bind either. *)
Lemma insert_body_refused now d b :
  SQL.text_param (JS.get "cancha" b) = None
  ∨ SQL.text_param (JS.get "fecha" b) = None
  ∨ SQL.text_param (JS.get "horario" b) = None ->
  insert_body now d b = (d, None).
Proof.
  intros H. unfold insert_body, Pool.insert_reserva.
  assert (Pool.bind_insert (JS.get "nombre" b) (JS.get "apellido" b)
            (JS.get "whatsapp" b) (JS.get "deporte" b) (JS.get "cancha" b)
            (JS.get "fecha" b) (JS.get "horario" b) (JS.get "precio" b) = None)
    as ->; [|reflexivity].
  unfold Pool.bind_insert.
  destruct (SQL.varchar_param 100 (JS.get "nombre" b)); [|reflexivity].
  destruct (SQL.varchar_param 100 (JS.get "apellido" b)); [|reflexivity].
  destruct (SQL.varchar_param 30 (JS.get "whatsapp" b)); [|reflexivity].
  destruct (SQL.varchar_param 50 (JS.get "deporte" b)); [|reflexivity].
  cbn [mbind option_bind].
  destruct H as [H|[H|H]].
  - rewrite (varchar_param_refused _ _ H). reflexivity.
  - rewrite (varchar_param_refused _ _ H).
    destruct (SQL.varchar_param 100 (JS.get "cancha" b)); reflexivity.
  - rewrite (varchar_param_refused _ _ H).
    destruct (SQL.varchar_param 100 (JS.get "cancha" b)); [|reflexivity].
    destruct (SQL.varchar_param 100 (JS.get "fecha" b)); reflexivity.
Qed.

(** Past validation and the occupancy check, the answer is decided by the
    INSERT alone: a request whose occupancy check fails is one whose INSERT
    would fail as well, with the same answer. *)
Lemma post_reservar_insert env fr now d req :
  validated (body req) = true -> slot_free d (body req) ->
  post_reservar env fr now d req
  = match insert_body now d (body req) with
    | (d', Some reservaId) =>
        answer 200 (json_ok_id reservaId) d'
               (notify env fr reservaId (body req))
    | (d', None) =>
        answer 500 (json_error "Error al guardar la reserva") d'
               [console_error "err"]
    end.
Proof.
  intros Hv Hfree. rewrite (post_reservar_validated _ _ _ _ _ Hv).
  destruct (check_body_cases d (body req))
    as [(-> & _ & Hnul)|[(l & _ & _ & Ht)|[-> _]]].
  - rewrite (insert_body_refused now d _ Hnul). reflexivity.
  - destruct (taken_not_free _ _ Ht Hfree).
  - reflexivity.
Qed.

Lemma one_booking_holds (b : gmap string JS.value) :
  JS.get "cancha" b = JS.Str "Pádel 1" ->
  JS.get "fecha" b = JS.Str "2025-06-01" ->
  JS.get "horario" b = JS.Str "18:00" ->
  slot_taken one_booking b.
Proof.
  intros Hc Hf Hh. unfold slot_taken. rewrite one_booking_row.
  eexists. split; [apply list_elem_of_here|].
  unfold holds_slot. rewrite Hc, Hf, Hh. cbn. repeat split. discriminate.
Qed.

(** C1, as stated, fails: the slot is held by a confirmed reservation, and
    a request for it that lacks nombre is answered 400, not 409. *)
Lemma taken_slot_counterexample :
  slot_taken one_booking (body no_nombre_booking)
  ∧ status (response (post_reservar ∅ true 11 one_booking no_nombre_booking))
    = 400%Z.
Proof.
  split; [|vm_compute; reflexivity].
  apply one_booking_holds; vm_compute; reflexivity.
Qed.

(** C1 (amended).  A reservation request that passes validation (its six
    required fields are truthy) and whose slot is held by a stored
    reservation with estado other than 'cancelada' is answered 409, and the
    store is exactly as before: no row is inserted, no effect happens. *)
Theorem taken_slot_conflict (env : gmap string string) (fetch_resolves : bool)
    (now : Z) (d : DB) (req : Request) :
  validated (body req) = true ->
  slot_taken d (body req) ->
  post_reservar env fetch_resolves now d req
  = answer 409 (json_error "Ese horario ya está ocupado") d [].
Proof.
  intros Hv Htaken. rewrite (post_reservar_validated _ _ _ _ _ Hv).
  destruct (check_body_taken _ _ Htaken) as (l & -> & ->). reflexivity.
Qed.

Lemma taken_slot_conflict_witness :
  post_reservar ∅ true 11 one_booking full_booking
  = answer 409 (json_error "Ese horario ya está ocupado") one_booking [].
Proof.
  apply (taken_slot_conflict ∅ true 11 one_booking full_booking).
  - vm_compute. reflexivity.
  - apply one_booking_holds; vm_compute; reflexivity.
Defined.



Lemma ocupados_spec_app c f l1 l2 :
  ocupados_spec c f (l1 ++ l2) = ocupados_spec c f l1 ++ ocupados_spec c f l2.
Proof.
  induction l1 as [|r l1 IH]; [reflexivity|]. cbn [app ocupados_spec].
  case_decide; rewrite IH; reflexivity.
Qed.

Lemma empty_table_free (d : DB) (b : gmap string JS.value) :
  reservas d = [] -> slot_free d b.
Proof. intros E r Hr. rewrite E in Hr. inversion Hr. Qed.




(** ** The webhook *)

Lemma notify_at_most_once env fr rid b :
  (length (List.filter is_fetch (notify env fr rid b)) ≤ 1)%nat.
Proof.
  unfold notify. destruct (env !! "N8N_WEBHOOK_URL") as [url|]; [|cbn; lia].
  destruct (JS.is_empty url); [cbn; lia|]. destruct fr; cbn; lia.
Qed.

Lemma new_row_inv id now cols row :
  Pool.new_row id now cols = Some row ->
  Reserva.id row = id
  ∧ Reserva.estado row = "confirmada"
  ∧ Reserva.fecha_creacion row = now
  ∧ Pool.c_nombre cols = Some (Reserva.nombre_text row)
  ∧ Pool.c_apellido cols = Some (Reserva.apellido_text row)
  ∧ Pool.c_whatsapp cols = Some (Reserva.whatsapp_text row)
  ∧ Pool.c_deporte cols = Some (Reserva.deporte_text row)
  ∧ Pool.c_cancha cols = Some (Reserva.cancha_text row)
  ∧ Pool.c_fecha cols = Some (Reserva.fecha_text row)
  ∧ Pool.c_horario cols = Some (Reserva.horario_text row)
  ∧ Pool.c_precio cols = Some (Reserva.precio row).
Proof.
  unfold Pool.new_row. destruct cols as [n a w dp c f h p]. cbn.
  destruct n, a, w, dp, c, f, h, p; cbn; try discriminate.
  intros [= <-]. cbn. repeat split; reflexivity.
Qed.

Lemma insert_reserva_row now d v1 v2 v3 v4 v5 v6 v7 v8 d' rid :
  Pool.insert_reserva now d v1 v2 v3 v4 v5 v6 v7 v8 = (d', Some rid) ->
  ∃ row, Reserva.id row = rid ∧ Reserva.estado row = "confirmada"
         ∧ reservas d' = reservas d ++ [row] ∧ precios d' = precios d.
Proof.
  unfold Pool.insert_reserva.
  destruct (Pool.bind_insert _ _ _ _ _ _ _ _) as [cols|]; [|discriminate].
  destruct (Pool.new_row _ now cols) as [row|] eqn:Erow; [|discriminate].
  intros [= <- <-]. exists row. cbn.
  destruct (new_row_inv _ _ _ _ Erow) as (Hid & He & _).
  split; [exact Hid|]. split; [exact He|]. split; reflexivity.
Qed.

(** C8.  When a request passes validation and the occupancy check and its
    INSERT returns an id, the answer is 200 with that id and the store is
    the one the INSERT left, with the new row at the end, whether the
    webhook call resolves or rejects: a rejected call only adds a logged
    line.  With a webhook URL configured there is exactly one call, without
    one there is none. *)
Theorem webhook_failure_ignored (env : gmap string string)
    (fetch_resolves : bool) (now : Z) (d : DB) (req : Request)
    (d' : DB) (reservaId : Z) :
  validated (body req) = true ->
  slot_free d (body req) ->
  insert_body now d (body req) = (d', Some reservaId) ->
  let o := post_reservar env fetch_resolves now d req in
  response o = {| status := 200; json := json_ok_id reservaId |}
  ∧ state o = d'
  ∧ (∃ row, Reserva.id row = reservaId ∧ reservas d' = reservas d ++ [row])
  ∧ response (post_reservar env false now d req) = response o
  ∧ state (post_reservar env false now d req) = state o
  ∧ (length (List.filter is_fetch (effects o)) ≤ 1)%nat
  ∧ (∀ url, env !! "N8N_WEBHOOK_URL" = Some url -> url ≠ "" ->
       effects o
       = fetch_post url (webhook_payload reservaId (body req))
         :: (if fetch_resolves then [] else [console_error "Webhook error:"]))
  ∧ (JS.or_default (env !! "N8N_WEBHOOK_URL") "" = "" -> effects o = []).
Proof.
  intros Hv Hfree Hins o. subst o.
  rewrite !(post_reservar_insert _ _ _ _ _ Hv Hfree), Hins.
  cbn [response state effects answer].
  split; [reflexivity|]. split; [reflexivity|]. split.
  { unfold insert_body in Hins.
    destruct (insert_reserva_row _ _ _ _ _ _ _ _ _ _ _ _ Hins)
      as (row & Hid & _ & Hrows & _).
    exists row. split; assumption. }
  split; [reflexivity|]. split; [reflexivity|].
  split; [apply notify_at_most_once|]. split.
  - intros url Hurl Hne. unfold notify. rewrite Hurl.
    destruct url; [congruence|]. reflexivity.
  - unfold notify, JS.or_default.
    destruct (env !! "N8N_WEBHOOK_URL") as [url|]; [|reflexivity].
    destruct url; [reflexivity|]. cbn. discriminate.
Qed.

Lemma webhook_failure_ignored_witness :
  let d := initDB 0 empty_db in
  let d' := state (post_reservar ∅ true 10 d full_booking) in
  let o := post_reservar webhook_env false 10 d full_booking in
  response o = {| status := 200; json := json_ok_id 1 |}
  ∧ state o = d'
  ∧ (∃ row, Reserva.id row = 1%Z ∧ reservas d' = reservas d ++ [row])
  ∧ (length (List.filter is_fetch (effects o)) ≤ 1)%nat
  ∧ effects o
    = [ fetch_post "https://n8n.example/webhook/reserva"
                   (webhook_payload 1 (body full_booking));
        console_error "Webhook error:" ].
Proof.
  destruct (webhook_failure_ignored webhook_env false 10 (initDB 0 empty_db)
              full_booking
              (state (post_reservar ∅ true 10 (initDB 0 empty_db) full_booking))
              1)
    as (Hresp & Hstate & Hrow & _ & _ & Honce & Hurl & _).
  - vm_compute. reflexivity.
  - apply empty_table_free. reflexivity.
  - vm_compute. reflexivity.
  - split; [exact Hresp|]. split; [exact Hstate|]. split; [exact Hrow|].
    split; [exact Honce|].
    apply (Hurl "https://n8n.example/webhook/reserva");
      [vm_compute; reflexivity | discriminate].
Defined.

Example webhook_failure_effects :
  effects (post_reservar webhook_env false 10 (initDB 0 empty_db) full_booking)
  = [ fetch_post "https://n8n.example/webhook/reserva"
                 (webhook_payload 1 (body full_booking));
      console_error "Webhook error:" ].
Proof. vm_compute. reflexivity. Qed.

(** ** A missing deporte *)

Lemma bind_insert_deporte v1 v2 v3 v5 v6 v7 v8 cols :
  Pool.bind_insert v1 v2 v3 JS.Undefined v5 v6 v7 v8 = Some cols ->
  Pool.c_deporte cols = None.
Proof.
  unfold Pool.bind_insert.
  destruct (SQL.varchar_param 100 v1); [|discriminate].
  destruct (SQL.varchar_param 100 v2); [|discriminate].
  destruct (SQL.varchar_param 30 v3); [|discriminate].
  cbn.
  destruct (SQL.varchar_param 100 v5); [|discriminate].
  destruct (SQL.varchar_param 100 v6); [|discriminate].
  destruct (SQL.varchar_param 10 v7); [|discriminate].
  destruct (SQL.int4_param v8); [|discriminate].
  cbn. intros [= <-]. reflexivity.
Qed.

Lemma new_row_needs_deporte id now cols :
  Pool.c_deporte cols = None -> Pool.new_row id now cols = None.
Proof.
  intros H. unfold Pool.new_row. rewrite H.
  destruct (Pool.c_nombre cols); [|reflexivity].
  destruct (Pool.c_apellido cols); [|reflexivity].
  destruct (Pool.c_whatsapp cols); reflexivity.
Qed.

(** C9, as stated, fails: with the six validated fields non-empty and no
    deporte, a request for a slot that is already held never reaches the
    INSERT and is answered 409, not 500. *)
Lemma missing_deporte_counterexample :
  validated (body no_deporte_booking) = true
  ∧ body no_deporte_booking !! "deporte" = None
  ∧ slot_taken one_booking (body no_deporte_booking)
  ∧ status (response (post_reservar ∅ true 11 one_booking no_deporte_booking))
    = 409%Z.
Proof.
  split; [vm_compute; reflexivity|]. split; [vm_compute; reflexivity|].
  split; [|vm_compute; reflexivity].
  apply one_booking_holds; vm_compute; reflexivity.
Qed.

(** C9 (amended).  A request whose six validated fields are truthy and
    which has no deporte is not answered 400; when its slot is free, so
    that the INSERT runs, the INSERT fails (whenever its parameters convert,
    the row has NULL in the NOT NULL column deporte), the answer is 500 and
    the table holds the rows it held before. *)
Theorem missing_deporte_internal_error (env : gmap string string)
    (fetch_resolves : bool) (now : Z) (d : DB) (req : Request) :
  validated (body req) = true ->
  body req !! "deporte" = None ->
  let b := body req in
  let o := post_reservar env fetch_resolves now d req in
  status (response o) ≠ 400%Z
  ∧ (slot_free d b ->
     response o
     = {| status := 500; json := json_error "Error al guardar la reserva" |}
     ∧ reservas (state o) = reservas d
     ∧ snd (insert_body now d b) = None
     ∧ ∀ cols,
         Pool.bind_insert (JS.get "nombre" b) (JS.get "apellido" b)
           (JS.get "whatsapp" b) (JS.get "deporte" b) (JS.get "cancha" b)
           (JS.get "fecha" b) (JS.get "horario" b) (JS.get "precio" b)
         = Some cols ->
         Pool.c_deporte cols = None
         ∧ Pool.new_row (reservas_id_seq d + 1) now cols = None).
Proof.
  intros Hv Hdep b o. subst b o. split.
  - rewrite (post_reservar_validated _ _ _ _ _ Hv).
    destruct (check_body d (body req)) as [l|]; [|cbn; discriminate].
    destruct (0 <? _)%nat; [cbn; discriminate|].
    destruct (insert_body _ _ _) as [d' [rid|]]; cbn; discriminate.
  - intros Hfree. rewrite (post_reservar_insert _ _ _ _ _ Hv Hfree).
    unfold insert_body, Pool.insert_reserva.
    rewrite (get_None _ _ Hdep).
    destruct (Pool.bind_insert _ _ _ _ _ _ _ _) as [cols|] eqn:Ebind.
    + pose proof (bind_insert_deporte _ _ _ _ _ _ _ _ Ebind) as Hnull.
      rewrite (new_row_needs_deporte _ now cols Hnull). cbn.
      split; [reflexivity|]. split; [reflexivity|]. split; [reflexivity|].
      intros cols' [= <-].
      split; [exact Hnull | apply new_row_needs_deporte, Hnull].
    + cbn. split; [reflexivity|]. split; [reflexivity|]. split; [reflexivity|].
      intros cols' [=].
Qed.

Lemma missing_deporte_internal_error_witness :
  let b := body no_deporte_booking in
  let d := initDB 0 empty_db in
  let o := post_reservar ∅ true 10 d no_deporte_booking in
  status (response o) ≠ 400%Z
  ∧ response o
    = {| status := 500; json := json_error "Error al guardar la reserva" |}
  ∧ reservas (state o) = reservas d
  ∧ snd (insert_body 10 d b) = None.
Proof.
  destruct (missing_deporte_internal_error ∅ true 10 (initDB 0 empty_db)
                                           no_deporte_booking)
    as [Hnot400 Hinsert].
  - vm_compute. reflexivity.
  - vm_compute. reflexivity.
  - split; [exact Hnot400|].
    destruct Hinsert as (Hresp & Hrows & Hfail & _).
    + apply empty_table_free. reflexivity.
    + split; [exact Hresp|]. split; [exact Hrows | exact Hfail].
Defined.

(** ** The ids of the table come from its counter *)

Lemma ids_in_sequence_start : ids_in_sequence empty_db.
Proof. split; [reflexivity|]. intros r Hr. inversion Hr. Qed.

Lemma insert_precio_reservas now d cancha :
  reservas (Pool.insert_precio now d cancha) = reservas d
  ∧ reservas_id_seq (Pool.insert_precio now d cancha) = reservas_id_seq d.
Proof. unfold Pool.insert_precio. destruct (existsb _ _); split; reflexivity. Qed.

Lemma seed_reservas now cs d :
  reservas (foldl (Pool.insert_precio now) d cs) = reservas d
  ∧ reservas_id_seq (foldl (Pool.insert_precio now) d cs) = reservas_id_seq d.
Proof.
  revert d. induction cs as [|c0 cs IH]; intros d; [split; reflexivity|].
  cbn [foldl]. destruct (IH (Pool.insert_precio now d c0)) as [-> ->].
  apply insert_precio_reservas.
Qed.

Lemma initDB_reservas now d : reservas (initDB now d) = reservas d.
Proof. unfold initDB. apply seed_reservas. Qed.

Lemma initDB_ids now d : ids_in_sequence d -> ids_in_sequence (initDB now d).
Proof.
  unfold ids_in_sequence, initDB.
  destruct (seed_reservas now (omap SQL.textin canchas) d) as [-> ->]. auto.
Qed.

Lemma insert_reserva_ids now d v1 v2 v3 v4 v5 v6 v7 v8 :
  ids_in_sequence d ->
  ids_in_sequence (fst (Pool.insert_reserva now d v1 v2 v3 v4 v5 v6 v7 v8)).
Proof.
  intros [Hseq Hids]. unfold Pool.insert_reserva.
  destruct (Pool.bind_insert _ _ _ _ _ _ _ _) as [cols|]; [|split; assumption].
  destruct (Pool.new_row _ now cols) as [row|] eqn:Erow;
    unfold ids_in_sequence; cbn [fst reservas reservas_id_seq with_reservas].
  - destruct (new_row_inv _ _ _ _ Erow) as (Hid & _).
    split; [lia|]. intros r Hr. apply elem_of_app in Hr. destruct Hr as [Hr|Hr].
    + specialize (Hids r Hr). lia.
    + apply list_elem_of_singleton in Hr. subst r. lia.
  - split; [lia|]. intros r Hr. specialize (Hids r Hr). lia.
Qed.

Lemma post_reservar_ids env fr now d req :
  ids_in_sequence d -> ids_in_sequence (state (post_reservar env fr now d req)).
Proof.
  intros Hd. unfold post_reservar.
  destruct (_ || _); [exact Hd|].
  destruct (Pool.select_check _ _ _ _); [|exact Hd].
  destruct (0 <? _)%nat; [exact Hd|].
  pose proof (insert_reserva_ids now d
                (JS.get "nombre" (body req)) (JS.get "apellido" (body req))
                (JS.get "whatsapp" (body req)) (JS.get "deporte" (body req))
                (JS.get "cancha" (body req)) (JS.get "fecha" (body req))
                (JS.get "horario" (body req)) (JS.get "precio" (body req)) Hd)
    as Hins.
  destruct (Pool.insert_reserva _ _ _ _ _ _ _ _ _ _) as [d' [rid|]]; exact Hins.
Qed.

Lemma cancelled_row_id n r : Reserva.id (cancelled_row n r) = Reserva.id r.
Proof. unfold cancelled_row. destruct (Pool.has_id n r); reflexivity. Qed.

(** The rows after a cancellation request, whatever its outcome: those of
    before, or those the UPDATE of one id leaves. *)
Lemma post_cancelar_rows tokens place d req :
  reservas (state (post_cancelar tokens place d req)) = reservas d
  ∨ ∃ n, reservas (state (post_cancelar tokens place d req))
         = Pool.cancelar_rows place n (reservas d).
Proof.
  unfold post_cancelar, requireAdmin.
  destruct (negb _); [left; reflexivity|].
  unfold cancelar_handler, Pool.update_cancelar.
  destruct (params req !! "id") as [s|]; [|left; reflexivity].
  destruct (SQL.int4in s) as [n|]; [|left; reflexivity].
  right. exists n. reflexivity.
Qed.

Lemma post_cancelar_seq tokens place d req :
  reservas_id_seq (state (post_cancelar tokens place d req)) = reservas_id_seq d.
Proof.
  unfold post_cancelar, requireAdmin.
  destruct (negb _); [reflexivity|].
  unfold cancelar_handler, Pool.update_cancelar.
  destruct (params req !! "id") as [s|]; [|reflexivity].
  destruct (SQL.int4in s) as [n|]; reflexivity.
Qed.

Lemma cancelar_rows_ids place n rows :
  map Reserva.id (Pool.cancelar_rows place n rows) ≡ₚ map Reserva.id rows.
Proof.
  rewrite (cancelar_rows_perm place n rows), map_map.
  erewrite map_ext; [reflexivity|]. intros r. apply cancelled_row_id.
Qed.

Lemma post_cancelar_ids tokens place d req :
  ids_in_sequence d ->
  ids_in_sequence (state (post_cancelar tokens place d req)).
Proof.
  intros [Hseq Hids]. unfold ids_in_sequence. rewrite post_cancelar_seq.
  split; [exact Hseq|]. intros r Hr.
  destruct (post_cancelar_rows tokens place d req) as [E|[n E]];
    rewrite E in Hr; [apply Hids, Hr|].
  apply elem_of_cancelar_rows in Hr.
  destruct Hr as [[Hr _]|(r0 & Hr0 & _ & ->)]; [apply Hids, Hr|].
  apply (Hids r0 Hr0).
Qed.

Lemma post_admin_precios_reservas tokens now d req :
  reservas (state (post_admin_precios tokens now d req)) = reservas d
  ∧ reservas_id_seq (state (post_admin_precios tokens now d req))
    = reservas_id_seq d.
Proof.
  unfold post_admin_precios, requireAdmin.
  destruct (negb _); [split; reflexivity|].
  unfold admin_precios_handler.
  destruct (_ || _); [split; reflexivity|]. unfold Pool.update_precio.
  destruct (SQL.int4_param _) as [[n|]|]; cbn; try (split; reflexivity);
    destruct (SQL.text_param _) as [c|]; cbn; try (split; reflexivity).
  destruct (existsb _ _); split; reflexivity.
Qed.

Lemma post_admin_precios_ids tokens now d req :
  ids_in_sequence d ->
  ids_in_sequence (state (post_admin_precios tokens now d req)).
Proof.
  unfold ids_in_sequence.
  destruct (post_admin_precios_reservas tokens now d req) as [-> ->]. auto.
Qed.

(** The id an INSERT hands out is carried by no stored row. *)
Lemma next_id_fresh d :
  ids_in_sequence d ->
  ∀ r, r ∈ reservas d -> Reserva.id r ≠ (reservas_id_seq d + 1)%Z.
Proof. intros [_ Hids] r Hr. specialize (Hids r Hr). lia. Qed.
(** * Beyond the claims *)

(** ** Sessions: login, logout, expiry *)

Lemma bearer_token_prefixed req t :
  headers req !! "authorization" = Some ("Bearer " +:+ t) ->
  all_hex t = true ->
  bearer_token req = t.
Proof.
  intros Hh Hx. unfold bearer_token. rewrite Hh.
  change ("Bearer " +:+ t)
    with (String "B" (String "e" (String "a" (String "r"
            (String "e" (String "r" (String " " t))))))).
  cbn [JS.or_default JS.is_empty]. simpl JS.replace.
  change ("" +:+ t) with t.
  assert (String.prefix "" t = true) as -> by (destruct t; reflexivity).
  apply trim_hex, Hx.
Qed.

Lemma not_elem_of_delete (x : string) (T : gset string) : x ∉ T ∖ {[ x ]}.
Proof.
  intros H. apply elem_of_difference in H. destruct H as [_ H].
  apply H, elem_of_singleton. reflexivity.
Qed.

Lemma elem_of_delete_ne (x y : string) (T : gset string) :
  y ≠ x -> (y ∈ T ∖ {[ x ]} ↔ y ∈ T).
Proof.
  intros Hne. rewrite elem_of_difference, elem_of_singleton. tauto.
Qed.

Lemma delete_absent (x : string) (T : gset string) : x ∉ T -> T ∖ {[ x ]} = T.
Proof.
  intros Hx. apply set_eq. intros y.
  rewrite elem_of_difference, elem_of_singleton.
  split; [tauto|]. intros Hy. split; [exact Hy|]. intros ->. exact (Hx Hy).
Qed.

Lemma delete_added (x : string) (T : gset string) :
  ({[ x ]} ∪ T) ∖ {[ x ]} = T ∖ {[ x ]}.
Proof.
  apply set_eq. intros y.
  rewrite !elem_of_difference, elem_of_union, elem_of_singleton. tauto.
Qed.

Lemma login_ok env rnd tokens req :
  JS.get "email" (body req) = JS.Str (adminEmail env) ->
  JS.get "password" (body req) = JS.Str (adminPass env) ->
  post_admin_login env rnd tokens req
  = answer 200 (json_ok_token (generarToken rnd))
           ({[ generarToken rnd ]} ∪ tokens)
           [setTimeout_delete (generarToken rnd) 28800000].
Proof.
  intros He Hp. unfold post_admin_login. fold (adminEmail env) (adminPass env).
  rewrite He, Hp. cbn [JS.eq_string]. rewrite !String.eqb_refl. reflexivity.
Qed.

(** X1.  A login with the configured email and password answers 200 with a
    fresh token, schedules its removal after eight hours, and from then on
    a request carrying "Bearer <token>" passes the gate of every guarded
    handler. *)
Theorem login_grants_access (env : gmap string string)
    (randomBytes : list Byte.byte) (tokens : gset string) (req : Request) :
  JS.get "email" (body req) = JS.Str (adminEmail env) ->
  JS.get "password" (body req) = JS.Str (adminPass env) ->
  let o := post_admin_login env randomBytes tokens req in
  let token := generarToken randomBytes in
  response o = {| status := 200; json := json_ok_token token |}
  ∧ effects o = [setTimeout_delete token (8 * 60 * 60 * 1000)]
  ∧ (∀ t, t ∈ tokens -> t ∈ state o)
  ∧ ∀ req', headers req' !! "authorization" = Some ("Bearer " +:+ token) ->
      validarToken (state o) req' = true
      ∧ ∀ (next : Handler) (d : DB),
          requireAdmin (state o) next d req' = next d req'.
Proof.
  intros He Hp o token. subst o. rewrite (login_ok _ _ _ _ He Hp).
  cbn [response state effects answer].
  split; [reflexivity|]. split; [reflexivity|].
  split; [intros t Ht; apply elem_of_union; right; exact Ht|].
  intros req' Hh.
  assert (validarToken ({[ token ]} ∪ tokens) req' = true) as Hv.
  { unfold validarToken.
    rewrite (bearer_token_prefixed req' token Hh (to_hex_all_hex _)).
    apply bool_decide_eq_true_2, elem_of_union. left.
    apply elem_of_singleton. reflexivity. }
  split; [exact Hv|]. intros next d. apply gate_open, Hv.
Qed.

Lemma login_grants_access_witness :
  let o := post_admin_login ∅ session_bytes ∅ login_request in
  response o = {| status := 200; json := json_ok_token the_token |}
  ∧ validarToken (state o) (bearer_request the_token) = true.
Proof.
  destruct (login_grants_access ∅ session_bytes ∅ login_request)
    as (Hresp & _ & _ & Hgate).
  - vm_compute. reflexivity.
  - vm_compute. reflexivity.
  - split; [exact Hresp|].
    apply (Hgate (bearer_request the_token)). vm_compute. reflexivity.
Defined.

(** X2.  The login answers 200 exactly when email and password are the two
    configured strings; in every other case it answers 401 and leaves the
    token set as it was, with no timer set. *)
Theorem login_needs_both_credentials (env : gmap string string)
    (randomBytes : list Byte.byte) (tokens : gset string) (req : Request) :
  let o := post_admin_login env randomBytes tokens req in
  (status (response o) = 200%Z
   ↔ JS.get "email" (body req) = JS.Str (adminEmail env)
     ∧ JS.get "password" (body req) = JS.Str (adminPass env))
  ∧ (status (response o) ≠ 200%Z ->
     o = answer 401 (json_error "Credenciales incorrectas") tokens []).
Proof.
  intros o. subst o. unfold post_admin_login.
  fold (adminEmail env) (adminPass env).
  destruct (JS.eq_string (JS.get "email" (body req)) (adminEmail env)) eqn:Ee;
    destruct (JS.eq_string (JS.get "password" (body req)) (adminPass env)) eqn:Ep;
    cbn [andb answer response status].
  - split; [|intros H; exfalso; apply H; reflexivity].
    split; [intros _|reflexivity].
    unfold JS.eq_string in Ee, Ep.
    destruct (JS.get "email" (body req)); try discriminate Ee.
    destruct (JS.get "password" (body req)); try discriminate Ep.
    apply String.eqb_eq in Ee, Ep. subst. split; reflexivity.
  - split; [|reflexivity]. split; [discriminate|].
    intros [_ Hp]. rewrite Hp in Ep. cbn in Ep.
    rewrite String.eqb_refl in Ep. discriminate Ep.
  - split; [|reflexivity]. split; [discriminate|].
    intros [He _]. rewrite He in Ee. cbn in Ee.
    rewrite String.eqb_refl in Ee. discriminate Ee.
  - split; [|reflexivity]. split; [discriminate|].
    intros [He _]. rewrite He in Ee. cbn in Ee.
    rewrite String.eqb_refl in Ee. discriminate Ee.
Qed.

Example wrong_password_rejected :
  post_admin_login ∅ session_bytes one_session wrong_login_request
  = answer 401 (json_error "Credenciales incorrectas") one_session [].
Proof. vm_compute. reflexivity. Qed.

(** X3.  A logout always answers 200; afterwards the header it carried is
    refused by every guarded handler, every other token is accepted or
    refused as before, a second logout changes nothing, and a logout with
    a token that is not live leaves the set as it was. *)
Theorem logout_revokes (tokens : gset string) (req : Request) :
  let o := post_admin_logout tokens req in
  response o = {| status := 200; json := json_ok |}
  ∧ validarToken (state o) req = false
  ∧ (∀ (next : Handler) (d : DB),
       requireAdmin (state o) next d req
       = answer 401 (json_error "No autorizado") d [])
  ∧ (∀ req', bearer_token req' ≠ bearer_token req ->
       validarToken (state o) req' = validarToken tokens req')
  ∧ state (post_admin_logout (state o) req) = state o
  ∧ (validarToken tokens req = false -> state o = tokens).
Proof.
  intros o. subst o. cbn [post_admin_logout answer response state].
  assert (validarToken (tokens ∖ {[ bearer_token req ]}) req = false) as Hv.
  { unfold validarToken. apply bool_decide_eq_false_2, not_elem_of_delete. }
  split; [reflexivity|]. split; [exact Hv|]. split.
  { intros next d. unfold requireAdmin. rewrite Hv. reflexivity. }
  split.
  { intros req' Hne. unfold validarToken. apply bool_decide_ext.
    apply elem_of_delete_ne, Hne. }
  split; [apply delete_absent, not_elem_of_delete|].
  intros Hnot. unfold validarToken in Hnot.
  apply bool_decide_eq_false_1 in Hnot. apply delete_absent, Hnot.
Qed.

(** X4.  When the timer set by a successful login fires, the token of that
    login is refused by the gate; when that token was not live before the
    login, the token set is again what it was before the login. *)
Theorem session_expires (env : gmap string string)
    (randomBytes : list Byte.byte) (tokens : gset string) (req : Request) :
  JS.get "email" (body req) = JS.Str (adminEmail env) ->
  JS.get "password" (body req) = JS.Str (adminPass env) ->
  let o := post_admin_login env randomBytes tokens req in
  let token := generarToken randomBytes in
  let later := timeout_fires token (state o) in
  (∀ req', headers req' !! "authorization" = Some ("Bearer " +:+ token) ->
     validarToken later req' = false)
  ∧ (∀ t, t ≠ token -> (t ∈ later ↔ t ∈ tokens))
  ∧ (token ∉ tokens -> later = tokens).
Proof.
  intros He Hp o token later. subst later o.
  rewrite (login_ok _ _ _ _ He Hp). cbn [state answer]. unfold timeout_fires.
  rewrite delete_added. split; [|split].
  - intros req' Hh. unfold validarToken.
    rewrite (bearer_token_prefixed req' token Hh (to_hex_all_hex _)).
    apply bool_decide_eq_false_2, not_elem_of_delete.
  - intros t Hne. apply elem_of_delete_ne, Hne.
  - intros Hfresh. apply delete_absent, Hfresh.
Qed.

Lemma session_expires_witness :
  let later := timeout_fires the_token one_session in
  validarToken later (bearer_request the_token) = false ∧ later = ∅.
Proof.
  destruct (session_expires ∅ session_bytes ∅ login_request)
    as (Hgate & _ & Hsame).
  - vm_compute. reflexivity.
  - vm_compute. reflexivity.
  - split.
    + apply (Hgate (bearer_request the_token)). vm_compute. reflexivity.
    + apply Hsame. apply not_elem_of_empty.
Defined.

(** ** The price list *)

Lemma insert_by_id_elem r x l : x ∈ insert_by_id r l ↔ x = r ∨ x ∈ l.
Proof.
  induction l as [|y l IH]; cbn [insert_by_id].
  - rewrite list_elem_of_singleton. split; [auto|]. intros [H|H]; [exact H|].
    inversion H.
  - destruct (_ <=? _)%Z.
    + apply elem_of_cons.
    + rewrite !elem_of_cons, IH. tauto.
Qed.

Lemma select_precios_elem d x : x ∈ select_precios d ↔ x ∈ precios d.
Proof.
  unfold select_precios. induction (precios d) as [|y l IH]; [reflexivity|].
  cbn [foldr]. rewrite insert_by_id_elem, elem_of_cons, IH. tauto.
Qed.

Lemma insert_by_id_map (f : Precio.t -> Precio.t) r l :
  (∀ x, Precio.id (f x) = Precio.id x) ->
  insert_by_id (f r) (map f l) = map f (insert_by_id r l).
Proof.
  intros Hid. induction l as [|y l IH]; [reflexivity|].
  cbn [map insert_by_id]. rewrite !Hid.
  destruct (_ <=? _)%Z; [reflexivity|]. cbn [map]. rewrite IH. reflexivity.
Qed.

Lemma sort_by_id_map (f : Precio.t -> Precio.t) l :
  (∀ x, Precio.id (f x) = Precio.id x) ->
  foldr insert_by_id [] (map f l) = map f (foldr insert_by_id [] l).
Proof.
  intros Hid. induction l as [|y l IH]; [reflexivity|].
  cbn [map foldr]. rewrite IH. apply insert_by_id_map, Hid.
Qed.

(** Reading a key of the object built by [forEach]. *)
Lemma build_lookup (k : string) (l : list Precio.t) (o : gmap string Z) :
  k ≠ "__proto__" ->
  foldl (fun o r => set_number o (Precio.cancha r) (Precio.precio r)) o l !! k
  = foldl (fun acc r => if String.eqb (Precio.cancha r) k
                        then Some (Precio.precio r) else acc)
          (o !! k) l.
Proof.
  intros Hk. revert o. induction l as [|r l IH]; intros o; [reflexivity|].
  cbn [foldl]. rewrite IH. f_equal. unfold set_number.
  destruct (String.eqb_spec (Precio.cancha r) "__proto__") as [E|E].
  - destruct (String.eqb_spec (Precio.cancha r) k); [congruence|reflexivity].
  - destruct (String.eqb_spec (Precio.cancha r) k) as [<-|Hne].
    + apply lookup_insert_eq.
    + apply lookup_insert_ne, Hne.
Qed.

Lemma build_lookup_proto (l : list Precio.t) (o : gmap string Z) :
  foldl (fun o r => set_number o (Precio.cancha r) (Precio.precio r)) o l
    !! "__proto__"
  = o !! "__proto__".
Proof.
  revert o. induction l as [|r l IH]; intros o; [reflexivity|].
  cbn [foldl]. rewrite IH. unfold set_number.
  destruct (String.eqb_spec (Precio.cancha r) "__proto__") as [E|E];
    [reflexivity|]. apply lookup_insert_ne, E.
Qed.

Lemma get_precios_proto d : precios_json (get_precios d) !! "__proto__" = None.
Proof.
  unfold get_precios. cbn [precios_json]. rewrite build_lookup_proto.
  apply lookup_empty.
Qed.

Lemma get_precios_lookup d k :
  k ≠ "__proto__" ->
  precios_json (get_precios d) !! k = last_price k (select_precios d).
Proof.
  intros Hk. unfold get_precios, last_price. cbn [precios_json].
  rewrite (build_lookup k _ ∅ Hk). reflexivity.
Qed.

Lemma build_lookup_Some (k : string) (p : Z) (l : list Precio.t)
    (o : gmap string Z) :
  foldl (fun o r => set_number o (Precio.cancha r) (Precio.precio r)) o l !! k
  = Some p ->
  o !! k = Some p ∨ ∃ r, r ∈ l ∧ Precio.cancha r = k ∧ Precio.precio r = p.
Proof.
  revert o. induction l as [|r l IH]; intros o H; [left; exact H|].
  cbn [foldl] in H. apply IH in H. destruct H as [H|(r' & Hr' & Hfacts)].
  - unfold set_number in H. destruct (String.eqb (Precio.cancha r) "__proto__").
    + left. exact H.
    + destruct (decide (Precio.cancha r = k)) as [E|E].
      * subst k. rewrite lookup_insert_eq in H. injection H as <-.
        right. exists r. split; [apply list_elem_of_here|]. split; reflexivity.
      * rewrite lookup_insert_ne in H by exact E. left. exact H.
  - right. exists r'. split; [apply list_elem_of_further, Hr'|exact Hfacts].
Qed.

Lemma last_price_keeps k l (v : option Z) :
  is_Some v ->
  is_Some (foldl (fun acc r => if String.eqb (Precio.cancha r) k
                               then Some (Precio.precio r) else acc)
                 v l).
Proof.
  revert v. induction l as [|r l IH]; intros v Hv; [exact Hv|].
  cbn [foldl]. apply IH. destruct (String.eqb _ _); [eauto|exact Hv].
Qed.

Lemma last_price_some_row k l acc :
  (∃ r, r ∈ l ∧ Precio.cancha r = k) ->
  is_Some (foldl (fun acc r => if String.eqb (Precio.cancha r) k
                               then Some (Precio.precio r) else acc)
                 acc l).
Proof.
  revert acc. induction l as [|r l IH]; intros acc (r0 & Hr0 & Hk).
  - inversion Hr0.
  - cbn [foldl]. destruct (String.eqb_spec (Precio.cancha r) k) as [E|E].
    + apply last_price_keeps. eauto.
    + apply IH. exists r0. split; [|exact Hk].
      apply elem_of_cons in Hr0. destruct Hr0 as [Heq|Hin]; [|exact Hin].
      exfalso. apply E. rewrite <- Heq. exact Hk.
Qed.

Lemma NoDup_map_elem {A B} (f : A -> B) (l : list A) (x y : A) :
  NoDup (map f l) -> x ∈ l -> y ∈ l -> f x = f y -> x = y.
Proof.
  induction l as [|a l IH]; intros Hnd Hx Hy Hf; [inversion Hx|].
  cbn [map] in Hnd. apply NoDup_cons in Hnd. destruct Hnd as [Hnot Hnd].
  assert (∀ z, z ∈ l -> f z ≠ f a) as Hother.
  { intros z Hz E. apply Hnot. rewrite <- E.
    apply list_elem_of_In, in_map, list_elem_of_In, Hz. }
  apply elem_of_cons in Hx. apply elem_of_cons in Hy.
  destruct Hx as [->|Hx]; destruct Hy as [->|Hy].
  - reflexivity.
  - exfalso. apply (Hother y Hy). congruence.
  - exfalso. apply (Hother x Hx). congruence.
  - apply IH; assumption.
Qed.

(** X5.  GET /precios answers 200 with an object in which every entry is
    the cancha and precio of a row of the table; when no two rows name the
    same cancha, every row whose cancha is not "__proto__" has its entry,
    with its own precio. *)
Theorem get_precios_lists_table (d : DB) :
  precios_status (get_precios d) = 200%Z
  ∧ (∀ k p, precios_json (get_precios d) !! k = Some p ->
       ∃ r, r ∈ precios d ∧ Precio.cancha r = k ∧ Precio.precio r = p)
  ∧ (canchas_unique d ->
     ∀ r, r ∈ precios d -> Precio.cancha r ≠ "__proto__" ->
          precios_json (get_precios d) !! Precio.cancha r
          = Some (Precio.precio r)).
Proof.
  split; [reflexivity|].
  assert (∀ k p, precios_json (get_precios d) !! k = Some p ->
            ∃ r, r ∈ precios d ∧ Precio.cancha r = k ∧ Precio.precio r = p)
    as Hsound.
  { intros k p H. unfold get_precios in H. cbn [precios_json] in H.
    apply build_lookup_Some in H. destruct H as [H|(r & Hr & Hfacts)].
    - rewrite lookup_empty in H. discriminate H.
    - exists r. split; [apply select_precios_elem, Hr|exact Hfacts]. }
  split; [exact Hsound|].
  intros Huniq r Hr Hproto.
  destruct (last_price_some_row (Precio.cancha r) (select_precios d) None)
    as [p Hp].
  { exists r. split; [apply select_precios_elem, Hr|reflexivity]. }
  fold (last_price (Precio.cancha r) (select_precios d)) in Hp.
  rewrite <- (get_precios_lookup d _ Hproto) in Hp. rewrite Hp.
  destruct (Hsound _ _ Hp) as (r' & Hr' & Hc & Hprice).
  rewrite (NoDup_map_elem Precio.cancha (precios d) r' r Huniq Hr' Hr Hc)
    in Hprice.
  congruence.
Qed.


Lemma post_admin_precios_ok tokens now d req c n :
  validarToken tokens req = true ->
  JS.get "cancha" (body req) = JS.Str c -> c ≠ "" ->
  SQL.has_nul c = false ->
  SQL.int4_param (JS.get "precio" (body req)) = Some (Some n) ->
  post_admin_precios tokens now d req
  = answer 200 json_ok
      (with_precios
         (map (fun r => if String.eqb (Precio.cancha r) c
                        then Precio.set_precio n now r else r)
              (precios d))
         (precios_id_seq d) d)
      [].
Proof.
  intros Hv Hc Hne Hnul Hint. unfold post_admin_precios.
  rewrite (gate_open _ _ _ _ Hv). unfold admin_precios_handler.
  rewrite Hc. unfold JS.not. cbn [JS.truthy].
  destruct c; [congruence|]. cbn [JS.is_empty negb orb].
  assert (JS.is_undefined (JS.get "precio" (body req)) = false) as ->.
  { destruct (JS.get "precio" (body req)); try reflexivity. discriminate Hint. }
  destruct (text_param_Str _ Hnul) as (t & Et & Ht).
  unfold Pool.update_precio. rewrite Hint, Et. cbn [mbind option_bind SQL.text_eq].
  rewrite Ht. reflexivity.
Qed.

Lemma set_precio_cancha n now r :
  Precio.cancha (Precio.set_precio n now r) = Precio.cancha r.
Proof. reflexivity. Qed.

Lemma set_precio_precio n now r :
  Precio.precio (Precio.set_precio n now r) = n.
Proof. reflexivity. Qed.

Lemma last_price_updated c n now l acc :
  foldl (fun acc r => if String.eqb (Precio.cancha r) c
                      then Some (Precio.precio r) else acc)
        acc
        (map (fun r => if String.eqb (Precio.cancha r) c
                       then Precio.set_precio n now r else r) l)
  = if existsb (fun r => String.eqb (Precio.cancha r) c) l
    then Some n else acc.
Proof.
  revert acc. induction l as [|r l IH]; intros acc; [reflexivity|].
  cbn [map foldl existsb]. rewrite IH.
  destruct (String.eqb (Precio.cancha r) c) eqn:E.
  - rewrite set_precio_cancha, set_precio_precio, E. cbn [orb].
    destruct (existsb _ l); reflexivity.
  - rewrite E. reflexivity.
Qed.

Lemma last_price_other c c' n now l acc :
  c' ≠ c ->
  foldl (fun acc r => if String.eqb (Precio.cancha r) c'
                      then Some (Precio.precio r) else acc)
        acc
        (map (fun r => if String.eqb (Precio.cancha r) c
                       then Precio.set_precio n now r else r) l)
  = foldl (fun acc r => if String.eqb (Precio.cancha r) c'
                        then Some (Precio.precio r) else acc)
          acc l.
Proof.
  intros Hne. revert acc. induction l as [|r l IH]; intros acc; [reflexivity|].
  cbn [map foldl]. rewrite IH. f_equal.
  destruct (String.eqb_spec (Precio.cancha r) c) as [E|E]; [|reflexivity].
  rewrite set_precio_cancha.
  destruct (String.eqb_spec (Precio.cancha r) c'); [congruence|reflexivity].
Qed.

(** X6.  After an authorised price update that names an existing cancha
    and carries a precio the INTEGER column takes, GET /precios shows the
    new precio for that cancha and the same entry as before for every other
    cancha; the reservations are not touched. *)
Theorem price_update_shows_in_list (tokens : gset string) (now : Z) (d : DB)
    (req : Request) (c : string) (n : Z) :
  validarToken tokens req = true ->
  JS.get "cancha" (body req) = JS.Str c ->
  c ≠ "" -> c ≠ "__proto__" ->
  SQL.int4_param (JS.get "precio" (body req)) = Some (Some n) ->
  (∃ r, r ∈ precios d ∧ Precio.cancha r = c) ->
  let o := post_admin_precios tokens now d req in
  response o = {| status := 200; json := json_ok |}
  ∧ precios_json (get_precios (state o)) !! c = Some n
  ∧ (∀ c', c' ≠ c ->
       precios_json (get_precios (state o)) !! c'
       = precios_json (get_precios d) !! c')
  ∧ reservas (state o) = reservas d.
Proof.
  intros Hv Hc Hne Hproto Hint (r & Hr & Hrc) o. subst o.
  assert (SQL.has_nul c = false) as Hnul
    by (rewrite <- Hrc; apply SQL.text_ok).
  rewrite (post_admin_precios_ok _ _ _ _ _ _ Hv Hc Hne Hnul Hint).
  cbn [response state answer].
  split; [reflexivity|].
  assert (select_precios
            (with_precios
               (map (fun r => if String.eqb (Precio.cancha r) c
                              then Precio.set_precio n now r else r)
                    (precios d))
               (precios_id_seq d) d)
          = map (fun r => if String.eqb (Precio.cancha r) c
                          then Precio.set_precio n now r else r)
                (select_precios d)) as Hsorted.
  { unfold select_precios. cbn [precios with_precios].
    apply sort_by_id_map. intros x. destruct (String.eqb _ _); reflexivity. }
  split; [|split; [|reflexivity]].
  - rewrite (get_precios_lookup _ _ Hproto). unfold last_price.
    rewrite Hsorted, last_price_updated.
    assert (existsb (fun r => String.eqb (Precio.cancha r) c) (select_precios d)
            = true) as ->; [|reflexivity].
    apply existsb_exists. exists r.
    split; [apply list_elem_of_In, select_precios_elem, Hr|].
    rewrite Hrc. apply String.eqb_refl.
  - intros c' Hc'.
    destruct (String.eqb_spec c' "__proto__") as [->|Hp'].
    + rewrite !get_precios_proto. reflexivity.
    + rewrite !(get_precios_lookup _ _ Hp'). unfold last_price.
      rewrite Hsorted. apply last_price_other, Hc'.
Qed.

Lemma price_update_shows_in_list_witness :
  let o := post_admin_precios one_session 20 one_booking
                              (price_request "Pádel 1" 9500) in
  response o = {| status := 200; json := json_ok |}
  ∧ precios_json (get_precios (state o)) !! "Pádel 1" = Some 9500%Z
  ∧ precios_json (get_precios (state o)) !! "Pádel 2"
    = precios_json (get_precios one_booking) !! "Pádel 2".
Proof.
  destruct (price_update_shows_in_list one_session 20 one_booking
              (price_request "Pádel 1" 9500) "Pádel 1" 9500)
    as (Hresp & Hnew & Hother & _).
  - vm_compute. reflexivity.
  - vm_compute. reflexivity.
  - discriminate.
  - discriminate.
  - vm_compute. reflexivity.
  - exists (Precio.make 10 "Pádel 1" 8000 0). split; [|reflexivity].
    apply (list_elem_of_lookup_2 _ 9). vm_compute. reflexivity.
  - split; [exact Hresp|]. split; [exact Hnew|]. apply Hother. discriminate.
Defined.

(** ** Start-up *)

(** The twelve seeds are accepted as text parameters. *)
Lemma canchas_texts : map SQL.text_val (omap SQL.textin canchas) = canchas.
Proof. vm_compute. reflexivity. Qed.

Lemma insert_precio_rows now d c :
  precios (Pool.insert_precio now d c)
  = if has_cancha (SQL.text_val c) d then precios d
    else precios d ++ [Precio.mk (precios_id_seq d + 1) c 8000 now].
Proof.
  unfold Pool.insert_precio, has_cancha. destruct (existsb _ _); reflexivity.
Qed.

Lemma insert_precio_has_mono now d c c' :
  has_cancha c d = true -> has_cancha c (Pool.insert_precio now d c') = true.
Proof.
  intros H. unfold has_cancha. rewrite insert_precio_rows.
  destruct (has_cancha (SQL.text_val c') d); [exact H|].
  rewrite existsb_app. unfold has_cancha in H. rewrite H. reflexivity.
Qed.

Lemma insert_precio_has_self now d c :
  has_cancha (SQL.text_val c) (Pool.insert_precio now d c) = true.
Proof.
  unfold has_cancha at 1. rewrite insert_precio_rows.
  destruct (has_cancha (SQL.text_val c) d) eqn:E; [exact E|].
  rewrite existsb_app. cbn [existsb]. unfold Precio.cancha at 2.
  cbn [Precio.cancha_text]. rewrite String.eqb_refl, orb_true_r. reflexivity.
Qed.

Lemma seed_has_mono now cs d c :
  has_cancha c d = true ->
  has_cancha c (foldl (Pool.insert_precio now) d cs) = true.
Proof.
  revert d. induction cs as [|c0 cs IH]; intros d H; [exact H|].
  cbn [foldl]. apply IH, insert_precio_has_mono, H.
Qed.

Lemma seed_has now cs d c :
  c ∈ map SQL.text_val cs ->
  has_cancha c (foldl (Pool.insert_precio now) d cs) = true.
Proof.
  revert d. induction cs as [|c0 cs IH]; intros d Hc; [inversion Hc|].
  cbn [foldl map] in *. apply elem_of_cons in Hc. destruct Hc as [->|Hc].
  - apply seed_has_mono, insert_precio_has_self.
  - apply IH, Hc.
Qed.

Lemma seed_rows_same now cs d :
  (∀ c, c ∈ map SQL.text_val cs -> has_cancha c d = true) ->
  precios (foldl (Pool.insert_precio now) d cs) = precios d.
Proof.
  revert d. induction cs as [|c0 cs IH]; intros d H; [reflexivity|].
  cbn [foldl].
  assert (precios (Pool.insert_precio now d c0) = precios d) as Hsame.
  { rewrite insert_precio_rows, (H (SQL.text_val c0)) by apply list_elem_of_here.
    reflexivity. }
  rewrite IH; [exact Hsame|].
  intros c Hc. unfold has_cancha. rewrite Hsame.
  apply H, list_elem_of_further, Hc.
Qed.

Lemma seed_extends now cs d :
  ∃ extra,
    precios (foldl (Pool.insert_precio now) d cs) = precios d ++ extra
    ∧ Forall (fun r => Precio.precio r = 8000%Z ∧ Precio.actualizado r = now
                       ∧ Precio.cancha r ∈ map SQL.text_val cs
                       ∧ has_cancha (Precio.cancha r) d = false)
             extra.
Proof.
  revert d. induction cs as [|c0 cs IH]; intros d.
  - exists []. split; [symmetry; apply app_nil_r|constructor].
  - cbn [foldl map].
    destruct (IH (Pool.insert_precio now d c0)) as (extra & Hrows & Hall).
    rewrite insert_precio_rows in Hrows.
    assert (Forall (fun r => Precio.precio r = 8000%Z ∧ Precio.actualizado r = now
                             ∧ Precio.cancha r ∈ SQL.text_val c0 :: map SQL.text_val cs
                             ∧ has_cancha (Precio.cancha r) d = false) extra)
      as Hall'.
    { eapply Forall_impl; [exact Hall|]. cbn beta.
      intros r (Hp & Ha & Hc & Hnew). split; [exact Hp|]. split; [exact Ha|].
      split; [apply list_elem_of_further, Hc|].
      destruct (has_cancha (Precio.cancha r) d) eqn:E; [|reflexivity].
      rewrite (insert_precio_has_mono now d _ c0 E) in Hnew. discriminate Hnew. }
    destruct (has_cancha (SQL.text_val c0) d) eqn:E.
    + exists extra. split; [exact Hrows|exact Hall'].
    + exists (Precio.mk (precios_id_seq d + 1) c0 8000 now :: extra).
      split; [rewrite Hrows, <- app_assoc; reflexivity|].
      constructor; [|exact Hall'].
      split; [reflexivity|]. split; [reflexivity|].
      split; [apply list_elem_of_here|exact E].
Qed.

(** X7.  Start-up seeding keeps every price row that is already there, at
    its place and with its precio and date; it appends a row priced 8000
    for each listed cancha that had none, so that afterwards every listed
    cancha has a row; a second start-up adds and changes no row; the
    reservations are not touched. *)
Theorem initDB_keeps_prices (now now' : Z) (d : DB) :
  (∃ extra,
     precios (initDB now d) = precios d ++ extra
     ∧ Forall (fun r => Precio.precio r = 8000%Z ∧ Precio.actualizado r = now
                        ∧ Precio.cancha r ∈ canchas
                        ∧ has_cancha (Precio.cancha r) d = false)
              extra)
  ∧ (∀ c, c ∈ canchas -> has_cancha c (initDB now d) = true)
  ∧ precios (initDB now' (initDB now d)) = precios (initDB now d)
  ∧ reservas (initDB now d) = reservas d
  ∧ reservas_id_seq (initDB now d) = reservas_id_seq d.
Proof.
  unfold initDB. rewrite <- canchas_texts at 1 2 3.
  split; [apply seed_extends|].
  split; [intros c Hc; apply seed_has, Hc|].
  split; [|apply seed_reservas].
  apply seed_rows_same. intros c Hc. apply seed_has, Hc.
Qed.

Example restart_keeps_admin_price :
  let d := state (post_admin_precios one_session 20 one_booking
                                     (price_request "Pádel 1" 9500)) in
  precios_json (get_precios (initDB 99 d)) !! "Pádel 1" = Some 9500%Z.
Proof. vm_compute. reflexivity. Qed.

Lemma insert_precio_unique now d c :
  canchas_unique d -> canchas_unique (Pool.insert_precio now d c).
Proof.
  unfold canchas_unique. intros Hnd. rewrite insert_precio_rows.
  destruct (has_cancha (SQL.text_val c) d) eqn:E; [exact Hnd|].
  rewrite map_app. cbn [map].
  apply NoDup_app. split; [exact Hnd|]. split; [|apply NoDup_singleton].
  intros x Hx Hx'. apply list_elem_of_singleton in Hx'. subst x.
  apply list_elem_of_In, in_map_iff in Hx. destruct Hx as (r & Hrc & Hr).
  assert (has_cancha (SQL.text_val c) d = true) as Habs; [|congruence].
  apply existsb_exists. exists r. split; [exact Hr|].
  rewrite Hrc. apply String.eqb_refl.
Qed.

Lemma initDB_unique now d : canchas_unique d -> canchas_unique (initDB now d).
Proof.
  unfold initDB. generalize (omap SQL.textin canchas). intros cs. revert d.
  induction cs as [|c cs IH]; intros d Hd; [exact Hd|].
  cbn [foldl]. apply IH, insert_precio_unique, Hd.
Qed.

Lemma post_admin_precios_canchas tokens now d req :
  map Precio.cancha (precios (state (post_admin_precios tokens now d req)))
  = map Precio.cancha (precios d)
  ∧ map Precio.id (precios (state (post_admin_precios tokens now d req)))
    = map Precio.id (precios d).
Proof.
  unfold post_admin_precios, requireAdmin.
  destruct (negb _); [split; reflexivity|].
  unfold admin_precios_handler.
  destruct (_ || _); [split; reflexivity|]. unfold Pool.update_precio.
  destruct (SQL.int4_param _) as [[n|]|]; cbn; try (split; reflexivity);
    destruct (SQL.text_param _) as [c|]; cbn; try (split; reflexivity).
  - split; rewrite map_map; apply map_ext;
      intros r; destruct (SQL.text_eq _ _); reflexivity.
  - destruct (existsb _ _); split; reflexivity.
Qed.

Lemma post_reservar_precios env fr now d req :
  precios (state (post_reservar env fr now d req)) = precios d
  ∧ precios_id_seq (state (post_reservar env fr now d req)) = precios_id_seq d.
Proof.
  unfold post_reservar.
  destruct (_ || _); [split; reflexivity|].
  destruct (Pool.select_check _ _ _ _); [|split; reflexivity].
  destruct (0 <? _)%nat; [split; reflexivity|].
  unfold Pool.insert_reserva.
  destruct (Pool.bind_insert _ _ _ _ _ _ _ _) as [cols|]; [|split; reflexivity].
  destruct (Pool.new_row _ now cols); split; reflexivity.
Qed.

Lemma post_cancelar_precios tokens place d req :
  precios (state (post_cancelar tokens place d req)) = precios d
  ∧ precios_id_seq (state (post_cancelar tokens place d req)) = precios_id_seq d.
Proof.
  unfold post_cancelar, requireAdmin.
  destruct (negb _); [split; reflexivity|].
  unfold cancelar_handler, Pool.update_cancelar.
  destruct (params req !! "id") as [s|]; [|split; reflexivity].
  destruct (SQL.int4in s); split; reflexivity.
Qed.

Lemma canchas_unique_initDB_empty : canchas_unique (initDB 0 empty_db).
Proof. apply initDB_unique. apply NoDup_nil. exact I. Qed.

Lemma get_precios_lists_table_witness :
  precios_json (get_precios (initDB 0 empty_db)) !! "Pádel 2" = Some 8000%Z.
Proof.
  destruct (get_precios_lists_table (initDB 0 empty_db)) as (_ & _ & Hrow).
  assert (Precio.make 11 "Pádel 2" 8000 0 ∈ precios (initDB 0 empty_db)) as Hin
    by (apply (list_elem_of_lookup_2 _ 10); vm_compute; reflexivity).
  assert (Precio.cancha (Precio.make 11 "Pádel 2" 8000 0) ≠ "__proto__") as Hp
    by discriminate.
  exact (Hrow canchas_unique_initDB_empty _ Hin Hp).
Defined.

(** X8.  No handler and no start-up ever makes two price rows name the same
    cancha: when the canchas of the table are pairwise distinct, they are
    so after [initDB], after a price update (which also keeps the ids and
    the canchas of all rows), after a booking and after a cancellation. *)
Theorem canchas_stay_unique (env : gmap string string) (fetch_resolves : bool)
    (tokens : gset string) (now : Z) (place : nat) (d : DB) (req : Request) :
  canchas_unique d ->
  canchas_unique (initDB now d)
  ∧ canchas_unique (state (post_admin_precios tokens now d req))
  ∧ map Precio.cancha (precios (state (post_admin_precios tokens now d req)))
    = map Precio.cancha (precios d)
  ∧ map Precio.id (precios (state (post_admin_precios tokens now d req)))
    = map Precio.id (precios d)
  ∧ canchas_unique (state (post_reservar env fetch_resolves now d req))
  ∧ canchas_unique (state (post_cancelar tokens place d req)).
Proof.
  intros Hd. split; [apply initDB_unique, Hd|].
  destruct (post_admin_precios_canchas tokens now d req) as (Hc & Hi).
  split; [unfold canchas_unique; rewrite Hc; exact Hd|].
  split; [exact Hc|]. split; [exact Hi|].
  unfold canchas_unique.
  destruct (post_reservar_precios env fetch_resolves now d req) as [-> _].
  destruct (post_cancelar_precios tokens place d req) as [-> _].
  split; exact Hd.
Qed.

Lemma canchas_stay_unique_witness :
  canchas_unique (initDB 0 empty_db)
  ∧ canchas_unique
      (state (post_admin_precios one_session 20 (initDB 0 empty_db)
                                 (price_request "Pádel 1" 9500))).
Proof.
  assert (canchas_unique empty_db) as H0 by (apply NoDup_nil; exact I).
  split.
  - exact (proj1 (canchas_stay_unique ∅ true one_session 0 0 empty_db
                                      full_booking H0)).
  - destruct (canchas_stay_unique ∅ true one_session 20 0 (initDB 0 empty_db)
                (price_request "Pádel 1" 9500)) as (_ & Hu & _).
    + exact (proj1 (canchas_stay_unique ∅ true one_session 0 0 empty_db
                                        full_booking H0)).
    + exact Hu.
Defined.

(** ** The admin listing *)

Lemma insert_desc_perm r l : Pool.insert_desc r l ≡ₚ r :: l.
Proof.
  induction l as [|x l IH]; [reflexivity|]. cbn [Pool.insert_desc].
  destruct (_ <=? _)%Z; [reflexivity|].
  rewrite IH. apply Permutation_swap.
Qed.

Lemma order_by_perm l : foldr Pool.insert_desc [] l ≡ₚ l.
Proof.
  induction l as [|x l IH]; [reflexivity|]. cbn [foldr].
  rewrite insert_desc_perm, IH. reflexivity.
Qed.

Lemma newest_first_cons r l :
  (∀ x, x ∈ l -> (Reserva.fecha_creacion x ≤ Reserva.fecha_creacion r)%Z) ->
  newest_first l -> newest_first (r :: l).
Proof.
  intros Hr Hl [|i] [|j] r1 r2 Hij H1 H2; try lia.
  - cbn in H1, H2. injection H1 as <-.
    apply Hr, list_elem_of_lookup. eauto.
  - cbn in H1, H2. apply (Hl i j r1 r2); [lia|assumption..].
Qed.

Lemma newest_first_inv r l :
  newest_first (r :: l) ->
  (∀ x, x ∈ l -> (Reserva.fecha_creacion x ≤ Reserva.fecha_creacion r)%Z)
  ∧ newest_first l.
Proof.
  intros H. split.
  - intros x Hx. apply list_elem_of_lookup in Hx. destruct Hx as [j Hj].
    apply (H O (S j) r x); [lia|reflexivity|exact Hj].
  - intros i j r1 r2 Hij H1 H2. apply (H (S i) (S j) r1 r2); [lia|assumption..].
Qed.

Lemma insert_desc_sorted r l :
  newest_first l -> newest_first (Pool.insert_desc r l).
Proof.
  induction l as [|x l IH]; intros Hl.
  - cbn. intros [|i] [|j] r1 r2 Hij H1 H2; try lia; discriminate H2.
  - cbn [Pool.insert_desc].
    destruct (newest_first_inv _ _ Hl) as [Hx Hl'].
    destruct (Z.leb_spec (Reserva.fecha_creacion x) (Reserva.fecha_creacion r))
      as [Hle|Hlt].
    + apply newest_first_cons; [|exact Hl].
      intros y Hy. apply elem_of_cons in Hy. destruct Hy as [->|Hy]; [exact Hle|].
      specialize (Hx y Hy). lia.
    + apply newest_first_cons; [|apply IH, Hl'].
      intros y Hy. rewrite insert_desc_perm in Hy.
      apply elem_of_cons in Hy. destruct Hy as [->|Hy]; [lia|apply Hx, Hy].
Qed.

Lemma order_by_sorted l : newest_first (foldr Pool.insert_desc [] l).
Proof.
  induction l as [|x l IH].
  - intros i j r1 r2 _ H1 _. destruct i; discriminate H1.
  - cbn [foldr]. apply insert_desc_sorted, IH.
Qed.

(** X9.  The admin listing holds the 500 newest reservations, newest
    first: it is sorted by creation time, descending; it has as many rows
    as the table, up to 500; together with the rows it leaves out it is a
    rearrangement of the table, and no row left out is newer than a row
    listed.  The store is not changed. *)
Theorem listing_newest_500 (d : DB) :
  let l := Pool.select_reservas d in
  newest_first l
  ∧ length l = Nat.min 500 (length (reservas d))
  ∧ (∃ rest, reservas d ≡ₚ l ++ rest
             ∧ ∀ a b, a ∈ l -> b ∈ rest ->
                 (Reserva.fecha_creacion b ≤ Reserva.fecha_creacion a)%Z)
  ∧ (∀ req, reservas_handler d req = answer 200 (json_rows l) d [])
  ∧ ∀ tokens req, validarToken tokens req = true ->
      get_reservas tokens d req = answer 200 (json_rows l) d [].
Proof.
  intros l. subst l. unfold Pool.select_reservas.
  pose proof (order_by_sorted (reservas d)) as Hsorted.
  pose proof (order_by_perm (reservas d)) as Hperm.
  set (sorted := foldr Pool.insert_desc [] (reservas d)) in *.
  split; [|split; [|split; [|split]]].
  - intros i j r1 r2 Hij H1 H2.
    apply lookup_take_Some in H1. apply lookup_take_Some in H2.
    apply (Hsorted i j r1 r2 Hij); tauto.
  - rewrite length_take, (Permutation_length Hperm). reflexivity.
  - exists (drop 500 sorted). split.
    + rewrite take_drop. symmetry. exact Hperm.
    + intros a b Ha Hb.
      apply list_elem_of_lookup in Ha. destruct Ha as [i Hi].
      apply list_elem_of_lookup in Hb. destruct Hb as [j Hj].
      apply lookup_take_Some in Hi. destruct Hi as [Hi Hlt].
      rewrite lookup_drop in Hj.
      apply (Hsorted i (500 + j)%nat a b); [lia|assumption..].
  - intros req. reflexivity.
  - intros tokens req Hv. unfold get_reservas.
    rewrite (gate_open _ _ _ _ Hv). reflexivity.
Qed.

Example listing_two_bookings :
  map Reserva.id (Pool.select_reservas two_bookings) = [2%Z; 1%Z].
Proof. vm_compute. reflexivity. Qed.


(** ** How a booking is decided *)

Lemma check_body_None d b :
  check_body d b = None
  ↔ SQL.bindable (JS.get "cancha" b) = false
    ∨ SQL.bindable (JS.get "fecha" b) = false
    ∨ SQL.bindable (JS.get "horario" b) = false.
Proof.
  unfold check_body, Pool.select_check. rewrite <- !text_param_None.
  destruct (SQL.text_param (JS.get "cancha" b)) as [c|]; cbn;
    [|split; [auto|reflexivity]].
  destruct (SQL.text_param (JS.get "fecha" b)) as [f|]; cbn;
    [|split; [auto|reflexivity]].
  destruct (SQL.text_param (JS.get "horario" b)) as [h|]; cbn;
    [|split; [auto|reflexivity]].
  split; [discriminate|]. intros [H|[H|H]]; discriminate H.
Qed.

(** When the occupancy SELECT fails, no row holds the slot, and the INSERT
    would fail too, before the counter is drawn. *)
Lemma check_body_None_free now d b :
  check_body d b = None -> slot_free d b ∧ insert_body now d b = (d, None).
Proof.
  intros E.
  destruct (check_body_cases d b) as [(_ & Hf & Hnul)|[(l & E' & _)|[E' _]]];
    [|congruence..].
  split; [exact Hf | apply insert_body_refused, Hnul].
Qed.

(** The four ways a booking request ends. *)
Lemma post_reservar_cases env fr now d req :
  let b := body req in
  let o := post_reservar env fr now d req in
  (validated b = false ∧ o = answer 400 (json_error "Faltan datos") d [])
  ∨ (validated b = true ∧ slot_taken d b
     ∧ o = answer 409 (json_error "Ese horario ya está ocupado") d [])
  ∨ (validated b = true ∧ slot_free d b
     ∧ ∃ d' rid, insert_body now d b = (d', Some rid)
                 ∧ o = answer 200 (json_ok_id rid) d' (notify env fr rid b))
  ∨ (validated b = true ∧ slot_free d b
     ∧ ∃ d', insert_body now d b = (d', None)
             ∧ o = answer 500 (json_error "Error al guardar la reserva") d'
                          [console_error "err"]).
Proof.
  intros b o. subst b o.
  destruct (validated (body req)) eqn:Hv;
    [|left; split; [reflexivity|]; apply post_reservar_400, Hv].
  right.
  destruct (check_body_cases d (body req))
    as [(_ & Hfree & _)|[(l & E & Hl & Htaken)|[_ Hfree]]].
  - rewrite (post_reservar_insert _ _ _ _ _ Hv Hfree).
    destruct (insert_body now d (body req)) as [d' [rid|]] eqn:E.
    + right. left. split; [reflexivity|]. split; [exact Hfree|].
      exists d', rid. split; reflexivity.
    + right. right. split; [reflexivity|]. split; [exact Hfree|].
      exists d'. split; reflexivity.
  - left. split; [reflexivity|]. split; [exact Htaken|].
    rewrite (post_reservar_validated _ _ _ _ _ Hv), E, Hl. reflexivity.
  - rewrite (post_reservar_insert _ _ _ _ _ Hv Hfree).
    destruct (insert_body now d (body req)) as [d' [rid|]] eqn:E.
    + right. left. split; [reflexivity|]. split; [exact Hfree|].
      exists d', rid. split; reflexivity.
    + right. right. split; [reflexivity|]. split; [exact Hfree|].
      exists d'. split; reflexivity.
Qed.

(** X10.  The status of a booking answer is decided in this order: 400
    exactly when one of the six validated fields is falsy; otherwise 500,
    with the store untouched, when the occupancy SELECT fails, which it
    does exactly when the server refuses cancha, fecha or horario as a
    parameter; otherwise 409 exactly when the slot is held by a reservation
    that is not cancelled; otherwise 200 when the INSERT returns an id and
    500 when it fails.  A 400 or a 409 leaves the store as it was and
    causes no effect. *)
Theorem reservar_status (env : gmap string string) (fetch_resolves : bool)
    (now : Z) (d : DB) (req : Request) :
  let b := body req in
  let o := post_reservar env fetch_resolves now d req in
  let code := status (response o) in
  (code = 400%Z ↔ validated b = false)
  ∧ (code = 409%Z ↔ validated b = true ∧ slot_taken d b)
  ∧ (code = 200%Z ↔ validated b = true ∧ slot_free d b
                    ∧ ∃ rid, snd (insert_body now d b) = Some rid)
  ∧ (code = 500%Z
     ↔ validated b = true
       ∧ (check_body d b = None
          ∨ (slot_free d b ∧ snd (insert_body now d b) = None)))
  ∧ (check_body d b = None
     ↔ SQL.bindable (JS.get "cancha" b) = false
       ∨ SQL.bindable (JS.get "fecha" b) = false
       ∨ SQL.bindable (JS.get "horario" b) = false)
  ∧ (validated b = true -> check_body d b = None ->
     o = answer 500 (json_error "Error al guardar la reserva") d
                [console_error "err"])
  ∧ (code = 400%Z ∨ code = 409%Z -> state o = d ∧ effects o = []).
Proof.
  intros b o code. subst code o b.
  assert (∀ A : Prop, validated (body req) = true ->
            check_body d (body req) = None
            ∨ (slot_free d (body req)
               ∧ snd (insert_body now d (body req)) = None) ->
            (slot_free d (body req) ->
             snd (insert_body now d (body req)) = None -> A) -> A) as Hfail.
  { intros A _ [E|[Hf Hi]] HA; [|exact (HA Hf Hi)].
    destruct (check_body_None_free now d _ E) as [Hf Hi].
    apply (HA Hf). rewrite Hi. reflexivity. }
  pose proof (post_reservar_cases env fetch_resolves now d req) as Hcases.
  cbv zeta in Hcases.
  split; [|split; [|split; [|split; [|split; [apply check_body_None|split]]]]].
  - destruct Hcases
      as [[Hv ->]|[(Hv & _ & ->)|[(Hv & _ & d' & rid & _ & ->)
                                 |(Hv & _ & d' & _ & ->)]]];
      cbn [response status answer];
      (split; [try discriminate|try reflexivity]); congruence.
  - destruct Hcases
      as [[Hv ->]|[(Hv & Ht & ->)|[(Hv & Hf & d' & rid & _ & ->)
                                  |(Hv & Hf & d' & _ & ->)]]];
      cbn [response status answer].
    + split; [discriminate|]. intros [Habs _]. congruence.
    + split; [auto|reflexivity].
    + split; [discriminate|]. intros [_ Ht].
      destruct (taken_not_free _ _ Ht Hf).
    + split; [discriminate|]. intros [_ Ht].
      destruct (taken_not_free _ _ Ht Hf).
  - destruct Hcases
      as [[Hv ->]|[(Hv & Ht & ->)|[(Hv & Hf & d' & rid & Hi & ->)
                                  |(Hv & Hf & d' & Hi & ->)]]];
      cbn [response status answer].
    + split; [discriminate|]. intros [Habs _]. congruence.
    + split; [discriminate|]. intros (_ & Hf & _).
      destruct (taken_not_free _ _ Ht Hf).
    + split; [|reflexivity]. intros _. split; [exact Hv|].
      split; [exact Hf|]. exists rid. rewrite Hi. reflexivity.
    + split; [discriminate|]. intros (_ & _ & rid & Habs).
      rewrite Hi in Habs. discriminate Habs.
  - destruct Hcases
      as [[Hv ->]|[(Hv & Ht & ->)|[(Hv & Hf & d' & rid & Hi & ->)
                                  |(Hv & Hf & d' & Hi & ->)]]];
      cbn [response status answer].
    + split; [discriminate|]. intros [Habs _]. congruence.
    + split; [discriminate|]. intros [Hv' H].
      apply (Hfail _ Hv' H). intros Hf _.
      destruct (taken_not_free _ _ Ht Hf).
    + split; [discriminate|]. intros [Hv' H].
      apply (Hfail _ Hv' H). intros _ Habs. rewrite Hi in Habs.
      discriminate Habs.
    + split; [|reflexivity]. intros _. split; [exact Hv|]. right.
      split; [exact Hf|]. rewrite Hi. reflexivity.
  - intros Hv E. rewrite (post_reservar_validated _ _ _ _ _ Hv), E.
    reflexivity.
  - destruct Hcases
      as [[Hv ->]|[(Hv & Ht & ->)|[(Hv & Hf & d' & rid & Hi & ->)
                                  |(Hv & Hf & d' & Hi & ->)]]];
      cbn [response status state effects answer];
      intros [H|H]; try discriminate H; split; reflexivity.
Qed.

(** A cancha with U+0000 in it: the SELECT fails, 500, nothing stored. *)
Example booking_with_nul_cancha :
  post_reservar ∅ true 10 one_booking nul_cancha_booking
  = answer 500 (json_error "Error al guardar la reserva") one_booking
           [console_error "err"].
Proof. vm_compute. reflexivity. Qed.

Lemma elem_of_ocupados_spec h c f rows :
  h ∈ ocupados_spec c f rows
  ↔ ∃ r, r ∈ rows ∧ Reserva.cancha r = c ∧ Reserva.fecha r = f
         ∧ Reserva.horario r = h ∧ Reserva.estado r ≠ "cancelada".
Proof.
  induction rows as [|r rows IH]; cbn [ocupados_spec].
  - split; [intros H; inversion H|]. intros (r & Hr & _). inversion Hr.
  - case_decide as Hdec.
    + rewrite elem_of_cons, IH. split.
      * intros [->|(r0 & Hr0 & Hfacts)].
        -- exists r. split; [apply list_elem_of_here|]. tauto.
        -- exists r0. split; [apply list_elem_of_further, Hr0|exact Hfacts].
      * intros (r0 & Hr0 & Hc & Hf & Hh & He).
        apply elem_of_cons in Hr0. destruct Hr0 as [->|Hr0].
        -- left. symmetry. exact Hh.
        -- right. exists r0. tauto.
    + rewrite IH. split.
      * intros (r0 & Hr0 & Hfacts).
        exists r0. split; [apply list_elem_of_further, Hr0|exact Hfacts].
      * intros (r0 & Hr0 & Hc & Hf & Hh & He).
        apply elem_of_cons in Hr0. destruct Hr0 as [->|Hr0].
        -- exfalso. apply Hdec. tauto.
        -- exists r0. tauto.
Qed.

Lemma slot_taken_strings d b c f h :
  JS.get "cancha" b = JS.Str c -> JS.get "fecha" b = JS.Str f ->
  JS.get "horario" b = JS.Str h ->
  slot_taken d b ↔ h ∈ ocupados_spec c f (reservas d).
Proof.
  intros Hc Hf Hh. rewrite elem_of_ocupados_spec.
  unfold slot_taken, holds_slot. rewrite Hc, Hf, Hh. cbn [SQL.prepareValue].
  split; intros (r & Hr & H1 & H2 & H3 & H4); exists r;
    (split; [exact Hr|]); repeat split; congruence.
Qed.

Lemma validated_truthy b k :
  validated b = true -> k ∈ required_fields -> JS.truthy (JS.get k b) = true.
Proof.
  unfold validated. rewrite forallb_forall. intros H Hk.
  apply H, list_elem_of_In, Hk.
Qed.

Lemma truthy_Str_nonempty v s : JS.truthy v = true -> v = JS.Str s -> s ≠ "".
Proof. intros Ht -> ->. discriminate Ht. Qed.

Lemma bindable_Str s : SQL.bindable (JS.Str s) = negb (SQL.has_nul s).
Proof. reflexivity. Qed.

(** X11.  The occupancy check of a booking and the availability listing
    agree.  For a valid booking whose cancha, fecha and horario are
    strings: when cancha and fecha are free of U+0000, the availability
    query for them is answered 200, and the booking is answered 409 exactly
    when that answer lists its horario; when one of them contains U+0000,
    both requests are answered 500. *)
Theorem conflict_iff_listed (env : gmap string string) (fetch_resolves : bool)
    (now : Z) (d : DB) (req q : Request) (c f h : string) :
  validated (body req) = true ->
  JS.get "cancha" (body req) = JS.Str c ->
  JS.get "fecha" (body req) = JS.Str f ->
  JS.get "horario" (body req) = JS.Str h ->
  query q !! "cancha" = Some (JS.Str c) ->
  query q !! "fecha" = Some (JS.Str f) ->
  (SQL.has_nul c = false -> SQL.has_nul f = false ->
   ∃ ocupados,
     response (get_disponibilidad d q)
     = {| status := 200; json := json_ocupados ocupados |}
     ∧ (status (response (post_reservar env fetch_resolves now d req)) = 409%Z
        ↔ h ∈ ocupados))
  ∧ (SQL.has_nul c = true ∨ SQL.has_nul f = true ->
     status (response (get_disponibilidad d q)) = 500%Z
     ∧ status (response (post_reservar env fetch_resolves now d req)) = 500%Z).
Proof.
  intros Hv Hc Hf Hh Hqc Hqf.
  assert (JS.truthy (JS.Str c) = true) as Hct.
  { rewrite <- Hc. apply validated_truthy; [exact Hv|]. repeat constructor. }
  assert (JS.truthy (JS.Str f) = true) as Hft.
  { rewrite <- Hf. apply validated_truthy; [exact Hv|]. repeat constructor. }
  split.
  - intros Hcn Hfn.
    assert (c ≠ "") as Hc0 by (intros ->; discriminate Hct).
    assert (f ≠ "") as Hf0 by (intros ->; discriminate Hft).
    exists (ocupados_spec c f (reservas d)).
    rewrite (get_disponibilidad_strings d q c f Hqc Hqf Hc0 Hf0 Hcn Hfn).
    split; [reflexivity|].
    rewrite <- (slot_taken_strings d (body req) c f h Hc Hf Hh).
    pose proof (post_reservar_cases env fetch_resolves now d req) as Hcases.
    cbv zeta in Hcases.
    destruct Hcases
      as [[Hv' _]|[(_ & Ht & ->)|[(_ & Hfree & d' & rid & _ & ->)
                                 |(_ & Hfree & d' & _ & ->)]]];
      cbn [response status answer].
    + congruence.
    + split; [intros _; exact Ht|reflexivity].
    + split; [discriminate|]. intros Ht.
      destruct (taken_not_free _ _ Ht Hfree).
    + split; [discriminate|]. intros Ht.
      destruct (taken_not_free _ _ Ht Hfree).
  - intros Hnul. split.
    + rewrite (get_disponibilidad_refused d q); [reflexivity| | |].
      * rewrite (get_Some _ _ _ Hqc). exact Hct.
      * rewrite (get_Some _ _ _ Hqf). exact Hft.
      * rewrite (get_Some _ _ _ Hqc), (get_Some _ _ _ Hqf), !bindable_Str.
        destruct Hnul as [-> | ->]; [left|right]; reflexivity.
    + rewrite (post_reservar_validated _ _ _ _ _ Hv).
      assert (check_body d (body req) = None) as ->; [|reflexivity].
      apply check_body_None. rewrite Hc, Hf, !bindable_Str.
      destruct Hnul as [-> | ->]; [left|right; left]; reflexivity.
Qed.

Lemma conflict_iff_listed_witness :
  ∃ ocupados,
    response (get_disponibilidad one_booking
                (availability_query "Pádel 1" "2025-06-01"))
    = {| status := 200; json := json_ocupados ocupados |}
    ∧ (status (response (post_reservar ∅ true 11 one_booking full_booking))
       = 409%Z
       ↔ "18:00" ∈ ocupados).
Proof.
  destruct (conflict_iff_listed ∅ true 11 one_booking full_booking
              (availability_query "Pádel 1" "2025-06-01")
              "Pádel 1" "2025-06-01" "18:00") as [Hclean _];
    try (vm_compute; reflexivity).
  apply Hclean; reflexivity.
Defined.



(** X13.  A booking never reads the price table: with any other price
    rows in the store, the answer, the reservations afterwards and the
    effects are the same, and the price rows are left as they were. *)
Theorem booking_ignores_price_table (env : gmap string string)
    (fetch_resolves : bool) (now : Z) (d : DB) (req : Request)
    (rows : list Precio.t) (seq : Z) :
  let o := post_reservar env fetch_resolves now d req in
  let o' := post_reservar env fetch_resolves now (with_precios rows seq d) req in
  response o' = response o
  ∧ reservas (state o') = reservas (state o)
  ∧ reservas_id_seq (state o') = reservas_id_seq (state o)
  ∧ effects o' = effects o
  ∧ precios (state o') = rows
  ∧ precios (state o) = precios d.
Proof.
  intros o o'. subst o o'. unfold post_reservar.
  change (Pool.select_check (with_precios rows seq d))
    with (Pool.select_check d).
  destruct (_ || _); [repeat split; reflexivity|].
  destruct (Pool.select_check d _ _ _) as [check|];
    [|repeat split; reflexivity].
  destruct (0 <? length check)%nat; [repeat split; reflexivity|].
  unfold Pool.insert_reserva.
  destruct (Pool.bind_insert _ _ _ _ _ _ _ _) as [cols|];
    [|repeat split; reflexivity].
  cbn [reservas_id_seq with_precios].
  destruct (Pool.new_row _ now cols); repeat split; reflexivity.
Qed.


(** ** What a booking stores *)

Lemma bind_insert_inv v1 v2 v3 v4 v5 v6 v7 v8 cols :
  Pool.bind_insert v1 v2 v3 v4 v5 v6 v7 v8 = Some cols ->
  SQL.varchar_param 100 v1 = Some (Pool.c_nombre cols)
  ∧ SQL.varchar_param 100 v2 = Some (Pool.c_apellido cols)
  ∧ SQL.varchar_param 30 v3 = Some (Pool.c_whatsapp cols)
  ∧ SQL.varchar_param 50 v4 = Some (Pool.c_deporte cols)
  ∧ SQL.varchar_param 100 v5 = Some (Pool.c_cancha cols)
  ∧ SQL.varchar_param 100 v6 = Some (Pool.c_fecha cols)
  ∧ SQL.varchar_param 10 v7 = Some (Pool.c_horario cols)
  ∧ SQL.int4_param v8 = Some (Pool.c_precio cols).
Proof.
  unfold Pool.bind_insert.
  destruct (SQL.varchar_param 100 v1); [|discriminate].
  destruct (SQL.varchar_param 100 v2); [|discriminate].
  destruct (SQL.varchar_param 30 v3); [|discriminate].
  destruct (SQL.varchar_param 50 v4); [|discriminate].
  destruct (SQL.varchar_param 100 v5); [|discriminate].
  destruct (SQL.varchar_param 100 v6); [|discriminate].
  destruct (SQL.varchar_param 10 v7); [|discriminate].
  destruct (SQL.int4_param v8); [|discriminate].
  cbn. intros [= <-]. cbn. repeat split; reflexivity.
Qed.

Lemma insert_body_Some now d b d' rid :
  insert_body now d b = (d', Some rid) ->
  ∃ row,
    d' = with_reservas (reservas d ++ [row]) rid d
    ∧ rid = (reservas_id_seq d + 1)%Z
    ∧ Reserva.id row = rid
    ∧ Reserva.estado row = "confirmada"
    ∧ Reserva.fecha_creacion row = now
    ∧ SQL.varchar_param 100 (JS.get "nombre" b)
      = Some (Some (Reserva.nombre_text row))
    ∧ SQL.varchar_param 100 (JS.get "apellido" b)
      = Some (Some (Reserva.apellido_text row))
    ∧ SQL.varchar_param 30 (JS.get "whatsapp" b)
      = Some (Some (Reserva.whatsapp_text row))
    ∧ SQL.varchar_param 50 (JS.get "deporte" b)
      = Some (Some (Reserva.deporte_text row))
    ∧ SQL.varchar_param 100 (JS.get "cancha" b)
      = Some (Some (Reserva.cancha_text row))
    ∧ SQL.varchar_param 100 (JS.get "fecha" b)
      = Some (Some (Reserva.fecha_text row))
    ∧ SQL.varchar_param 10 (JS.get "horario" b)
      = Some (Some (Reserva.horario_text row))
    ∧ SQL.int4_param (JS.get "precio" b) = Some (Some (Reserva.precio row)).
Proof.
  unfold insert_body, Pool.insert_reserva.
  destruct (Pool.bind_insert _ _ _ _ _ _ _ _) as [cols|] eqn:Ebind;
    [|discriminate].
  destruct (Pool.new_row _ now cols) as [row|] eqn:Erow; [|discriminate].
  intros [= <- <-]. exists row.
  destruct (new_row_inv _ _ _ _ Erow)
    as (Hid & He & Hnow & Hn & Ha & Hw & Hdp & Hc & Hf & Hh & Hp).
  destruct (bind_insert_inv _ _ _ _ _ _ _ _ _ Ebind)
    as (Bn & Ba & Bw & Bdp & Bc & Bf & Bh & Bp).
  split; [reflexivity|]. split; [reflexivity|]. split; [exact Hid|].
  split; [exact He|]. split; [exact Hnow|].
  repeat split; congruence.
Qed.

Lemma insert_body_None now d b d' :
  insert_body now d b = (d', None) -> reservas d' = reservas d.
Proof.
  unfold insert_body, Pool.insert_reserva.
  destruct (Pool.bind_insert _ _ _ _ _ _ _ _) as [cols|];
    [|intros [= <-]; reflexivity].
  destruct (Pool.new_row _ now cols); [discriminate|].
  intros [= <-]. reflexivity.
Qed.

(** A text no longer than the column is stored as it was sent. *)
Lemma varchar_param_fits n v t :
  SQL.varchar_param n v = Some (Some t) ->
  (∀ s, SQL.prepareValue v = Some s -> (SQL.char_length s ≤ n)%nat) ->
  SQL.prepareValue v = Some (SQL.text_val t).
Proof.
  unfold SQL.varchar_param. intros H Hfit.
  destruct (SQL.text_param v) as [[t0|]|] eqn:E; cbn in H; try discriminate H.
  apply text_param_Some in E.
  rewrite (varchar_short n t0 (Hfit _ E)) in H. cbn in H. congruence.
Qed.




(** ** The table of reservations over time *)

Lemma post_reservar_rows env fr now d req :
  let o := post_reservar env fr now d req in
  reservas (state o) = reservas d
  ∨ ∃ row,
      reservas (state o) = reservas d ++ [row]
      ∧ slot_free d (body req)
      ∧ Reserva.id row = (reservas_id_seq d + 1)%Z
      ∧ Reserva.estado row = "confirmada"
      ∧ SQL.varchar_param 100 (JS.get "cancha" (body req))
        = Some (Some (Reserva.cancha_text row))
      ∧ SQL.varchar_param 100 (JS.get "fecha" (body req))
        = Some (Some (Reserva.fecha_text row))
      ∧ SQL.varchar_param 10 (JS.get "horario" (body req))
        = Some (Some (Reserva.horario_text row)).
Proof.
  intros o. subst o.
  pose proof (post_reservar_cases env fr now d req) as Hcases.
  cbv zeta in Hcases.
  destruct Hcases
    as [[_ Ho]|[(_ & _ & Ho)|[(_ & Hfree & d' & rid & Hi & Ho)
                             |(_ & _ & d' & Hi & Ho)]]];
    rewrite Ho; cbn [state answer].
  - left. reflexivity.
  - left. reflexivity.
  - right. destruct (insert_body_Some _ _ _ _ _ Hi)
      as (row & -> & Hrid & Hid & He & _ & _ & _ & _ & _ & Hc & Hf & Hh & _).
    exists row. cbn [reservas with_reservas].
    split; [reflexivity|]. split; [exact Hfree|].
    split; [congruence|]. split; [exact He|]. repeat split; assumption.
  - left. apply (insert_body_None _ _ _ _ Hi).
Qed.







(** ** Cancelling and booking again *)

Lemma ocupados_spec_cancelled c f rows :
  ocupados_spec c f (map (Reserva.set_estado "cancelada") rows) = [].
Proof.
  induction rows as [|r rows IH]; [reflexivity|]. cbn [map ocupados_spec].
  rewrite decide_False; [exact IH|]. cbn. tauto.
Qed.

Lemma ocupados_spec_cancel_filter place n c f rows :
  ocupados_spec c f (Pool.cancelar_rows place n rows)
  = ocupados_spec c f (List.filter (fun r => negb (Pool.has_id n r)) rows).
Proof.
  unfold Pool.cancelar_rows.
  rewrite !ocupados_spec_app, ocupados_spec_cancelled. cbn [app].
  rewrite <- ocupados_spec_app, take_drop. reflexivity.
Qed.

(** X16.  After the cancellation of id [n], wherever the server puts the
    new version of the row, the availability answer for a cancha and fecha
    (non-empty, without U+0000) lists exactly the horarios of the
    reservations with another id that have this cancha and fecha and are
    not cancelled, in their order: the cancelled reservation no longer
    occupies its slot, and no other entry is lost or moved. *)
Theorem cancel_removes_from_availability (place : nat) (d : DB)
    (req q : Request) (s : string) (n : Z) (c f : string) :
  params req !! "id" = Some s ->
  SQL.int4in s = Some n ->
  query q !! "cancha" = Some (JS.Str c) ->
  query q !! "fecha" = Some (JS.Str f) ->
  c ≠ "" -> f ≠ "" ->
  SQL.has_nul c = false -> SQL.has_nul f = false ->
  let d' := state (cancelar_handler place d req) in
  get_disponibilidad d' q
  = answer 200
      (json_ocupados
         (ocupados_spec c f
            (List.filter (fun r => negb (Reserva.id r =? n)%Z) (reservas d))))
      d' []
  ∧ ∀ tokens, validarToken tokens req = true ->
      state (post_cancelar tokens place d req) = d'.
Proof.
  intros Hid Hn Hqc Hqf Hc0 Hf0 Hcn Hfn d'. subst d'.
  rewrite (cancelar_handler_run place d req s n Hid Hn). cbn [state answer].
  split.
  - rewrite (get_disponibilidad_strings _ q c f Hqc Hqf Hc0 Hf0 Hcn Hfn).
    cbn [reservas with_reservas]. rewrite ocupados_spec_cancel_filter.
    reflexivity.
  - intros tokens Hv. unfold post_cancelar. rewrite (gate_open _ _ _ _ Hv).
    rewrite (cancelar_handler_run place d req s n Hid Hn). reflexivity.
Qed.

Lemma cancel_removes_from_availability_witness :
  let d' := state (cancelar_handler 0 one_booking (cancel_request "1")) in
  get_disponibilidad d' (availability_query "Pádel 1" "2025-06-01")
  = answer 200 (json_ocupados []) d' [].
Proof.
  destruct (cancel_removes_from_availability 0 one_booking (cancel_request "1")
              (availability_query "Pádel 1" "2025-06-01")
              "1" 1 "Pádel 1" "2025-06-01") as [Heq _].
  - vm_compute. reflexivity.
  - vm_compute. reflexivity.
  - vm_compute. reflexivity.
  - vm_compute. reflexivity.
  - discriminate.
  - discriminate.
  - reflexivity.
  - reflexivity.
  - cbv zeta. rewrite Heq. rewrite one_booking_row. reflexivity.
Defined.

(** X17.  When every reservation that holds a slot has id [n], cancelling
    [n] frees the slot: afterwards no stored reservation holds it, and a
    booking request for it is not answered 409. *)
Theorem cancel_frees_slot (place : nat) (d : DB) (req : Request) (s : string)
    (n : Z) (b : gmap string JS.value) :
  params req !! "id" = Some s ->
  SQL.int4in s = Some n ->
  (∀ r, r ∈ reservas d -> holds_slot r b -> Reserva.id r = n) ->
  let d' := state (cancelar_handler place d req) in
  slot_free d' b
  ∧ ∀ env fetch_resolves now req',
      body req' = b ->
      status (response (post_reservar env fetch_resolves now d' req')) ≠ 409%Z.
Proof.
  intros Hid Hn Hall d'. subst d'.
  rewrite (cancelar_handler_run place d req s n Hid Hn). cbn [state answer].
  assert (slot_free (with_reservas (Pool.cancelar_rows place n (reservas d))
                                   (reservas_id_seq d) d) b) as Hfree.
  { intros r' Hr' Hh. cbn [reservas with_reservas] in Hr'.
    apply elem_of_cancelar_rows in Hr'.
    destruct Hr' as [[Hr E]|(r & Hr & _ & ->)].
    - apply Z.eqb_neq in E. apply E, (Hall r' Hr Hh).
    - destruct Hh as (_ & _ & _ & He). apply He. reflexivity. }
  split; [exact Hfree|].
  intros env fr now req' Hb.
  pose proof (post_reservar_cases env fr now
                (with_reservas (Pool.cancelar_rows place n (reservas d))
                               (reservas_id_seq d) d) req') as Hcases.
  cbv zeta in Hcases. rewrite Hb in Hcases.
  destruct Hcases
    as [[_ ->]|[(_ & Ht & _)|[(_ & _ & d2 & rid & _ & ->)
                             |(_ & _ & d2 & _ & ->)]]];
    cbn [response status answer]; try discriminate.
  exfalso. exact (taken_not_free _ _ Ht Hfree).
Qed.

Lemma cancel_frees_slot_witness :
  let d' := state (cancelar_handler 0 one_booking (cancel_request "1")) in
  slot_free d' (body full_booking)
  ∧ status (response (post_reservar ∅ true 30 d' full_booking)) ≠ 409%Z.
Proof.
  destruct (cancel_frees_slot 0 one_booking (cancel_request "1") "1" 1
                              (body full_booking)) as [Hfree Hbook].
  - vm_compute. reflexivity.
  - vm_compute. reflexivity.
  - intros r Hr _. rewrite one_booking_row in Hr.
    apply list_elem_of_singleton in Hr. subst r. reflexivity.
  - split; [exact Hfree|]. apply Hbook. reflexivity.
Defined.

(** ** Invariants of the table of reservations *)

Lemma same_slot_sym r1 r2 : same_slot r1 r2 -> same_slot r2 r1.
Proof. intros (H1 & H2 & H3). repeat split; congruence. Qed.

(** The two ways of saying that no slot is booked twice. *)
Lemma one_per_slot_iff l :
  one_per_slot l
  ↔ ∀ i j r1 r2,
      l !! i = Some r1 -> l !! j = Some r2 -> same_slot r1 r2 ->
      Reserva.estado r1 ≠ "cancelada" -> Reserva.estado r2 ≠ "cancelada" ->
      i = j.
Proof.
  induction l as [|r l IH]; cbn [one_per_slot].
  - split; [|auto]. intros _ i j r1 r2 H1. destruct i; discriminate H1.
  - rewrite IH. split.
    + intros [Hr Hl] [|i] [|j] r1 r2 H1 H2 Hs He1 He2; cbn in H1, H2.
      * reflexivity.
      * injection H1 as <-. exfalso.
        apply (Hr r2); [apply list_elem_of_lookup; eauto|assumption..].
      * injection H2 as <-. exfalso.
        apply (Hr r1);
          [apply list_elem_of_lookup; eauto|apply same_slot_sym, Hs
          |assumption..].
      * f_equal. exact (Hl i j r1 r2 H1 H2 Hs He1 He2).
    + intros H. split.
      * intros x Hx Hs He1 He2. apply list_elem_of_lookup in Hx.
        destruct Hx as [j Hj].
        specialize (H O (S j) r x eq_refl Hj Hs He1 He2). discriminate H.
      * intros i j r1 r2 H1 H2 Hs He1 He2.
        specialize (H (S i) (S j) r1 r2 H1 H2 Hs He1 He2). lia.
Qed.

Lemma one_per_slot_perm l l' : l ≡ₚ l' -> one_per_slot l -> one_per_slot l'.
Proof.
  induction 1 as [|x l l' Hp IH|x y l|l l' l'' _ IH1 _ IH2];
    cbn [one_per_slot].
  - auto.
  - intros [Hx Hl]. split; [|apply IH, Hl].
    intros z Hz. apply Hx. rewrite Hp. exact Hz.
  - intros (Hy & Hx & Hl). split; [|split; [|exact Hl]].
    + intros z Hz Hs He1 He2. apply elem_of_cons in Hz.
      destruct Hz as [->|Hz].
      * apply (Hy x); [apply list_elem_of_here|apply same_slot_sym, Hs
                      |assumption..].
      * apply (Hx z Hz Hs He1 He2).
    + intros z Hz. apply Hy, list_elem_of_further, Hz.
  - auto.
Qed.

Lemma cancelled_row_active n r :
  Reserva.estado (cancelled_row n r) ≠ "cancelada" -> cancelled_row n r = r.
Proof.
  unfold cancelled_row. destruct (Pool.has_id n r); [|reflexivity].
  intros H. destruct H. reflexivity.
Qed.

Lemma one_per_slot_cancelled n l :
  one_per_slot l -> one_per_slot (map (cancelled_row n) l).
Proof.
  induction l as [|r l IH]; [auto|]. cbn [map one_per_slot].
  intros [Hr Hl]. split; [|apply IH, Hl].
  intros x Hx Hs He1 He2. apply list_elem_of_In, in_map_iff in Hx.
  destruct Hx as (r0 & <- & Hr0).
  pose proof (cancelled_row_active n r He1) as E1.
  pose proof (cancelled_row_active n r0 He2) as E2.
  rewrite E1 in Hs, He1. rewrite E2 in Hs, He2.
  apply (Hr r0); [apply list_elem_of_In, Hr0|assumption..].
Qed.

Lemma no_double_booking_same d d' :
  reservas d' = reservas d -> no_double_booking d -> no_double_booking d'.
Proof. unfold no_double_booking. intros ->. auto. Qed.

(** X18.  Requests handled one after the other never double-book: when at
    most one reservation that is not cancelled holds each slot, this is
    still so after a booking whose cancha, fecha and horario are no longer
    than their columns, after a cancellation and after a price update. *)
Theorem no_double_booking_kept (env : gmap string string)
    (fetch_resolves : bool) (tokens : gset string) (now : Z) (place : nat)
    (d : DB) (req : Request) :
  no_double_booking d ->
  (slot_fits (body req) ->
   no_double_booking (state (post_reservar env fetch_resolves now d req)))
  ∧ no_double_booking (state (post_cancelar tokens place d req))
  ∧ no_double_booking (state (post_admin_precios tokens now d req)).
Proof.
  intros Hd. split; [|split].
  - intros (Fc & Ff & Fh).
    destruct (post_reservar_rows env fetch_resolves now d req)
      as [E|(row & E & Hfree & _ & _ & Hc & Hf & Hh)];
      [exact (no_double_booking_same _ _ E Hd)|].
    apply varchar_param_fits in Hc; [|exact Fc].
    apply varchar_param_fits in Hf; [|exact Ff].
    apply varchar_param_fits in Hh; [|exact Fh].
    assert (∀ k r, reservas d !! k = Some r -> same_slot r row ->
                   Reserva.estado r ≠ "cancelada" -> False) as Hclash.
    { intros k r Hk (S1 & S2 & S3) He.
      apply (Hfree r); [apply list_elem_of_lookup; eauto|].
      unfold holds_slot. rewrite Hc, Hf, Hh, S1, S2, S3. tauto. }
    intros i j r1 r2 H1 H2 Hs He1 He2. rewrite E in H1, H2.
    apply lookup_app_Some in H1. apply lookup_app_Some in H2.
    destruct H1 as [H1|[Hi H1]]; destruct H2 as [H2|[Hj H2]].
    + exact (Hd i j r1 r2 H1 H2 Hs He1 He2).
    + exfalso. apply list_lookup_singleton_Some in H2. destruct H2 as [_ <-].
      exact (Hclash i r1 H1 Hs He1).
    + exfalso. apply list_lookup_singleton_Some in H1. destruct H1 as [_ <-].
      apply (Hclash j r2 H2); [apply same_slot_sym, Hs|exact He2].
    + apply list_lookup_singleton_Some in H1. destruct H1 as [Hi0 _].
      apply list_lookup_singleton_Some in H2. destruct H2 as [Hj0 _]. lia.
  - destruct (post_cancelar_rows tokens place d req) as [E|[n E]];
      [exact (no_double_booking_same _ _ E Hd)|].
    unfold no_double_booking. rewrite E. apply one_per_slot_iff.
    apply (one_per_slot_perm (map (cancelled_row n) (reservas d)));
      [symmetry; apply cancelar_rows_perm|].
    apply one_per_slot_cancelled, one_per_slot_iff, Hd.
  - apply (no_double_booking_same d); [|exact Hd].
    apply (post_admin_precios_reservas tokens now d req).
Qed.

Lemma no_double_booking_kept_witness :
  no_double_booking (state (post_reservar ∅ true 10 (initDB 0 empty_db)
                                          full_booking)).
Proof.
  assert (no_double_booking (initDB 0 empty_db)) as H0.
  { intros i j r1 r2 H1 _. destruct i; discriminate H1. }
  destruct (no_double_booking_kept ∅ true ∅ 10 0 (initDB 0 empty_db)
                                   full_booking H0) as [Hbook _].
  apply Hbook. repeat split; intros s [= <-]; vm_compute; lia.
Defined.

(** Blanks beyond the width of a column are cut off when the row is
    stored, and the occupancy check compares the text as sent: the same
    over-long horario is booked twice. *)
Example trailing_blanks_book_twice :
  let req := booking [ ("nombre", JS.Str "Ana"); ("apellido", JS.Str "Paz");
                       ("whatsapp", JS.Str "1155550000");
                       ("deporte", JS.Str "padel");
                       ("cancha", JS.Str "Pádel 1");
                       ("fecha", JS.Str "2025-06-01");
                       ("horario", JS.Str "18:00       ");
                       ("precio", JS.Num 8000) ] in
  let d1 := state (post_reservar ∅ true 10 empty_db req) in
  let o2 := post_reservar ∅ true 11 d1 req in
  status (response o2) = 200%Z
  ∧ map Reserva.horario (reservas (state o2)) = ["18:00     "; "18:00     "].
Proof. vm_compute. split; reflexivity. Qed.

(** X19.  Ids are never reused: when the ids of the table are those the
    counter handed out and pairwise distinct, they are so after a booking,
    a cancellation, a price update and a start-up; and the id a booking
    returns was carried by no row before. *)
Theorem ids_stay_unique (env : gmap string string) (fetch_resolves : bool)
    (tokens : gset string) (now : Z) (place : nat) (d : DB) (req : Request) :
  ids_in_sequence d ->
  NoDup (map Reserva.id (reservas d)) ->
  let o := post_reservar env fetch_resolves now d req in
  (ids_in_sequence (state o) ∧ NoDup (map Reserva.id (reservas (state o))))
  ∧ (∀ rid, json (response o) = json_ok_id rid ->
       ∀ r, r ∈ reservas d -> Reserva.id r ≠ rid)
  ∧ (ids_in_sequence (state (post_cancelar tokens place d req))
     ∧ NoDup (map Reserva.id
                  (reservas (state (post_cancelar tokens place d req)))))
  ∧ (ids_in_sequence (state (post_admin_precios tokens now d req))
     ∧ NoDup (map Reserva.id
                  (reservas (state (post_admin_precios tokens now d req)))))
  ∧ (ids_in_sequence (initDB now d)
     ∧ NoDup (map Reserva.id (reservas (initDB now d)))).
Proof.
  intros Hseq Hnd o. subst o.
  split; [split; [apply post_reservar_ids, Hseq|]|].
  { destruct (post_reservar_rows env fetch_resolves now d req)
      as [->|(row & -> & _ & Hid & _)]; [exact Hnd|].
    rewrite map_app. cbn [map]. apply NoDup_app.
    split; [exact Hnd|]. split; [|apply NoDup_singleton].
    intros x Hx Hx'. apply list_elem_of_singleton in Hx'. subst x.
    apply list_elem_of_In, in_map_iff in Hx. destruct Hx as (r & Hr & Hin).
    apply (next_id_fresh d Hseq r); [apply list_elem_of_In, Hin|congruence]. }
  split.
  { intros rid Hjson r Hr.
    pose proof (post_reservar_cases env fetch_resolves now d req) as Hcases.
    cbv zeta in Hcases.
    destruct Hcases
      as [[_ Ho]|[(_ & _ & Ho)|[(_ & _ & d' & rid' & Hi & Ho)
                               |(_ & _ & d' & _ & Ho)]]];
      rewrite Ho in Hjson; cbn [response json answer] in Hjson;
      try discriminate Hjson.
    injection Hjson as <-.
    destruct (insert_body_Some _ _ _ _ _ Hi) as (row & _ & -> & _).
    apply (next_id_fresh d Hseq r Hr). }
  split; [split; [apply post_cancelar_ids, Hseq|]|].
  { destruct (post_cancelar_rows tokens place d req) as [->|[n ->]];
      [exact Hnd|].
    rewrite cancelar_rows_ids. exact Hnd. }
  split; [split; [apply post_admin_precios_ids, Hseq|]|].
  { destruct (post_admin_precios_reservas tokens now d req) as (-> & _).
    exact Hnd. }
  split; [apply initDB_ids, Hseq|].
  rewrite initDB_reservas. exact Hnd.
Qed.

Lemma ids_stay_unique_witness :
  ids_in_sequence one_booking
  ∧ NoDup (map Reserva.id (reservas one_booking)).
Proof.
  assert (NoDup (map Reserva.id (reservas (initDB 0 empty_db)))) as Hnd
    by (apply NoDup_nil; exact I).
  exact (proj1 (ids_stay_unique ∅ true ∅ 10 0 (initDB 0 empty_db) full_booking
                  (initDB_ids 0 empty_db ids_in_sequence_start) Hnd)).
Defined.

(** ** Availability requests *)

(** X20.  GET /disponibilidad answers 400 exactly when cancha or fecha is
    falsy (missing or empty); otherwise 500 exactly when the server refuses
    cancha or fecha as a text parameter (U+0000 in it), and then the error
    is logged; otherwise 200.  Whatever the request, the store is left as
    it was, and nothing else happens. *)
Theorem disponibilidad_read_only (d : DB) (req : Request) :
  let cancha := JS.get "cancha" (query req) in
  let fecha := JS.get "fecha" (query req) in
  let o := get_disponibilidad d req in
  (status (response o) = 400%Z
   ↔ JS.truthy cancha = false ∨ JS.truthy fecha = false)
  ∧ (status (response o) = 500%Z
     ↔ JS.truthy cancha = true ∧ JS.truthy fecha = true
       ∧ (SQL.bindable cancha = false ∨ SQL.bindable fecha = false))
  ∧ (status (response o) = 200%Z
     ↔ JS.truthy cancha = true ∧ JS.truthy fecha = true
       ∧ SQL.bindable cancha = true ∧ SQL.bindable fecha = true)
  ∧ state o = d
  ∧ (status (response o) = 500%Z ->
     o = answer 500 (json_error "Error al consultar disponibilidad") d
                [console_error "err"])
  ∧ (status (response o) ≠ 500%Z -> effects o = []).
Proof.
  intros cancha fecha o. subst o. unfold get_disponibilidad.
  fold cancha fecha. unfold JS.not.
  pose proof (select_ocupados_None d cancha fecha) as Hnone.
  destruct (JS.truthy cancha); destruct (JS.truthy fecha);
    cbn [negb orb];
    try (cbn [response status state effects answer];
         split; [split; [auto|reflexivity]|];
         split; [split; [discriminate|intros (H1 & H2 & _); congruence]|];
         split; [split; [discriminate|intros (H1 & H2 & _); congruence]|];
         split; [reflexivity|]; split; [discriminate|reflexivity]).
  destruct (Pool.select_ocupados d cancha fecha) as [rows|];
    cbn [response status state effects answer].
  - assert (SQL.bindable cancha = true ∧ SQL.bindable fecha = true) as [Hc Hf].
    { destruct (SQL.bindable cancha), (SQL.bindable fecha); auto;
        assert (Some rows = None) as Habs by (apply Hnone; auto);
        discriminate Habs. }
    split; [split; [discriminate|intros [H|H]; discriminate H]|].
    split; [split; [discriminate|]|].
    { intros (_ & _ & [H|H]); congruence. }
    split; [split; [auto|reflexivity]|].
    split; [reflexivity|]. split; [discriminate|reflexivity].
  - assert (SQL.bindable cancha = false ∨ SQL.bindable fecha = false) as Hnul
      by (apply Hnone; reflexivity).
    split; [split; [discriminate|intros [H|H]; discriminate H]|].
    split; [split; [auto|reflexivity]|].
    split; [split; [discriminate|]|].
    { intros (_ & _ & Hc & Hf). destruct Hnul; congruence. }
    split; [reflexivity|]. split; [reflexivity|].
    intros H. destruct H. reflexivity.
Qed.

Example availability_with_nul :
  get_disponibilidad one_booking (availability_query nul_x "2025-06-01")
  = answer 500 (json_error "Error al consultar disponibilidad") one_booking
           [console_error "err"].
Proof. vm_compute. reflexivity. Qed.
